(** * Chronicles of Aether Gate: the combat engine, embedded and verified

    A shallow embedding of [models/player.py], [models/enemy.py],
    [engine/combat.py], [engine/victory.py] and of the flee handler of
    [main.py].  Python integers are [Z]; Python floats are IEEE binary64
    values ([spec_float] at precision 53); a [dict] whose iteration order
    is observable is an association list with distinct keys, a [dict]
    whose order is not observable is a [gmap], a [set] is a [gset].  A
    raised exception is [None] in the option monad.  Every draw from the
    [random] module comes from an explicit [Rng] argument.  Text written
    with [print] goes to the console and is not part of any state. *)

From Stdlib Require Import ZArith String SpecFloat Lia.
From stdpp Require Import gmap strings list pretty.

Open Scope string_scope.
Open Scope list_scope.
Open Scope Z_scope.

(** ** Python floats *)

Module PyFloat.

Definition prec : Z := 53.
Definition emax : Z := 1024.

(** The literals of the source, as the doubles Python parses them to. *)
Definition c0_2 : spec_float := S754_finite false 7205759403792794 (-55).
Definition c0_3 : spec_float := S754_finite false 5404319552844595 (-54).
Definition c0_4 : spec_float := S754_finite false 7205759403792794 (-54).
Definition c0_8 : spec_float := S754_finite false 7205759403792794 (-53).
Definition c1_2 : spec_float := S754_finite false 5404319552844595 (-52).
Definition c1_3 : spec_float := S754_finite false 5854679515581645 (-52).
Definition c1_5 : spec_float := S754_finite false 6755399441055744 (-52).
Definition c2_0 : spec_float := S754_finite false 4503599627370496 (-51).

(** [float(z)], the conversion Python applies to the integer operand of
    [z * c]: correctly rounded to nearest-even; [OverflowError] when
    the integer rounds past the largest double, that is from
    [2^1024 - 2^970] on. *)
Definition max_int : Z := 2 ^ 1024 - 2 ^ 970.

Definition of_int (z : Z) : option spec_float :=
  if decide (Z.abs z < max_int) then
    Some (binary_normalize prec emax z 0 false)
  else None.

Definition mul (x y : spec_float) : spec_float := SFmul prec emax x y.

(** [z * c] for an integer [z] and a float [c]. *)
Definition int_mul (z : Z) (c : spec_float) : option spec_float :=
  f ← of_int z; Some (mul f c).

(** [int(x)]: truncation toward zero; raises on infinities and NaN. *)
Definition to_int (x : spec_float) : option Z :=
  match x with
  | S754_zero _ => Some 0
  | S754_finite s m e =>
      let a := if decide (0 ≤ e) then Z.pos m * 2 ^ e
               else Z.pos m `div` 2 ^ (- e) in
      Some (if s then - a else a)
  | S754_infinity _ | S754_nan => None
  end.

(** [z < x] for an integer [z] and a float [x]; Python compares the two
    exact values. *)
Definition int_lt (z : Z) (x : spec_float) : bool :=
  match x with
  | S754_zero _ => bool_decide (z < 0)
  | S754_finite s m e =>
      let v := if s then Z.neg m else Z.pos m in
      if decide (0 ≤ e) then bool_decide (z < v * 2 ^ e)
      else bool_decide (z * 2 ^ (- e) < v)
  | S754_infinity s => negb s
  | S754_nan => false
  end.

(** [x < y] on floats. *)
Definition lt (x y : spec_float) : bool := SFltb x y.

(** [int(z * c)], as in [int(self.attack * 1.5)]. *)
Definition scale (z : Z) (c : spec_float) : option Z :=
  f ← int_mul z c; to_int f.

End PyFloat.

(** ** The [random] module, as an injectable source *)

(** One value of [Rng] stands for the draws a single engine call makes:
    [random_random] is the result of [random.random()], [randbelow n] the
    result of the generator's [_randbelow(n)]. *)
Record Rng := mkRng {
  random_random : spec_float;
  randbelow : nat → nat
}.

(** [_randbelow(n)] lies in [0, n); the draw is reduced so that every
    source is admissible. *)
Definition py_randbelow (rng : Rng) (n : nat) : nat :=
  (randbelow rng n `mod` n)%nat.

(** [random.choice(seq)] is [seq[_randbelow(len(seq))]]; [IndexError] on
    an empty sequence. *)
Definition random_choice {A} (rng : Rng) (l : list A) : option A :=
  l !! py_randbelow rng (length l).

(** [x[i], x[j] = x[j], x[i]] *)
Definition swap {A} (i j : nat) (l : list A) : list A :=
  match l !! i, l !! j with
  | Some a, Some b => <[j:=a]> (<[i:=b]> l)
  | _, _ => l
  end.

(** [random.shuffle]: [for i in reversed(range(1, len(x)))], draw
    [j = _randbelow(i + 1)] and swap positions [i] and [j]. *)
Fixpoint shuffle_from {A} (rng : Rng) (i : nat) (l : list A) : list A :=
  match i with
  | O => l
  | S i' => shuffle_from rng i' (swap i (py_randbelow rng (S i)) l)
  end.

Definition random_shuffle {A} (rng : Rng) (l : list A) : list A :=
  shuffle_from rng (length l - 1) l.

(** ** Insertion-ordered dictionaries from names to turn counters *)

Module Dict.

Abbreviation t := (list (string * Z)).

Definition keys (d : t) : list string := d.*1.

(** The keys of a [dict] are distinct. *)
Definition wf (d : t) : Prop := NoDup (keys d).

Fixpoint get (k : string) (d : t) : option Z :=
  match d with
  | [] => None
  | (k', v) :: d' => if decide (k = k') then Some v else get k d'
  end.

Definition contains (k : string) (d : t) : bool :=
  bool_decide (is_Some (get k d)).

(** [d[k] = v]: in place for a present key, at the end for a new one. *)
Fixpoint set (k : string) (v : Z) (d : t) : t :=
  match d with
  | [] => [(k, v)]
  | (k', v') :: d' =>
      if decide (k = k') then (k, v) :: d' else (k', v') :: set k v d'
  end.

(** [del d[k]] *)
Definition del (k : string) (d : t) : t :=
  filter (λ kv, kv.1 ≠ k) d.

(** Every counter one lower. *)
Definition decremented (d : t) : t := (λ kv, (kv.1, kv.2 - 1)) <$> d.

(** The names whose counter is at most 1, in order. *)
Definition expiring (d : t) : list string :=
  (filter (λ kv, kv.2 - 1 ≤ 0) d).*1.

(** What one tick leaves of a dictionary of counters: every counter one
    lower, the entries that reached 0 gone. *)
Definition ticked (d : t) : t := filter (λ kv, 0 < kv.2) (decremented d).

End Dict.

(** ** Items held by the player ([dict]s loaded from the item data) *)

Record Item := mkItem {
  item_name : option string;      (* item.get("name") *)
  item_type : option string;      (* item.get("type") *)
  item_stackable : bool;          (* item.get("stackable", False) *)
  item_heal_amount : option Z;    (* stats["heal_amount"], when present *)
  item_focus_restore : option Z   (* stats["focus_restore"], when present *)
}.

(** ** models/player.py *)

Module Player.

(** The attributes of [Player] that combat and the victory check read
    or write.  Equipment, the current room and the base stats take no
    part in an encounter. *)
Record t := mk {
  name : string;
  max_hp : Z;
  hp : Z;
  max_focus : Z;
  focus : Z;
  attack : Z;
  defense : Z;
  speed : Z;
  inventory : list Item;
  visited_rooms : gset string;
  aether_crystals : Z;
  enemies_defeated : Z;
  total_damage_dealt : Z;
  total_damage_taken : Z;
  status_effects : Dict.t
}.

Definition set_hp (v : Z) (p : t) : t :=
  mk (name p) (max_hp p) v (max_focus p) (focus p) (attack p) (defense p)
     (speed p) (inventory p) (visited_rooms p) (aether_crystals p)
     (enemies_defeated p) (total_damage_dealt p) (total_damage_taken p)
     (status_effects p).

Definition set_focus (v : Z) (p : t) : t :=
  mk (name p) (max_hp p) (hp p) (max_focus p) v (attack p) (defense p)
     (speed p) (inventory p) (visited_rooms p) (aether_crystals p)
     (enemies_defeated p) (total_damage_dealt p) (total_damage_taken p)
     (status_effects p).

Definition set_inventory (v : list Item) (p : t) : t :=
  mk (name p) (max_hp p) (hp p) (max_focus p) (focus p) (attack p)
     (defense p) (speed p) v (visited_rooms p) (aether_crystals p)
     (enemies_defeated p) (total_damage_dealt p) (total_damage_taken p)
     (status_effects p).

Definition set_enemies_defeated (v : Z) (p : t) : t :=
  mk (name p) (max_hp p) (hp p) (max_focus p) (focus p) (attack p)
     (defense p) (speed p) (inventory p) (visited_rooms p)
     (aether_crystals p) v (total_damage_dealt p) (total_damage_taken p)
     (status_effects p).

Definition set_total_damage_dealt (v : Z) (p : t) : t :=
  mk (name p) (max_hp p) (hp p) (max_focus p) (focus p) (attack p)
     (defense p) (speed p) (inventory p) (visited_rooms p)
     (aether_crystals p) (enemies_defeated p) v (total_damage_taken p)
     (status_effects p).

Definition set_total_damage_taken (v : Z) (p : t) : t :=
  mk (name p) (max_hp p) (hp p) (max_focus p) (focus p) (attack p)
     (defense p) (speed p) (inventory p) (visited_rooms p)
     (aether_crystals p) (enemies_defeated p) (total_damage_dealt p) v
     (status_effects p).

Definition set_status_effects (v : Dict.t) (p : t) : t :=
  mk (name p) (max_hp p) (hp p) (max_focus p) (focus p) (attack p)
     (defense p) (speed p) (inventory p) (visited_rooms p)
     (aether_crystals p) (enemies_defeated p) (total_damage_dealt p)
     (total_damage_taken p) v.

(** [Player.__init__] *)
Definition init (name : string) : t :=
  mk name 100 100 5 5 10 5 6 [] ∅ 0 0 0 0 [].

(** [take_damage]: the damage actually taken, and the player after. *)
Definition take_damage (damage : Z) (p : t) : Z * t :=
  let actual_damage := Z.max 1 (damage - defense p) in
  let p := set_hp (Z.max 0 (hp p - actual_damage)) p in
  let p := set_total_damage_taken (total_damage_taken p + actual_damage) p in
  (actual_damage, p).

Definition heal (amount : Z) (p : t) : Z * t :=
  let old_hp := hp p in
  let p := set_hp (Z.min (max_hp p) (hp p + amount)) p in
  (hp p - old_hp, p).

Definition restore_focus (amount : Z) (p : t) : Z * t :=
  let old_focus := focus p in
  let p := set_focus (Z.min (max_focus p) (focus p + amount)) p in
  (focus p - old_focus, p).

Definition spend_focus (amount : Z) (p : t) : bool * t :=
  if decide (amount ≤ focus p) then (true, set_focus (focus p - amount) p)
  else (false, p).

(** [remove_item]: pops the first item of that name. *)
Fixpoint remove_first (item_name' : string) (inv : list Item) : list Item :=
  match inv with
  | [] => []
  | item :: inv' =>
      if decide (item_name item = Some item_name') then inv'
      else item :: remove_first item_name' inv'
  end.

Definition remove_item (item_name' : string) (p : t) : t :=
  set_inventory (remove_first item_name' (inventory p)) p.

Definition is_alive (p : t) : bool := bool_decide (0 < hp p).

Definition has_won (p : t) : bool := bool_decide (3 ≤ aether_crystals p).

Definition can_use_ability (focus_cost : Z) (p : t) : bool :=
  bool_decide (focus_cost ≤ focus p).

Definition add_status_effect (effect : string) (duration : Z) (p : t) : t :=
  set_status_effects (Dict.set effect duration (status_effects p)) p.

(** The body of the first loop of [update_status_effects], for one
    item [(effect, duration)] of the dictionary: the loop state is the
    player and the list of expired effects. *)
Definition update_one (st : t * list string) (item : string * Z)
  : t * list string :=
  let '(p, expired_effects) := st in
  let '(effect, duration) := item in
  let p := set_status_effects
             (Dict.set effect (duration - 1) (status_effects p)) p in
  if decide (duration - 1 ≤ 0) then (p, (expired_effects ++ [effect])%list)
  else if decide (effect = "poisoned") then
    ((take_damage 3 p).2, expired_effects)
  else if decide (effect = "regenerating") then
    ((heal 5 p).2, expired_effects)
  else (p, expired_effects).

(** [update_status_effects]: the loop over the items in insertion
    order, then the removal of the expired effects. *)
Definition update_status_effects (p : t) : t :=
  let '(p, expired_effects) :=
    foldl update_one (p, []) (status_effects p) in
  foldl (λ p effect,
           set_status_effects (Dict.del effect (status_effects p)) p)
        p expired_effects.

(** What the loop body does to the pools for one item: nothing for an
    effect that expires in this tick, [take_damage(3)] for a surviving
    poison, [heal(5)] for a surviving regeneration. *)
Definition ongoing (p : t) (item : string * Z) : t :=
  if decide (item.2 - 1 ≤ 0) then p
  else if decide (item.1 = "poisoned") then (take_damage 3 p).2
  else if decide (item.1 = "regenerating") then (heal 5 p).2
  else p.

(** Pools within their bounds, dictionary keys distinct. *)
Definition wf (p : t) : Prop :=
  0 ≤ hp p ≤ max_hp p ∧ Dict.wf (status_effects p).

End Player.

(** ** models/enemy.py *)

(** An action chosen by the adversary: the [dict] that [choose_action]
    returns, [{"type": "attack"}] or [{"type": "ability", "name": n}]. *)
Abbreviation Action := (gmap string string).

Definition attack_action : Action := {[ "type" := "attack" ]}.
Definition ability_action (ability : string) : Action :=
  <[ "name" := ability ]> {[ "type" := "ability" ]}.

Module Enemy.

(** The classes of the module: [Enemy] and its three subclasses. *)
Inductive Kind := Base | ClockworkSentinel | RogueAutomaton | SteamGolem.

#[global] Instance Kind_eq_dec : EqDecision Kind.
Proof. solve_decision. Defined.

(** The entry of the enemy data for one enemy; a missing key is [None]. *)
Record Template := mkTemplate {
  t_name : option string;
  t_hp : option Z;
  t_attack : option Z;
  t_defense : option Z;
  t_speed : option Z;
  t_focus : option Z;
  t_abilities : option (list string);
  t_ai_pattern : option string;
  t_loot : option (list string)
}.

Record t := mk {
  kind : Kind;
  id : string;
  name : string;
  max_hp : Z;
  hp : Z;
  attack : Z;
  defense : Z;
  speed : Z;
  focus : Z;
  max_focus : Z;
  abilities : list string;
  ability_cooldowns : gmap string Z;
  ai_pattern : string;
  status_effects : Dict.t;
  loot : list string;
  steam_pressure : Z              (* [SteamGolem] only *)
}.

Definition set_hp (v : Z) (e : t) : t :=
  mk (kind e) (id e) (name e) (max_hp e) v (attack e) (defense e) (speed e)
     (focus e) (max_focus e) (abilities e) (ability_cooldowns e)
     (ai_pattern e) (status_effects e) (loot e) (steam_pressure e).

Definition set_focus (v : Z) (e : t) : t :=
  mk (kind e) (id e) (name e) (max_hp e) (hp e) (attack e) (defense e)
     (speed e) v (max_focus e) (abilities e) (ability_cooldowns e)
     (ai_pattern e) (status_effects e) (loot e) (steam_pressure e).

Definition set_ability_cooldowns (v : gmap string Z) (e : t) : t :=
  mk (kind e) (id e) (name e) (max_hp e) (hp e) (attack e) (defense e)
     (speed e) (focus e) (max_focus e) (abilities e) v
     (ai_pattern e) (status_effects e) (loot e) (steam_pressure e).

Definition set_status_effects (v : Dict.t) (e : t) : t :=
  mk (kind e) (id e) (name e) (max_hp e) (hp e) (attack e) (defense e)
     (speed e) (focus e) (max_focus e) (abilities e) (ability_cooldowns e)
     (ai_pattern e) v (loot e) (steam_pressure e).

Definition set_steam_pressure (v : Z) (e : t) : t :=
  mk (kind e) (id e) (name e) (max_hp e) (hp e) (attack e) (defense e)
     (speed e) (focus e) (max_focus e) (abilities e) (ability_cooldowns e)
     (ai_pattern e) (status_effects e) (loot e) v.

(** [Enemy.__init__], run by every class; the subclasses fix the id
    and add their own attribute ([steam_pressure = 3] for the golem). *)
Definition init (k : Kind) (enemy_id : string) (data : Template) : t :=
  let focus := default 2 (t_focus data) in
  mk k enemy_id (default "Unknown Enemy" (t_name data))
     (default 20 (t_hp data)) (default 20 (t_hp data))
     (default 5 (t_attack data)) (default 1 (t_defense data))
     (default 3 (t_speed data)) focus focus
     (default [] (t_abilities data)) ∅
     (default "basic" (t_ai_pattern data)) []
     (default [] (t_loot data))
     (if decide (k = SteamGolem) then 3 else 0).

(** [create_enemy] *)
Definition create_enemy (enemy_id : string) (data : Template) : t :=
  if decide (enemy_id = "clockwork_sentinel") then
    init ClockworkSentinel "clockwork_sentinel" data
  else if decide (enemy_id = "rogue_automaton") then
    init RogueAutomaton "rogue_automaton" data
  else if decide (enemy_id = "steam_golem") then
    init SteamGolem "steam_golem" data
  else init Base enemy_id data.

(** [RogueAutomaton.evasion_chance] *)
Definition evasion_chance : spec_float := PyFloat.c0_2.

(** [Enemy.take_damage] *)
Definition Enemy_take_damage (damage : Z) (e : t) : Z * t :=
  let actual_damage := Z.max 1 (damage - defense e) in
  (actual_damage, set_hp (Z.max 0 (hp e - actual_damage)) e).

(** [take_damage], dispatched on the class of the receiver. *)
Definition take_damage (rng : Rng) (damage : Z) (e : t) : Z * t :=
  match kind e with
  | ClockworkSentinel =>
      let actual_damage := Z.max 1 (damage - (defense e + 2)) in
      (actual_damage, set_hp (Z.max 0 (hp e - actual_damage)) e)
  | RogueAutomaton =>
      if PyFloat.lt (random_random rng) evasion_chance then (0, e)
      else Enemy_take_damage damage e
  | Base | SteamGolem => Enemy_take_damage damage e
  end.

Definition heal (amount : Z) (e : t) : Z * t :=
  let old_hp := hp e in
  let e := set_hp (Z.min (max_hp e) (hp e + amount)) e in
  (hp e - old_hp, e).

Definition is_alive (e : t) : bool := bool_decide (0 < hp e).

Definition costs : gmap string Z :=
  list_to_map [("power_strike", 2); ("defensive_stance", 1);
               ("quick_strike", 1); ("energy_discharge", 3);
               ("repair_self", 2); ("berserker_rage", 3)].

Definition _get_ability_focus_cost (ability_name : string) : Z :=
  default 1 (costs !! ability_name).

Definition cooldowns : gmap string Z :=
  list_to_map [("power_strike", 2); ("defensive_stance", 3);
               ("quick_strike", 1); ("energy_discharge", 4);
               ("repair_self", 3); ("berserker_rage", 5)].

Definition _get_ability_cooldown (ability_name : string) : Z :=
  default 2 (cooldowns !! ability_name).

Definition can_use_ability (ability_name : string) (e : t) : bool :=
  if decide (ability_name ∈ abilities e) then
    match ability_cooldowns e !! ability_name with
    | Some n =>
        if decide (0 < n) then false
        else bool_decide (_get_ability_focus_cost ability_name ≤ focus e)
    | None => bool_decide (_get_ability_focus_cost ability_name ≤ focus e)
    end
  else false.

(** [_execute_ability]: the description, the damage dealt, the enemy
    after. *)
Definition _execute_ability (ability_name : string) (e : t)
  : option (string * Z * t) :=
  if decide (ability_name = "power_strike") then
    damage ← PyFloat.scale (attack e) PyFloat.c1_5;
    Some ("🔥 " +:+ name e +:+ " unleashes a devastating power strike!",
          damage, e)
  else if decide (ability_name = "defensive_stance") then
    Some ("🛡️ " +:+ name e +:+ " takes a defensive stance!", 0,
          set_status_effects (Dict.set "defensive" 2 (status_effects e)) e)
  else if decide (ability_name = "quick_strike") then
    damage ← PyFloat.scale (attack e) PyFloat.c0_8;
    Some ("⚡ " +:+ name e +:+ " strikes with lightning speed!", damage, e)
  else if decide (ability_name = "energy_discharge") then
    damage ← PyFloat.scale (attack e) PyFloat.c1_2;
    Some ("💥 " +:+ name e +:+ " releases a burst of energy!", damage, e)
  else if decide (ability_name = "repair_self") then
    let '(healed, e) := heal 15 e in
    Some ("🔧 " +:+ name e +:+ " performs emergency repairs! (+"
            +:+ pretty healed +:+ " HP)", 0, e)
  else if decide (ability_name = "berserker_rage") then
    let e := set_status_effects
               (Dict.set "berserker" 3 (status_effects e)) e in
    damage ← PyFloat.scale (attack e) PyFloat.c2_0;
    Some ("😡 " +:+ name e +:+ " enters a berserker rage!", damage, e)
  else
    Some (name e +:+ " uses " +:+ ability_name +:+ "!", attack e, e).

Definition use_ability (ability_name : string) (e : t)
  : option (string * Z * t) :=
  if can_use_ability ability_name e then
    let focus_cost := _get_ability_focus_cost ability_name in
    let e := set_focus (focus e - focus_cost) e in
    let e := set_ability_cooldowns
               (<[ ability_name := _get_ability_cooldown ability_name ]>
                  (ability_cooldowns e)) e in
    _execute_ability ability_name e
  else
    Some (name e +:+ " cannot use " +:+ ability_name +:+ "!", 0, e).

(** The first loop of [choose_action]: every cooldown one lower, the
    entries that reach 0 deleted. *)
Definition update_cooldowns (cds : gmap string Z) : gmap string Z :=
  omap (λ n, if decide (n - 1 ≤ 0) then None else Some (n - 1)) cds.

(** The body of the first loop of [_update_status_effects]. *)
Definition update_one (st : Dict.t * list string) (item : string * Z)
  : Dict.t * list string :=
  let '(d, expired_effects) := st in
  let '(effect, duration) := item in
  let d := Dict.set effect (duration - 1) d in
  if decide (duration - 1 ≤ 0) then (d, (expired_effects ++ [effect])%list)
  else (d, expired_effects).

Definition _update_status_effects (e : t) : t :=
  let '(d, expired_effects) :=
    foldl update_one (status_effects e, []) (status_effects e) in
  set_status_effects (foldl (λ d effect, Dict.del effect d) d expired_effects)
                     e.

Definition _aggressive_ai (e : t) : Action :=
  if can_use_ability "power_strike" e then ability_action "power_strike"
  else if can_use_ability "berserker_rage" e then
    ability_action "berserker_rage"
  else attack_action.

Definition _defensive_ai (e : t) : option Action :=
  bound ← PyFloat.int_mul (max_hp e) PyFloat.c0_3;
  if PyFloat.int_lt (hp e) bound && can_use_ability "repair_self" e then
    Some (ability_action "repair_self")
  else if negb (Dict.contains "defensive" (status_effects e))
          && can_use_ability "defensive_stance" e then
    Some (ability_action "defensive_stance")
  else Some attack_action.

Definition _tactical_ai (player_hp player_focus : Z) (e : t)
  : option Action :=
  if bool_decide (player_hp < 30) && can_use_ability "power_strike" e then
    Some (ability_action "power_strike")
  else if bool_decide (3 ≤ player_focus)
          && can_use_ability "defensive_stance" e then
    Some (ability_action "defensive_stance")
  else
    bound ← PyFloat.int_mul (max_hp e) PyFloat.c0_4;
    if PyFloat.int_lt (hp e) bound then
      if can_use_ability "repair_self" e then
        Some (ability_action "repair_self")
      else if can_use_ability "berserker_rage" e then
        Some (ability_action "berserker_rage")
      else Some attack_action
    else Some attack_action.

Definition _hit_and_run_ai (e : t) : Action :=
  if can_use_ability "quick_strike" e then ability_action "quick_strike"
  else attack_action.

Definition _basic_ai (rng : Rng) (e : t) : option Action :=
  if PyFloat.lt (random_random rng) PyFloat.c0_3
     && bool_decide (abilities e ≠ []) then
    let available_abilities :=
      filter (λ ability, can_use_ability ability e = true) (abilities e) in
    if decide (available_abilities ≠ []) then
      ability ← random_choice rng available_abilities;
      Some (ability_action ability)
    else Some attack_action
  else Some attack_action.

(** [Enemy.choose_action].  The policies are modelled without the
    arguments they ignore. *)
Definition Enemy_choose_action (rng : Rng)
    (player_hp player_defense player_focus : Z) (e : t)
  : option (Action * t) :=
  let e := set_ability_cooldowns (update_cooldowns (ability_cooldowns e)) e in
  let e := _update_status_effects e in
  action ←
    (if decide (ai_pattern e = "aggressive") then Some (_aggressive_ai e)
     else if decide (ai_pattern e = "defensive") then _defensive_ai e
     else if decide (ai_pattern e = "tactical") then
       _tactical_ai player_hp player_focus e
     else if decide (ai_pattern e = "hit_and_run") then
       Some (_hit_and_run_ai e)
     else _basic_ai rng e);
  Some (action, e).

(** [choose_action], dispatched on the class of the receiver:
    [SteamGolem] overrides it. *)
Definition choose_action (rng : Rng)
    (player_hp player_defense player_focus : Z) (e : t)
  : option (Action * t) :=
  match kind e with
  | SteamGolem =>
      let e := set_steam_pressure (steam_pressure e + 1) e in
      if decide (3 ≤ steam_pressure e) then
        Some (ability_action "steam_blast", set_steam_pressure 0 e)
      else Enemy_choose_action rng player_hp player_defense player_focus e
  | _ => Enemy_choose_action rng player_hp player_defense player_focus e
  end.

Definition get_effective_attack (e : t) : option Z :=
  if Dict.contains "berserker" (status_effects e) then
    PyFloat.scale (attack e) PyFloat.c1_5
  else Some (attack e).

Definition get_loot (e : t) : list string := loot e.

Definition wf (e : t) : Prop :=
  0 ≤ hp e ≤ max_hp e ∧ Dict.wf (status_effects e).

(** What the policies owe: a basic attack, or an ability that passes
    [can_use_ability] in the state [e] of the selection. *)
Definition selects_usable (action : Action) (e : t) : Prop :=
  action = attack_action
  ∨ ∃ ability, action = ability_action ability
               ∧ can_use_ability ability e = true.

End Enemy.

(** ** engine/combat.py *)

(** An entry of the [abilities] table of [player_use_ability]. *)
Record PlayerAbility := mkPlayerAbility {
  focus_cost : Z;
  damage_multiplier : option spec_float;
  heal_amount : option Z;
  description : string
}.

Module Combat.

Record t := mk {
  player : Player.t;
  enemy : Enemy.t;
  turn_queue : list string;
  current_turn : Z;
  combat_log : list string;
  combat_active : bool
}.

Definition set_player (v : Player.t) (s : t) : t :=
  mk v (enemy s) (turn_queue s) (current_turn s) (combat_log s)
     (combat_active s).

Definition set_enemy (v : Enemy.t) (s : t) : t :=
  mk (player s) v (turn_queue s) (current_turn s) (combat_log s)
     (combat_active s).

Definition set_turn_queue (v : list string) (s : t) : t :=
  mk (player s) (enemy s) v (current_turn s) (combat_log s)
     (combat_active s).

Definition set_current_turn (v : Z) (s : t) : t :=
  mk (player s) (enemy s) (turn_queue s) v (combat_log s) (combat_active s).

Definition set_combat_active (v : bool) (s : t) : t :=
  mk (player s) (enemy s) (turn_queue s) (current_turn s) (combat_log s) v.

Definition log_message (message : string) (s : t) : t :=
  mk (player s) (enemy s) (turn_queue s) (current_turn s)
     (combat_log s ++ [message])%list (combat_active s).

Definition _setup_turn_order (rng : Rng) (s : t) : t :=
  let player_speed := Player.speed (player s) in
  let enemy_speed := Enemy.speed (enemy s) in
  let s :=
    if decide (enemy_speed ≤ player_speed) then
      set_turn_queue ["player"; "enemy"] s
    else set_turn_queue ["enemy"; "player"] s in
  let s :=
    if decide (player_speed = enemy_speed) then
      set_turn_queue (random_shuffle rng (turn_queue s)) s
    else s in
  log_message ("Turn order: " +:+ String.concat " → " (turn_queue s)) s.

(** [CombatEngine.__init__]; [enemy_data] is what [load_enemies()]
    returned.  [ValueError] for an unknown id. *)
Definition init (enemy_data : gmap string Enemy.Template) (rng : Rng)
    (player : Player.t) (enemy_id : string) : option t :=
  data ← enemy_data !! enemy_id;
  let s := mk player (Enemy.create_enemy enemy_id data) [] 0 [] true in
  let s := _setup_turn_order rng s in
  Some (log_message ("⚔️ Combat begins! " +:+ Player.name (Combat.player s)
                       +:+ " vs " +:+ Enemy.name (enemy s)) s).

(** [ZeroDivisionError] on an empty queue. *)
Definition get_current_turn (s : t) : option string :=
  if combat_active s then
    if decide (turn_queue s = []) then None
    else turn_queue s
           !! Z.to_nat (current_turn s `mod` Z.of_nat (length (turn_queue s)))
  else Some "none".

Definition is_player_turn (s : t) : option bool :=
  turn ← get_current_turn s; Some (bool_decide (turn = "player")).

Definition is_combat_over (s : t) : bool :=
  negb (combat_active s) || negb (Player.is_alive (player s))
  || negb (Enemy.is_alive (enemy s)).

Definition get_winner (s : t) : option string :=
  if is_combat_over s then
    if Player.is_alive (player s) then Some "player"
    else if Enemy.is_alive (enemy s) then Some "enemy"
    else Some "draw"
  else None.

Definition _handle_victory (s : t) : t :=
  let s := log_message ("🎉 " +:+ Enemy.name (enemy s) +:+ " defeated!") s in
  let s := set_player
             (Player.set_enemies_defeated
                (Player.enemies_defeated (player s) + 1) (player s)) s in
  let loot := Enemy.get_loot (enemy s) in
  if decide (loot ≠ []) then
    log_message ("💰 " +:+ Enemy.name (enemy s) +:+ " dropped: "
                   +:+ String.concat ", " loot) s
  else s.

Definition _end_turn (s : t) : t :=
  let s := set_player (Player.update_status_effects (player s)) s in
  let s := set_enemy (Enemy._update_status_effects (enemy s)) s in
  if negb (Player.is_alive (player s)) then
    let s := set_combat_active false s in
    log_message ("💀 " +:+ Player.name (player s) +:+ " has been defeated!") s
  else if negb (Enemy.is_alive (enemy s)) then
    _handle_victory (set_combat_active false s)
  else set_current_turn (current_turn s + 1) s.

Definition player_attack (rng : Rng) (s : t) : option (string * t) :=
  turn ← is_player_turn s;
  if negb turn then Some ("❌ Not your turn!", s)
  else
    let damage := Player.attack (player s) in
    let '(actual_damage, e) := Enemy.take_damage rng damage (enemy s) in
    let s := set_enemy e s in
    let s := set_player
               (Player.set_total_damage_dealt
                  (Player.total_damage_dealt (player s) + actual_damage)
                  (player s)) s in
    let message :=
      "⚔️ " +:+ Player.name (player s) +:+ " attacks "
        +:+ Enemy.name (enemy s) +:+ " for " +:+ pretty actual_damage
        +:+ " damage!" in
    Some (message, _end_turn (log_message message s)).

Definition abilities : gmap string PlayerAbility :=
  list_to_map
    [("power_strike",
       mkPlayerAbility 2 (Some PyFloat.c1_5) None "🔥 Devastating strike");
     ("defensive_stance",
       mkPlayerAbility 1 (Some (S754_zero false)) None
                       "🛡️ Defensive position");
     ("aether_blast",
       mkPlayerAbility 3 (Some PyFloat.c1_3) None "💥 Magical energy blast");
     ("heal", mkPlayerAbility 2 None (Some 25) "💚 Self healing")].

Definition player_use_ability (rng : Rng) (ability_name : string) (s : t)
  : option (string * t) :=
  turn ← is_player_turn s;
  if negb turn then Some ("❌ Not your turn!", s)
  else
    match abilities !! ability_name with
    | None => Some ("❌ Unknown ability: " +:+ ability_name, s)
    | Some ability =>
        let focus_cost := focus_cost ability in
        let '(spent, p) := Player.spend_focus focus_cost (player s) in
        let s := set_player p s in
        if negb spent then
          Some ("❌ Not enough focus! Need " +:+ pretty focus_cost
                  +:+ ", have " +:+ pretty (Player.focus (player s)), s)
        else
          '(message, s) ←
            (if decide (ability_name = "heal") then
               amount ← heal_amount ability;
               let '(healed, p) := Player.heal amount (player s) in
               Some (description ability +:+ ": " +:+ Player.name p
                       +:+ " heals for " +:+ pretty healed +:+ " HP!",
                     set_player p s)
             else if decide (ability_name = "defensive_stance") then
               let p := Player.add_status_effect "defensive" 2 (player s) in
               Some (description ability +:+ ": " +:+ Player.name p
                       +:+ " takes a defensive stance!", set_player p s)
             else
               multiplier ← damage_multiplier ability;
               damage ← PyFloat.scale (Player.attack (player s)) multiplier;
               let '(actual_damage, e) :=
                 Enemy.take_damage rng damage (enemy s) in
               let s := set_enemy e s in
               let s := set_player
                          (Player.set_total_damage_dealt
                             (Player.total_damage_dealt (player s)
                              + actual_damage) (player s)) s in
               Some (description ability +:+ ": " +:+ pretty actual_damage
                       +:+ " damage to " +:+ Enemy.name (enemy s) +:+ "!",
                     s));
          Some (message, _end_turn (log_message message s))
    end.

Definition _use_consumable_item (item : Item) (s : t) : string * t :=
  let '(results, s) :=
    match item_heal_amount item with
    | Some amount =>
        let '(healed, p) := Player.heal amount (player s) in
        (["+" +:+ pretty healed +:+ " HP"], set_player p s)
    | None => ([], s)
    end in
  let '(results, s) :=
    match item_focus_restore item with
    | Some amount =>
        let '(restored, p) := Player.restore_focus amount (player s) in
        ((results ++ ["+" +:+ pretty restored +:+ " Focus"])%list,
         set_player p s)
    | None => (results, s)
    end in
  (if decide (results ≠ []) then String.concat ", " results
   else "No effect", s).

(** The loop of [player_use_item]: the first item of that name that is
    a consumable. *)
Definition find_consumable (item_name' : string) (inv : list Item)
  : option Item :=
  head (filter (λ item, item_name item = Some item_name'
                        ∧ item_type item = Some "consumable") inv).

Definition player_use_item (item_name' : string) (s : t)
  : option (string * t) :=
  turn ← is_player_turn s;
  if negb turn then Some ("❌ Not your turn!", s)
  else
    match find_consumable item_name' (Player.inventory (player s)) with
    | Some item =>
        let '(result, s) := _use_consumable_item item s in
        let s :=
          if negb (item_stackable item) then
            set_player (Player.remove_item item_name' (player s)) s
          else s in
        let s := log_message
                   ("💊 Used " +:+ item_name' +:+ ": " +:+ result) s in
        Some (result, _end_turn s)
    | None => Some ("❌ " +:+ item_name' +:+ " not found or not usable!", s)
    end.

Definition enemy_turn (rng : Rng) (s : t) : option (string * t) :=
  turn ← get_current_turn s;
  if decide (turn ≠ "enemy") then Some ("", s)
  else
    '(action, e) ←
      Enemy.choose_action rng (Player.hp (player s))
        (Player.defense (player s)) (Player.focus (player s)) (enemy s);
    let s := set_enemy e s in
    type ← action !! "type";
    '(message, s) ←
      (if decide (type = "attack") then
         damage ← Enemy.get_effective_attack (enemy s);
         let '(actual_damage, p) := Player.take_damage damage (player s) in
         Some ("👹 " +:+ Enemy.name (enemy s) +:+ " attacks "
                 +:+ Player.name p +:+ " for " +:+ pretty actual_damage
                 +:+ " damage!", set_player p s)
       else if decide (type = "ability") then
         ability_name ← action !! "name";
         '(result, damage, e) ← Enemy.use_ability ability_name (enemy s);
         let s := set_enemy e s in
         if decide (0 < damage) then
           let '(actual_damage, p) :=
             Player.take_damage damage (player s) in
           Some (result +:+ " " +:+ pretty actual_damage +:+ " damage to "
                   +:+ Player.name p +:+ "!", set_player p s)
         else Some (result, s)
       else Some ("❓ Enemy tried unknown action.", s));
    Some (message, _end_turn (log_message message s)).

(** The calls the application makes on the engine, one per event of
    the combat window or of the enemy-turn timer. *)
Inductive Request :=
| ReqAttack
| ReqAbility (ability_name : string)
| ReqItem (item_name' : string)
| ReqEnemyTurn.

Definition perform (rng : Rng) (r : Request) (s : t)
  : option (string * t) :=
  match r with
  | ReqAttack => player_attack rng s
  | ReqAbility ability_name => player_use_ability rng ability_name s
  | ReqItem item_name' => player_use_item item_name' s
  | ReqEnemyTurn => enemy_turn rng s
  end.

(** A sequence of calls, each with the draws it consumes. *)
Fixpoint run (script : list (Rng * Request)) (s : t) : option t :=
  match script with
  | [] => Some s
  | (rng, r) :: script' => '(_, s) ← perform rng r s; run script' s
  end.

Definition wf (s : t) : Prop :=
  Player.wf (player s) ∧ Enemy.wf (enemy s).

(** Both hp within their bounds. *)
Definition hp_in_bounds (s : t) : Prop :=
  0 ≤ Player.hp (player s) ≤ Player.max_hp (player s)
  ∧ 0 ≤ Enemy.hp (enemy s) ≤ Enemy.max_hp (enemy s).

(** No item of the player's inventory declares a negative heal. *)
Definition items_heal (s : t) : Prop :=
  ∀ item amount,
    item ∈ Player.inventory (player s) →
    item_heal_amount item = Some amount → 0 ≤ amount.

(** The termination check as read from the state [s'] it leaves, [turn]
    being the turn counter before the check: both hp are non-negative;
    with the player at 0 the encounter is concluded, for the enemy or,
    with the enemy at 0 too, as a draw; with only the enemy at 0 it is
    concluded for the player; in these cases the turn counter stays;
    otherwise the encounter is active, without a winner, one turn on. *)
Definition termination_evaluated (turn : Z) (s' : t) : Prop :=
  let php := Player.hp (player s') in
  let ehp := Enemy.hp (enemy s') in
  0 ≤ php ∧ 0 ≤ ehp
  ∧ (php = 0 ∧ ehp ≠ 0 →
     combat_active s' = false ∧ get_winner s' = Some "enemy"
     ∧ current_turn s' = turn)
  ∧ (php = 0 ∧ ehp = 0 →
     combat_active s' = false ∧ get_winner s' = Some "draw"
     ∧ current_turn s' = turn)
  ∧ (php ≠ 0 ∧ ehp = 0 →
     combat_active s' = false ∧ get_winner s' = Some "player"
     ∧ current_turn s' = turn)
  ∧ (php ≠ 0 ∧ ehp ≠ 0 →
     combat_active s' = true ∧ get_winner s' = None
     ∧ current_turn s' = turn + 1).

End Combat.

(** ** engine/victory.py *)

Module Victory.

(** [VictoryManager.victory_conditions] *)
Record t := mk {
  aether_crystals : Z;
  required_rooms : list string;
  min_enemies_defeated : Z
}.

(** [VictoryManager.__init__] *)
Definition init : t :=
  mk 3 ["entrance"; "hallway"; "laboratory"; "armory"] 2.

(** [check_victory_conditions]: [(has_won, victory_type, achievements)].
    The local list [victory_messages] is built and dropped by the
    source and is left out. *)
Definition check_victory_conditions (vm : t) (player : Player.t)
  : bool * string * list string :=
  let achievements : list string := [] in
  let crystals_needed := aether_crystals vm in
  let achievements :=
    if decide (crystals_needed ≤ Player.aether_crystals player) then
      (achievements ++ ["Crystal Master"])%list
    else achievements in
  let required_rooms : gset string := list_to_set (required_rooms vm) in
  let visited_rooms := Player.visited_rooms player in
  let achievements :=
    if decide (required_rooms ⊆ visited_rooms) then
      (achievements ++ ["Explorer"])%list
    else achievements in
  let min_enemies := min_enemies_defeated vm in
  let achievements :=
    if decide (min_enemies ≤ Player.enemies_defeated player) then
      (achievements ++ ["Warrior"])%list
    else achievements in
  let achievements :=
    if decide (Player.total_damage_taken player = 0) then
      (achievements ++ ["Untouchable"])%list
    else achievements in
  let achievements :=
    if decide (Player.total_damage_taken player < 20) then
      (achievements ++ ["Tactical Genius"])%list
    else achievements in
  let achievements :=
    if decide (size required_rooms ≤ size visited_rooms)%nat then
      (achievements ++ ["Thorough Explorer"])%list
    else achievements in
  let main_victory :=
    bool_decide (crystals_needed ≤ Player.aether_crystals player) in
  if main_victory then
    (true,
     if decide (3 ≤ length achievements)%nat then "complete"
     else "standard",
     achievements)
  else (false, "none", achievements).

Definition check_defeat_condition (player : Player.t) : bool :=
  negb (Player.is_alive player).

(** The required rooms of [init], as the set the check builds. *)
Definition required_set : gset string :=
  {[ "entrance"; "hallway"; "laboratory"; "armory" ]}.

End Victory.

(** ** main.py: what the application does when the player flees *)

Module App.

(** The attributes of the game object that the flee handler touches:
    the engine and the combat window (absent when there is no
    encounter; the window is reduced to the lines of its log widget),
    and the [Player] object, which the engine shares with the
    application while it exists. *)
Record t := mk {
  player : Player.t;
  combat_engine : option Combat.t;
  combat_gui : option (list string)
}.

(** [_end_combat].  With ["enemy"] the call
    [self.combat_gui.show_combat_result(winner)] lacks the second
    argument of [show_combat_result(self, title, message)] and raises
    [TypeError]. *)
Definition _end_combat (winner : string) (app : t) : option t :=
  if decide (winner = "enemy") then None
  else if decide (winner = "fled") then
    Some (mk (from_option Combat.player (player app) (combat_engine app))
             None None)
  else Some app.

(** [_combat_flee]; [AttributeError] without a combat window. *)
Definition _combat_flee (app : t) : option t :=
  gui ← combat_gui app;
  let app := mk (player app) (combat_engine app)
                (Some (gui ++ ["🏃 You fled from combat!"])%list) in
  _end_combat "fled" app.

End App.

(** ** The claims as the specification words them, where the code
    departs from them *)

Module Claimed.

(** A poison that is active at the end of a turn costs hp in that tick. *)
Definition poison_acts_on_every_tick (s : Combat.t) : Prop :=
  ∀ n, Dict.get "poisoned" (Player.status_effects (Combat.player s)) = Some n →
       0 < n →
       Player.hp (Combat.player (Combat._end_turn s))
       < Player.hp (Combat.player s).

(** The removal of an expired effect appends a line to the message log. *)
Definition expiry_is_logged (s : Combat.t) : Prop :=
  ∀ effect n,
    Dict.get effect (Player.status_effects (Combat.player s)) = Some n →
    Dict.get effect
      (Player.status_effects (Combat.player (Combat._end_turn s))) = None →
    Combat.combat_log (Combat._end_turn s) ≠ Combat.combat_log s.


(** The combat core has a transition that concludes an active encounter
    with the outcome "fled". *)
Definition core_has_flee : Prop :=
  ∃ flee : Combat.t → Combat.t,
    ∀ s, Combat.combat_active s = true →
         Combat.get_winner (flee s) = Some "fled".

(** The achievements as the union of the four bonus predicates, and the
    victory type counted on them. *)
Definition achievements (player : Player.t) : list string :=
  (if decide (Victory.required_set ⊆ Player.visited_rooms player)
   then ["Explorer"] else [])
  ++ (if decide (2 ≤ Player.enemies_defeated player)
      then ["Warrior"] else [])
  ++ (if decide (Player.total_damage_taken player = 0)
      then ["Untouchable"] else [])
  ++ (if decide (Player.total_damage_taken player < 20)
      then ["Tactical Genius"] else []).

Definition victory_type (player : Player.t) : string :=
  if decide (3 ≤ length (achievements player))%nat then "complete"
  else "standard".

End Claimed.

(** ** Sample inputs *)

Module Samples.

(** [random.random()] gives 0.0 and every [_randbelow] gives 0. *)
Definition rng_low : Rng := mkRng (S754_zero false) (λ _, 0%nat).

(** [random.random()] gives 0.8 and every [_randbelow] gives 1. *)
Definition rng_high : Rng := mkRng PyFloat.c0_8 (λ _, 1%nat).

Definition hero : Player.t := Player.init "Hero".

(** The enemies that tests/test_models.py builds. *)
Definition brute : Enemy.t :=
  Enemy.init Enemy.Base "brute"
    (Enemy.mkTemplate (Some "Brute") (Some 40) (Some 8) None None (Some 3)
                      (Some ["power_strike"]) None None).

Definition golem : Enemy.t :=
  Enemy.create_enemy "steam_golem"
    (Enemy.mkTemplate (Some "G") (Some 30) None None None None None None None).

Definition sentinel : Enemy.t :=
  Enemy.create_enemy "clockwork_sentinel"
    (Enemy.mkTemplate (Some "S") (Some 50) None None None None None None None).


Definition duel : Combat.t :=
  Combat.mk hero brute ["player"; "enemy"] 0 [] true.

Definition golem_duel : Combat.t :=
  Combat.mk hero golem ["enemy"; "player"] 0 [] true.

(** The hero with a poison on its last turn. *)
Definition poisoned_duel : Combat.t :=
  Combat.set_player (Player.add_status_effect "poisoned" 1 hero) duel.

(** The hero with a poison that has three turns left. *)
Definition venom_duel : Combat.t :=
  Combat.set_player (Player.add_status_effect "poisoned" 3 hero) duel.

(** The hero with 1 focus, as in the focus scenario of the tests. *)
Definition weary_duel : Combat.t :=
  Combat.set_player (Player.set_focus 1 hero) duel.

(** Three crystals, two enemies defeated, 10 damage taken, no room
    visited. *)
Definition veteran : Player.t :=
  Player.mk "Hero" 100 90 5 5 10 5 6 [] ∅ 3 2 0 10 [].

(** Three crystals, the four required rooms, two enemies, no damage. *)
Definition champion : Player.t :=
  Player.mk "Hero" 100 100 5 5 10 5 6 []
            {[ "entrance"; "hallway"; "laboratory"; "armory" ]} 3 2 0 0 [].

Definition app_in_combat : App.t := App.mk hero (Some duel) (Some []).

(** The brute in a defensive stance with three turns left, about to
    act. *)
Definition guarded_duel : Combat.t :=
  Combat.mk hero
    (Enemy.set_status_effects [("defensive", 3)] brute)
    ["enemy"; "player"] 0 [] true.

(** The golem one turn before a steam release, with a cooldown
    running. *)
Definition charged_golem : Enemy.t :=
  Enemy.set_ability_cooldowns {[ "power_strike" := 2 ]}
    (Enemy.set_steam_pressure 2 golem).

(** The duel with the hero as slow as the brute. *)
Definition tied_duel : Combat.t :=
  Combat.set_player
    (Player.mk "Hero" 100 100 5 5 10 5 3 [] ∅ 0 0 0 0 []) duel.

End Samples.

(** ** What an encounter keeps: the vocabulary of the frame and
    invariant statements about [Combat.perform] and [Combat.run] *)

Module Frame.

(** The side a call on the engine is made for. *)
Definition requester (r : Combat.Request) : string :=
  match r with
  | Combat.ReqEnemyTurn => "enemy"
  | _ => "player"
  end.

(** What the call returns when it is not that side's turn. *)
Definition refusal (r : Combat.Request) : string :=
  match r with
  | Combat.ReqEnemyTurn => ""
  | _ => "❌ Not your turn!"
  end.

(** The attributes of the player that no call on the engine assigns. *)
Definition Player_fixed (p p' : Player.t) : Prop :=
  Player.name p' = Player.name p
  ∧ Player.max_hp p' = Player.max_hp p
  ∧ Player.max_focus p' = Player.max_focus p
  ∧ Player.attack p' = Player.attack p
  ∧ Player.defense p' = Player.defense p
  ∧ Player.speed p' = Player.speed p
  ∧ Player.visited_rooms p' = Player.visited_rooms p
  ∧ Player.aether_crystals p' = Player.aether_crystals p.

(** The attributes of the enemy that no call on the engine assigns. *)
Definition Enemy_fixed (e e' : Enemy.t) : Prop :=
  Enemy.kind e' = Enemy.kind e
  ∧ Enemy.id e' = Enemy.id e
  ∧ Enemy.name e' = Enemy.name e
  ∧ Enemy.max_hp e' = Enemy.max_hp e
  ∧ Enemy.attack e' = Enemy.attack e
  ∧ Enemy.defense e' = Enemy.defense e
  ∧ Enemy.speed e' = Enemy.speed e
  ∧ Enemy.max_focus e' = Enemy.max_focus e
  ∧ Enemy.abilities e' = Enemy.abilities e
  ∧ Enemy.ai_pattern e' = Enemy.ai_pattern e
  ∧ Enemy.loot e' = Enemy.loot e.

(** Hp and focus of both sides within their bounds. *)
Definition pools_in_bounds (s : Combat.t) : Prop :=
  0 ≤ Player.hp (Combat.player s) ≤ Player.max_hp (Combat.player s)
  ∧ 0 ≤ Player.focus (Combat.player s) ≤ Player.max_focus (Combat.player s)
  ∧ 0 ≤ Enemy.hp (Combat.enemy s) ≤ Enemy.max_hp (Combat.enemy s)
  ∧ 0 ≤ Enemy.focus (Combat.enemy s) ≤ Enemy.max_focus (Combat.enemy s).

(** No item of the inventory declares a negative heal or a negative
    focus restoration. *)
Definition items_restore (inv : list Item) : Prop :=
  ∀ item amount,
    item ∈ inv →
    (item_heal_amount item = Some amount → 0 ≤ amount)
    ∧ (item_focus_restore item = Some amount → 0 ≤ amount).

(** The other side of the encounter. *)
Definition opponent (side : string) : string :=
  if decide (side = "player") then "enemy" else "player".

(** The turn queue as [_setup_turn_order] leaves it. *)
Definition two_sided (s : Combat.t) : Prop :=
  Combat.turn_queue s = ["player"; "enemy"]
  ∨ Combat.turn_queue s = ["enemy"; "player"].

(** The attributes of the player that a tick of the status effects
    leaves alone, besides the fixed ones. *)
Definition Player_kept (p p' : Player.t) : Prop :=
  Player_fixed p p'
  ∧ Player.focus p' = Player.focus p
  ∧ Player.inventory p' = Player.inventory p
  ∧ Player.enemies_defeated p' = Player.enemies_defeated p
  ∧ Player.total_damage_dealt p' = Player.total_damage_dealt p.

(** What the resolution of a request, before the turn is ended, makes
    of the state [s]: the state [mid]. *)
Definition resolved (r : Combat.Request) (s mid : Combat.t) : Prop :=
  Combat.get_current_turn s = Some (requester r)
  ∧ Combat.combat_active mid = true
  ∧ Combat.current_turn mid = Combat.current_turn s
  ∧ Combat.turn_queue mid = Combat.turn_queue s
  ∧ (∃ line, Combat.combat_log mid = Combat.combat_log s ++ [line])
  ∧ Player_fixed (Combat.player s) (Combat.player mid)
  ∧ Enemy_fixed (Combat.enemy s) (Combat.enemy mid)
  ∧ Player.enemies_defeated (Combat.player mid)
    = Player.enemies_defeated (Combat.player s)
  ∧ Player.inventory (Combat.player mid)
    `sublist_of` Player.inventory (Combat.player s)
  ∧ Enemy.focus (Combat.enemy mid) ≤ Enemy.focus (Combat.enemy s)
  ∧ Player.total_damage_dealt (Combat.player s)
    ≤ Player.total_damage_dealt (Combat.player mid)
  ∧ (0 ≤ Enemy.hp (Combat.enemy s) ≤ Enemy.max_hp (Combat.enemy s) →
     0 ≤ Enemy.hp (Combat.enemy mid) ≤ Enemy.max_hp (Combat.enemy mid)
     ∧ Enemy.hp (Combat.enemy s) - Enemy.hp (Combat.enemy mid)
       ≤ Player.total_damage_dealt (Combat.player mid)
         - Player.total_damage_dealt (Combat.player s))
  ∧ (pools_in_bounds s →
     items_restore (Player.inventory (Combat.player s)) →
     pools_in_bounds mid)
  ∧ (Player.inventory (Combat.player mid)
     = Player.inventory (Combat.player s)
     ∨ ∃ name item,
         r = Combat.ReqItem name
         ∧ Combat.find_consumable name (Player.inventory (Combat.player s))
           = Some item
         ∧ item_stackable item = false).

End Frame.

(** ** More states for the examples *)

Module Scenarios.

(** A tonic that heals 30 and is used up, and a key of the same name. *)
Definition tonic : Item :=
  mkItem (Some "Tonic") (Some "consumable") false (Some 30) None.

Definition tonic_key : Item :=
  mkItem (Some "Tonic") (Some "key_item") false None None.

(** The duel after its conclusion. *)
Definition finished_duel : Combat.t :=
  Combat.set_combat_active false Samples.duel.

(** The hero, hurt, with the key picked up before the tonic. *)
Definition supplied_duel : Combat.t :=
  Combat.set_player
    (Player.set_inventory [tonic_key; tonic]
       (Player.set_hp 50 Samples.hero)) Samples.duel.

(** The brute with 5 hp left. *)
Definition last_stand : Combat.t :=
  Combat.set_enemy (Enemy.set_hp 5 Samples.brute) Samples.duel.

(** The duel as [CombatEngine.__init__] leaves it, two lines logged. *)
Definition begun_duel : Combat.t :=
  Combat.mk Samples.hero Samples.brute ["player"; "enemy"] 0
    ["Turn order: player → enemy"; "⚔️ Combat begins! Hero vs Brute"] true.

(** An attack, the adversary's turn, an ability. *)
Definition opening : list (Rng * Combat.Request) :=
  [(Samples.rng_high, Combat.ReqAttack);
   (Samples.rng_high, Combat.ReqEnemyTurn);
   (Samples.rng_high, Combat.ReqAbility "power_strike")].



End Scenarios.

(** ** Python values of the item data and of the dictionaries built
    from them *)

(** A JSON scalar. *)
Inductive Scalar :=
| SNone
| SBool (b : bool)
| SInt (n : Z)
| SStr (s : string).

#[global] Instance Scalar_eq_dec : EqDecision Scalar.
Proof. solve_decision. Defined.

(** A value of an item dictionary: a scalar, or a dictionary of
    scalars such as ["stats"].  Numbers are integers, as in the item
    data. *)
Inductive Value :=
| VScalar (x : Scalar)
| VDict (d : gmap string Scalar).

#[global] Instance Value_eq_dec : EqDecision Value.
Proof. solve_decision. Defined.

(** A dictionary with string keys, such as the one [Item.to_dict]
    returns and the inventory holds. *)
Abbreviation PyDict := (gmap string Value).

Definition vstr (s : string) : Value := VScalar (SStr s).
Definition vint (n : Z) : Value := VScalar (SInt n).
Definition vbool (b : bool) : Value := VScalar (SBool b).

(** Truth value of a value, as [if x:] takes it. *)
Definition truthy (v : Value) : bool :=
  match v with
  | VScalar SNone => false
  | VScalar (SBool b) => b
  | VScalar (SInt n) => bool_decide (n ≠ 0)
  | VScalar (SStr s) => bool_decide (s ≠ "")
  | VDict d => bool_decide (d ≠ ∅)
  end.

(** [if d:] for an attribute that holds [None] or a dictionary. *)
Definition truthy_dict (d : option PyDict) : bool :=
  match d with
  | Some d => bool_decide (d ≠ ∅)
  | None => false
  end.

(** The integer an arithmetic operation takes a scalar for;
    [TypeError] for [None] and for a string. *)
Definition scalar_int (x : Scalar) : option Z :=
  match x with
  | SInt n => Some n
  | SBool b => Some (if b then 1 else 0)
  | SNone | SStr _ => None
  end.

(** [c.lower()] on an ASCII letter; other characters are kept. *)
Definition lower_ascii (c : Ascii.ascii) : Ascii.ascii :=
  let n := Ascii.N_of_ascii c in
  if ((65 <=? n) && (n <=? 90))%N then Ascii.ascii_of_N (n + 32) else c.

(** [s.lower()], exact on ASCII text; in UTF-8 text the characters
    outside ASCII keep their bytes. *)
Fixpoint py_lower (s : string) : string :=
  match s with
  | EmptyString => EmptyString
  | String c s' => String (lower_ascii c) (py_lower s')
  end.

(** [sub in s] on strings. *)
Fixpoint py_in (sub s : string) : bool :=
  String.prefix sub s
  || match s with
     | EmptyString => false
     | String _ s' => py_in sub s'
     end.

(** [l.remove(x)]: the first occurrence goes; [ValueError] when there
    is none. *)
Fixpoint py_remove (x : string) (l : list string) : option (list string) :=
  match l with
  | [] => None
  | y :: l' =>
      if decide (y = x) then Some l' else (y ::.) <$> py_remove x l'
  end.

(** [d.get("stats", {}).get(key, default)]; [AttributeError] when
    ["stats"] is not a dictionary. *)
Definition stats_get (d : PyDict) (key : string) (default' : Scalar)
  : option Scalar :=
  match d !! "stats" with
  | None => Some default'
  | Some (VDict stats) => Some (default default' (stats !! key))
  | Some (VScalar _) => None
  end.

(** [key in stats], for [stats = d.get("stats", {})]: membership in a
    dictionary, the substring test on a string, [TypeError] on the other
    scalars. *)
Definition stats_has (stats : Value) (key : string) : option bool :=
  match stats with
  | VDict stats => Some (bool_decide (is_Some (stats !! key)))
  | VScalar (SStr s) => Some (py_in key s)
  | VScalar _ => None
  end.

(** [stats[key]] as a number, after [key in stats] held: [TypeError]
    on a string, and on a value that is not a number. *)
Definition stats_item (stats : Value) (key : string) : option Z :=
  match stats with
  | VDict stats => x ← stats !! key; scalar_int x
  | VScalar _ => None
  end.

(** ** models/item.py *)

Module Items.

(** The classes of the module: [Item] and its four subclasses. *)
Inductive Class := Base | Weapon | Consumable | KeyItem | Accessory.

#[global] Instance Class_eq_dec : EqDecision Class.
Proof. solve_decision. Defined.

(** The attributes that [Item.__init__] sets.  The attributes the
    subclasses add ([damage], [heal_power], [is_victory_item], [slot]
    and the like) are read by [KeyItem.use] only and are left out. *)
Record t := mk {
  cls : Class;
  id : string;
  name : Value;
  description : Value;
  type : Value;
  stats : Value;
  value : Value;
  stackable : Value;
  usable : bool;
  icon : Value;
  rarity : Value
}.

Definition set_stackable (v : Value) (it : t) : t :=
  mk (cls it) (id it) (name it) (description it) (type it) (stats it)
     (value it) v (usable it) (icon it) (rarity it).

(** [Item.__init__] *)
Definition init (c : Class) (item_id : string) (data : PyDict) : t :=
  let type := default (vstr "misc") (data !! "type") in
  mk c item_id
     (default (vstr "Unknown Item") (data !! "name"))
     (default (vstr "A mysterious object.") (data !! "description"))
     type
     (default (VDict ∅) (data !! "stats"))
     (default (vint 0) (data !! "value"))
     (default (vbool false) (data !! "stackable"))
     (bool_decide (type ∈ [vstr "consumable"; vstr "weapon";
                           vstr "accessory"]))
     (default (vstr "default_item.png") (data !! "icon"))
     (default (vstr "common") (data !! "rarity")).

(** [self.stats.get(...)] in the constructor of a subclass:
    [AttributeError] when the stats are not a dictionary. *)
Definition reads_stats (it : t) : option t :=
  match stats it with
  | VDict _ => Some it
  | VScalar _ => None
  end.

(** [create_item]: the constructor of the subclass for the type.
    [Consumable] overwrites [stackable]. *)
Definition create_item (item_id : string) (data : PyDict) : option t :=
  let item_type := default (vstr "misc") (data !! "type") in
  if decide (item_type = vstr "weapon") then
    reads_stats (init Weapon item_id data)
  else if decide (item_type = vstr "consumable") then
    it ← reads_stats (init Consumable item_id data);
    Some (set_stackable (vbool true) it)
  else if decide (item_type = vstr "key_item") then
    reads_stats (init KeyItem item_id data)
  else if decide (item_type = vstr "accessory") then
    Some (init Accessory item_id data)
  else Some (init Base item_id data).

Definition to_dict (it : t) : PyDict :=
  list_to_map
    [("id", vstr (id it)); ("name", name it);
     ("description", description it); ("type", type it);
     ("stats", stats it); ("value", value it);
     ("stackable", stackable it); ("icon", icon it);
     ("rarity", rarity it)].

(** The dictionary [d] as the combat engine reads it, when it holds an
    item of the inventory: [d.get("name")] and [d.get("type")] compared
    with strings, the truth value of [d.get("stackable", False)], and
    the two stats that [_use_consumable_item] passes to [heal] and
    [restore_focus].  Undefined when these stats are not numbers or
    ["stats"] is not a dictionary, where the engine raises. *)
Definition as_item (d : PyDict) : option Item :=
  stats ← match d !! "stats" with
          | None => Some ∅
          | Some (VDict stats) => Some stats
          | Some (VScalar _) => None
          end;
  heal_amount ← match stats !! "heal_amount" with
                | None => Some None
                | Some x => Some <$> scalar_int x
                end;
  focus_restore ← match stats !! "focus_restore" with
                  | None => Some None
                  | Some x => Some <$> scalar_int x
                  end;
  Some (mkItem
          (match d !! "name" with
           | Some (VScalar (SStr n)) => Some n
           | _ => None
           end)
          (match d !! "type" with
           | Some (VScalar (SStr n)) => Some n
           | _ => None
           end)
          (truthy (default (vbool false) (d !! "stackable")))
          heal_amount focus_restore).

End Items.

(** ** engine/item_manager.py *)

Module ItemManager.

(** [item_data] is what [load_items()] returned: for every item id
    the JSON object that describes it. *)
Record t := mk {
  item_data : gmap string PyDict;
  room_items : gmap string (list string)
}.

(** [_setup_room_items] *)
Definition _setup_room_items (m : t) : t :=
  mk (item_data m)
     (list_to_map
        [("entrance", ["healing_tonic"]);
         ("hallway", []);
         ("laboratory", ["mana_potion"; "focus_crystal"; "aether_crystal"]);
         ("armory", ["steam_blade"; "repair_kit"; "steam_gauntlets";
                     "aether_crystal"]);
         ("gate_chamber", ["aether_crystal"])]).

(** [ItemManager.__init__] *)
Definition init (item_data : gmap string PyDict) : t :=
  _setup_room_items (mk item_data ∅).

(** [get_item]: [None] for an id without data; the outer [option] is
    for the exception of the constructor. *)
Definition get_item (item_id : string) (m : t) : option (option Items.t) :=
  match item_data m !! item_id with
  | None => Some None
  | Some data => Some <$> Items.create_item item_id data
  end.

Definition get_room_items (room_id : string) (m : t) : list string :=
  default [] (room_items m !! room_id).

(** [take_item_from_room]: the item returned, and the manager after. *)
Definition take_item_from_room (room_id item_id : string) (m : t)
  : option (option Items.t * t) :=
  match room_items m !! room_id with
  | None => Some (None, m)
  | Some ids =>
      if decide (item_id ∈ ids) then
        ids' ← py_remove item_id ids;
        let m := mk (item_data m) (<[ room_id := ids' ]> (room_items m)) in
        item ← get_item item_id m;
        Some (item, m)
      else Some (None, m)
  end.

Definition add_item_to_room (room_id item_id : string) (m : t) : t :=
  let m :=
    if decide (room_items m !! room_id = None) then
      mk (item_data m) (<[ room_id := [] ]> (room_items m))
    else m in
  let ids := default [] (room_items m !! room_id) in
  if decide (item_id ∉ ids) then
    mk (item_data m) (<[ room_id := ids ++ [item_id] ]> (room_items m))
  else m.

(** [get_item_names_in_room]: the names of the items that have data. *)
Definition get_item_names_in_room (room_id : string) (m : t)
  : option (list Value) :=
  items ← mapM (λ item_id, get_item item_id m) (get_room_items room_id m);
  Some (omap (fmap Items.name) items).

End ItemManager.

(** ** models/player.py: the whole object, with the equipment, the
    rooms and the save data *)

Module PlayerObject.

Record t := mk {
  name : string;
  max_hp : Z;
  hp : Z;
  max_focus : Z;
  focus : Z;
  base_attack : Z;
  base_defense : Z;
  base_speed : Z;
  attack : Z;
  defense : Z;
  speed : Z;
  inventory : list PyDict;
  equipped_weapon : option PyDict;      (* [None], or the weapon *)
  equipped_accessory : option PyDict;
  current_room : string;
  visited_rooms : gset string;
  aether_crystals : Z;
  enemies_defeated : Z;
  total_damage_dealt : Z;
  total_damage_taken : Z;
  status_effects : Dict.t
}.

Definition set_max_focus (v : Z) (p : t) : t :=
  mk (name p) (max_hp p) (hp p) v (focus p) (base_attack p)
     (base_defense p) (base_speed p) (attack p) (defense p) (speed p)
     (inventory p) (equipped_weapon p) (equipped_accessory p)
     (current_room p) (visited_rooms p) (aether_crystals p)
     (enemies_defeated p) (total_damage_dealt p) (total_damage_taken p)
     (status_effects p).

Definition set_focus (v : Z) (p : t) : t :=
  mk (name p) (max_hp p) (hp p) (max_focus p) v (base_attack p)
     (base_defense p) (base_speed p) (attack p) (defense p) (speed p)
     (inventory p) (equipped_weapon p) (equipped_accessory p)
     (current_room p) (visited_rooms p) (aether_crystals p)
     (enemies_defeated p) (total_damage_dealt p) (total_damage_taken p)
     (status_effects p).

Definition set_attack (v : Z) (p : t) : t :=
  mk (name p) (max_hp p) (hp p) (max_focus p) (focus p) (base_attack p)
     (base_defense p) (base_speed p) v (defense p) (speed p)
     (inventory p) (equipped_weapon p) (equipped_accessory p)
     (current_room p) (visited_rooms p) (aether_crystals p)
     (enemies_defeated p) (total_damage_dealt p) (total_damage_taken p)
     (status_effects p).

Definition set_defense (v : Z) (p : t) : t :=
  mk (name p) (max_hp p) (hp p) (max_focus p) (focus p) (base_attack p)
     (base_defense p) (base_speed p) (attack p) v (speed p)
     (inventory p) (equipped_weapon p) (equipped_accessory p)
     (current_room p) (visited_rooms p) (aether_crystals p)
     (enemies_defeated p) (total_damage_dealt p) (total_damage_taken p)
     (status_effects p).

Definition set_speed (v : Z) (p : t) : t :=
  mk (name p) (max_hp p) (hp p) (max_focus p) (focus p) (base_attack p)
     (base_defense p) (base_speed p) (attack p) (defense p) v
     (inventory p) (equipped_weapon p) (equipped_accessory p)
     (current_room p) (visited_rooms p) (aether_crystals p)
     (enemies_defeated p) (total_damage_dealt p) (total_damage_taken p)
     (status_effects p).

Definition set_inventory (v : list PyDict) (p : t) : t :=
  mk (name p) (max_hp p) (hp p) (max_focus p) (focus p) (base_attack p)
     (base_defense p) (base_speed p) (attack p) (defense p) (speed p)
     v (equipped_weapon p) (equipped_accessory p)
     (current_room p) (visited_rooms p) (aether_crystals p)
     (enemies_defeated p) (total_damage_dealt p) (total_damage_taken p)
     (status_effects p).

Definition set_equipped_weapon (v : option PyDict) (p : t) : t :=
  mk (name p) (max_hp p) (hp p) (max_focus p) (focus p) (base_attack p)
     (base_defense p) (base_speed p) (attack p) (defense p) (speed p)
     (inventory p) v (equipped_accessory p)
     (current_room p) (visited_rooms p) (aether_crystals p)
     (enemies_defeated p) (total_damage_dealt p) (total_damage_taken p)
     (status_effects p).

Definition set_equipped_accessory (v : option PyDict) (p : t) : t :=
  mk (name p) (max_hp p) (hp p) (max_focus p) (focus p) (base_attack p)
     (base_defense p) (base_speed p) (attack p) (defense p) (speed p)
     (inventory p) (equipped_weapon p) v
     (current_room p) (visited_rooms p) (aether_crystals p)
     (enemies_defeated p) (total_damage_dealt p) (total_damage_taken p)
     (status_effects p).

Definition set_aether_crystals (v : Z) (p : t) : t :=
  mk (name p) (max_hp p) (hp p) (max_focus p) (focus p) (base_attack p)
     (base_defense p) (base_speed p) (attack p) (defense p) (speed p)
     (inventory p) (equipped_weapon p) (equipped_accessory p)
     (current_room p) (visited_rooms p) v
     (enemies_defeated p) (total_damage_dealt p) (total_damage_taken p)
     (status_effects p).

(** [Player.__init__] *)
Definition init (name : string) : t :=
  mk name 100 100 5 5 10 5 6 10 5 6 [] None None "entrance" ∅ 0 0 0 0 [].

(** [add_item]; [AttributeError] when the name of a key item is not a
    string. *)
Definition add_item (item : PyDict) (p : t) : option t :=
  p ← (if decide (item !! "type" = Some (vstr "key_item")) then
         match default (vstr "") (item !! "name") with
         | VScalar (SStr n) =>
             if py_in "aether crystal" (py_lower n) then
               Some (set_aether_crystals (aether_crystals p + 1) p)
             else Some p
         | _ => None
         end
       else Some p);
  Some (set_inventory (inventory p ++ [item]) p).

(** [remove_item]: the first item of that name is popped and
    returned. *)
Fixpoint pop_first (item_name : string) (inv : list PyDict)
  : option PyDict * list PyDict :=
  match inv with
  | [] => (None, [])
  | item :: inv' =>
      if decide (item !! "name" = Some (vstr item_name)) then
        (Some item, inv')
      else
        let '(removed, rest) := pop_first item_name inv' in
        (removed, item :: rest)
  end.

Definition remove_item (item_name : string) (p : t) : option PyDict * t :=
  let '(removed, inv) := pop_first item_name (inventory p) in
  (removed, set_inventory inv p).

Definition unequip_weapon (p : t) : option PyDict * t :=
  if negb (truthy_dict (equipped_weapon p)) then (None, p)
  else
    let old_weapon := equipped_weapon p in
    let p := set_equipped_weapon None p in
    let p := set_attack (base_attack p) p in
    (old_weapon, p).

(** [equip_weapon]; the exceptions are those of [add_item], of
    [.get] on stats that are not a dictionary, and of the addition of a
    bonus that is not a number. *)
Definition equip_weapon (weapon : PyDict) (p : t) : option (bool * t) :=
  if decide (weapon !! "type" ≠ Some (vstr "weapon")) then Some (false, p)
  else
    p ← (if truthy_dict (equipped_weapon p) then
           let '(old_weapon, p) := unequip_weapon p in
           if truthy_dict old_weapon then
             add_item (default ∅ old_weapon) p
           else Some p
         else Some p);
    let p := set_equipped_weapon (Some weapon) p in
    attack_bonus ← stats_get weapon "attack_bonus" (SInt 0);
    attack_bonus ← scalar_int attack_bonus;
    Some (true, set_attack (base_attack p + attack_bonus) p).

Definition unequip_accessory (p : t) : option PyDict * t :=
  if negb (truthy_dict (equipped_accessory p)) then (None, p)
  else
    let old_accessory := equipped_accessory p in
    let p := set_equipped_accessory None p in
    let p := set_defense (base_defense p) p in
    let p := set_max_focus 5 p in
    let p := set_speed (base_speed p) p in
    (old_accessory, p).

Definition equip_accessory (accessory : PyDict) (p : t)
  : option (bool * t) :=
  if decide (accessory !! "type" ≠ Some (vstr "accessory")) then
    Some (false, p)
  else
    p ← (if truthy_dict (equipped_accessory p) then
           let '(old_accessory, p) := unequip_accessory p in
           if truthy_dict old_accessory then
             add_item (default ∅ old_accessory) p
           else Some p
         else Some p);
    let p := set_equipped_accessory (Some accessory) p in
    let stats := default (VDict ∅) (accessory !! "stats") in
    has ← stats_has stats "defense_bonus";
    p ← (if (has : bool) then
           bonus ← stats_item stats "defense_bonus";
           Some (set_defense (base_defense p + bonus) p)
         else Some p);
    has ← stats_has stats "focus_bonus";
    p ← (if (has : bool) then
           bonus ← stats_item stats "focus_bonus";
           let p := set_max_focus (max_focus p + bonus) p in
           Some (set_focus (Z.min (focus p + bonus) (max_focus p)) p)
         else Some p);
    has ← stats_has stats "speed_bonus";
    p ← (if (has : bool) then
           bonus ← stats_item stats "speed_bonus";
           Some (set_speed (base_speed p + bonus) p)
         else Some p);
    Some (true, p).

Definition visit_room (room_id : string) (p : t) : t :=
  mk (name p) (max_hp p) (hp p) (max_focus p) (focus p) (base_attack p)
     (base_defense p) (base_speed p) (attack p) (defense p) (speed p)
     (inventory p) (equipped_weapon p) (equipped_accessory p)
     room_id ({[ room_id ]} ∪ visited_rooms p) (aether_crystals p)
     (enemies_defeated p) (total_damage_dealt p) (total_damage_taken p)
     (status_effects p).

(** The dictionary of [to_dict] after its way through the save file:
    what [json.load] gives [from_dict].  A key that is missing, and for
    the two equipment slots also a [null], is [None]. *)
Record SaveData := mkSaveData {
  s_name : option string;
  s_hp : option Z;
  s_max_hp : option Z;
  s_focus : option Z;
  s_max_focus : option Z;
  s_base_attack : option Z;
  s_base_defense : option Z;
  s_base_speed : option Z;
  s_inventory : option (list PyDict);
  s_equipped_weapon : option PyDict;
  s_equipped_accessory : option PyDict;
  s_current_room : option string;
  s_visited_rooms : option (list string);
  s_aether_crystals : option Z;
  s_enemies_defeated : option Z;
  s_total_damage_dealt : option Z;
  s_total_damage_taken : option Z;
  s_status_effects : option Dict.t
}.

(** [to_dict]; [list(self.visited_rooms)] lists the set in an order
    of its own. *)
Definition to_dict (p : t) : SaveData :=
  mkSaveData (Some (name p)) (Some (hp p)) (Some (max_hp p))
    (Some (focus p)) (Some (max_focus p)) (Some (base_attack p))
    (Some (base_defense p)) (Some (base_speed p)) (Some (inventory p))
    (equipped_weapon p) (equipped_accessory p) (Some (current_room p))
    (Some (elements (visited_rooms p))) (Some (aether_crystals p))
    (Some (enemies_defeated p)) (Some (total_damage_dealt p))
    (Some (total_damage_taken p)) (Some (status_effects p)).

(** [from_dict] *)
Definition from_dict (data : SaveData) : option t :=
  let base_attack := default 10 (s_base_attack data) in
  let base_defense := default 5 (s_base_defense data) in
  let base_speed := default 6 (s_base_speed data) in
  let player :=
    mk (default "Aether Warden" (s_name data))
       (default 100 (s_max_hp data)) (default 100 (s_hp data))
       (default 5 (s_max_focus data)) (default 5 (s_focus data))
       base_attack base_defense base_speed
       base_attack base_defense base_speed
       (default [] (s_inventory data))
       (s_equipped_weapon data) (s_equipped_accessory data)
       (default "entrance" (s_current_room data))
       (list_to_set (default [] (s_visited_rooms data)))
       (default 0 (s_aether_crystals data))
       (default 0 (s_enemies_defeated data))
       (default 0 (s_total_damage_dealt data))
       (default 0 (s_total_damage_taken data))
       (default [] (s_status_effects data)) in
  player ← (if truthy_dict (equipped_weapon player) then
              '(_, player) ← equip_weapon
                                (default ∅ (equipped_weapon player)) player;
              Some player
            else Some player);
  player ← (if truthy_dict (equipped_accessory player) then
              '(_, player) ← equip_accessory
                                (default ∅ (equipped_accessory player))
                                player;
              Some player
            else Some player);
  Some player.

End PlayerObject.

(** ** Items of the inventory that came from the item factory *)

Module Factory.

(** The entry [x] of the inventory is what the combat engine reads in
    the dictionary of an item that [create_item] built. *)
Definition made (x : Item) : Prop :=
  ∃ item_id data it,
    Items.create_item item_id data = Some it
    ∧ Items.as_item (Items.to_dict it) = Some x.

End Factory.

(** ** Items and players for the examples *)

Module Stock.

(** The weapon and the accessory of tests/test_models.py. *)
Definition steam_blade : PyDict :=
  {[ "name" := vstr "Steam Blade"; "type" := vstr "weapon";
     "stats" := VDict {[ "attack_bonus" := SInt 5 ]} ]}.

Definition rusty_blade : PyDict :=
  {[ "name" := vstr "Rusty Blade"; "type" := vstr "weapon";
     "stats" := VDict {[ "attack_bonus" := SInt 2 ]} ]}.

Definition bronze_talisman : PyDict :=
  {[ "name" := vstr "Bronze Talisman"; "type" := vstr "accessory";
     "stats" := VDict {[ "defense_bonus" := SInt 3; "focus_bonus" := SInt 1;
                         "speed_bonus" := SInt 2 ]} ]}.

Definition aether_crystal : PyDict :=
  {[ "name" := vstr "Aether Crystal"; "type" := vstr "key_item" ]}.

Definition equipper : PlayerObject.t := PlayerObject.init "Equipper".

(** The equipper with the rusty blade in hand. *)
Definition armed : PlayerObject.t :=
  PlayerObject.set_attack 12
    (PlayerObject.set_equipped_weapon (Some rusty_blade) equipper).

(** The equipper wearing the talisman. *)
Definition adorned : PlayerObject.t :=
  PlayerObject.set_speed 8
    (PlayerObject.set_focus 6
       (PlayerObject.set_max_focus 6
          (PlayerObject.set_defense 8
             (PlayerObject.set_equipped_accessory (Some bronze_talisman)
                equipper)))).

(** Item data with a tonic that does not declare itself stackable. *)
Definition tonic_data : PyDict :=
  {[ "name" := vstr "Healing Tonic"; "type" := vstr "consumable";
     "stats" := VDict {[ "heal_amount" := SInt 30 ]};
     "stackable" := vbool false ]}.

Definition manager : ItemManager.t :=
  ItemManager.init {[ "healing_tonic" := tonic_data ]}.

(** The tonic as the combat engine reads it in the inventory. *)
Definition healing_tonic : Item :=
  mkItem (Some "Healing Tonic") (Some "consumable") true (Some 30) None.

(** The hurt hero holding the tonic. *)
Definition tonic_duel : Combat.t :=
  Combat.set_player
    (Player.set_inventory [healing_tonic]
       (Player.set_hp 50 Samples.hero)) Samples.duel.

(** The tonic, the adversary's turn, the tonic again. *)
Definition two_tonics : list (Rng * Combat.Request) :=
  [(Samples.rng_high, Combat.ReqItem "Healing Tonic");
   (Samples.rng_high, Combat.ReqEnemyTurn);
   (Samples.rng_high, Combat.ReqItem "Healing Tonic")].

(** A player in mid game: hurt, poisoned, two rooms seen, a crystal
    and a tonic in the bag, the base attack trained to 12. *)
Definition traveller : PlayerObject.t :=
  PlayerObject.mk "Saver" 120 42 5 3 12 6 7 12 6 7
    [tonic_data; aether_crystal] None None "hallway"
    {[ "entrance"; "hallway" ]} 1 2 57 33 [("poisoned", 2)].

(** A manager with data for the three items of the laboratory. *)
Definition stocked : ItemManager.t :=
  ItemManager.init
    {[ "mana_potion" :=
         {[ "name" := vstr "Mana Potion"; "type" := vstr "consumable";
            "stats" := VDict {[ "focus_restore" := SInt 3 ]} ]};
       "focus_crystal" :=
         {[ "name" := vstr "Focus Crystal"; "type" := vstr "accessory";
            "stats" := VDict {[ "focus_bonus" := SInt 2 ]} ]};
       "aether_crystal" := aether_crystal ]}.

End Stock.

(** * Verification *)

(** ** Dictionaries of counters *)

Section DictFacts.

Implicit Types (d : Dict.t) (k : string) (v n : Z).

Lemma Dict_get_None k d : Dict.get k d = None ↔ k ∉ Dict.keys d.
Proof.
  induction d as [|[k' v] d IH]; simpl.
  - split; [intros _; apply not_elem_of_nil | done].
  - rewrite not_elem_of_cons. case_decide; naive_solver.
Qed.

Lemma Dict_set_app k v d1 d2 :
  k ∉ Dict.keys d1 → Dict.set k v (d1 ++ d2) = d1 ++ Dict.set k v d2.
Proof.
  induction d1 as [|[k' v'] d1 IH]; simpl; [done|].
  rewrite not_elem_of_cons. intros [? ?]. case_decide; [done|].
  by rewrite IH.
Qed.

Lemma Dict_keys_set k v d :
  Dict.keys (Dict.set k v d)
  = if decide (k ∈ Dict.keys d) then Dict.keys d else Dict.keys d ++ [k].
Proof.
  unfold Dict.keys. induction d as [|[k' v'] d IH]; [done|]. csimpl.
  destruct (decide (k = k')) as [->|E]; csimpl.
  - by rewrite decide_True by left.
  - rewrite IH. destruct (decide (k ∈ d.*1)).
    + by rewrite decide_True by by right.
    + rewrite decide_False; [done|]. rewrite elem_of_cons. naive_solver.
Qed.

Lemma Dict_wf_set k v d : Dict.wf d → Dict.wf (Dict.set k v d).
Proof.
  unfold Dict.wf. rewrite Dict_keys_set. case_decide; [done|].
  intros Hd. apply NoDup_app. split_and!; [done| |apply NoDup_singleton].
  intros x Hx ->%list_elem_of_singleton. done.
Qed.

Lemma Dict_get_set k k' v d :
  Dict.get k' (Dict.set k v d)
  = if decide (k' = k) then Some v else Dict.get k' d.
Proof.
  induction d as [|[k0 v0] d IH]; simpl.
  - repeat case_decide; congruence.
  - repeat (case_decide; simpl); try congruence.
Qed.

Lemma Dict_keys_ticked k d : k ∈ Dict.keys (Dict.ticked d) → k ∈ Dict.keys d.
Proof.
  unfold Dict.keys, Dict.ticked, Dict.decremented. intros Hin.
  apply list_elem_of_fmap in Hin as [[k1 v1] [-> Hin]].
  apply list_elem_of_filter in Hin as [_ Hin].
  apply list_elem_of_fmap in Hin as [[k2 v2] [[= -> ->] Hin]].
  apply list_elem_of_fmap. by exists (k2, v2).
Qed.

Lemma Dict_ticked_cons k v d :
  Dict.ticked ((k, v) :: d)
  = if decide (1 < v) then (k, v - 1) :: Dict.ticked d else Dict.ticked d.
Proof.
  unfold Dict.ticked, Dict.decremented. rewrite fmap_cons, filter_cons. simpl.
  destruct (decide (0 < v - 1)), (decide (1 < v)); done || lia.
Qed.

Lemma Dict_wf_ticked d : Dict.wf d → Dict.wf (Dict.ticked d).
Proof.
  unfold Dict.wf. induction d as [|[k v] d IH]; [done|].
  rewrite Dict_ticked_cons. unfold Dict.keys at 1. simpl.
  intros [Hk Hd]%NoDup_cons. case_decide; [|by apply IH].
  unfold Dict.keys. simpl. apply NoDup_cons. split; [|by apply IH].
  intros Hin. by apply Hk, Dict_keys_ticked.
Qed.

(** A counter above 1 is one lower after a tick; a counter at 1 (or
    below) is gone. *)
Lemma Dict_get_ticked k d :
  Dict.wf d →
  Dict.get k (Dict.ticked d)
  = n ← Dict.get k d; if decide (1 < n) then Some (n - 1) else None.
Proof.
  unfold Dict.wf. induction d as [|[k' v] d IH]; [done|].
  rewrite Dict_ticked_cons. unfold Dict.keys. simpl.
  intros [Hk Hd]%NoDup_cons.
  destruct (decide (k = k')) as [->|Hne]; simpl.
  - destruct (decide (1 < v)); simpl; [by rewrite decide_True by done|].
    apply Dict_get_None. intros Hin. by apply Hk, Dict_keys_ticked.
  - destruct (decide (1 < v)); simpl; [rewrite decide_False by done|];
      by apply IH.
Qed.

End DictFacts.

Lemma Dict_get_elem_of (k : string) (v : Z) (d : Dict.t) :
  Dict.wf d → (k, v) ∈ d → Dict.get k d = Some v.
Proof.
  unfold Dict.wf, Dict.keys. induction d as [|[k' v'] d IH]; csimpl.
  - by intros _ ?%elem_of_nil.
  - intros [Hk Hd]%NoDup_cons Hin.
    apply elem_of_cons in Hin as [[= <- <-]|Hin].
    + by rewrite decide_True.
    + rewrite decide_False; [by apply IH|].
      intros ->. apply Hk. apply list_elem_of_fmap. by exists (k', v).
Qed.


(** ** One tick of the status effects *)

Section TickFacts.

Implicit Types (d : Dict.t) (k : string) (v n : Z).

Lemma Dict_keys_decremented d : Dict.keys (Dict.decremented d) = Dict.keys d.
Proof.
  unfold Dict.keys, Dict.decremented. rewrite <-list_fmap_compose.
  by apply list_fmap_ext; intros ? [] ?.
Qed.

Lemma Enemy_fold_update_one d1 d2 ex :
  Dict.wf (d1 ++ d2) →
  foldl Enemy.update_one (Dict.decremented d1 ++ d2, ex) d2
  = (Dict.decremented (d1 ++ d2), ex ++ Dict.expiring d2).
Proof.
  revert d1 ex. induction d2 as [|[k v] d2 IH]; intros d1 ex Hwf.
  - simpl. by rewrite !app_nil_r.
  - assert (k ∉ Dict.keys (Dict.decremented d1)) as Hk.
    { unfold Dict.wf, Dict.keys in Hwf. rewrite fmap_app in Hwf.
      apply NoDup_app in Hwf as (_ & Hd & _).
      rewrite Dict_keys_decremented.
      intros Hin. apply (Hd k); [done|]. rewrite fmap_cons. set_solver. }
    cbn [foldl Enemy.update_one]. rewrite Dict_set_app by done.
    cbn [Dict.set]. rewrite (decide_True (P:=k = k)) by done.
    replace (Dict.decremented d1 ++ (k, v - 1) :: d2)
      with (Dict.decremented (d1 ++ [(k, v)]) ++ d2).
    2:{ unfold Dict.decremented. rewrite fmap_app. csimpl.
        by rewrite <-app_assoc. }
    unfold Dict.expiring. rewrite filter_cons. cbn [snd].
    destruct (decide (v - 1 ≤ 0)).
    + rewrite IH by by rewrite <-app_assoc.
      csimpl. by rewrite <-!app_assoc.
    + rewrite IH by by rewrite <-app_assoc. by rewrite <-!app_assoc.
Qed.

Lemma filter_ext_elem_of {A} (P Q : A → Prop)
    `{!∀ x, Decision (P x), !∀ x, Decision (Q x)} (l : list A) :
  (∀ x, x ∈ l → P x ↔ Q x) → filter P l = filter Q l.
Proof.
  induction l as [|x l IH]; intros HPQ; [done|].
  rewrite !filter_cons.
  assert (filter P l = filter Q l) as ->.
  { apply IH. intros y Hy. apply HPQ. by right. }
  destruct (decide (P x)) as [HP|HP], (decide (Q x)) as [HQ|HQ];
    try done; exfalso; apply (HPQ x) in HP || apply (HPQ x) in HQ;
    done || by left.
Qed.

Lemma foldl_del d ks :
  foldl (λ d k, Dict.del k d) d ks = filter (λ kv, kv.1 ∉ ks) d.
Proof.
  revert d. induction ks as [|k ks IH]; intros d; simpl.
  - induction d as [|kv d IHd]; [done|].
    rewrite filter_cons_True by apply not_elem_of_nil. by rewrite <-IHd.
  - rewrite IH. unfold Dict.del. rewrite list_filter_filter.
    apply list_filter_iff. intros [k' v']. rewrite not_elem_of_cons.
    simpl. tauto.
Qed.

Lemma Dict_wf_functional d k v v' :
  Dict.wf d → (k, v) ∈ d → (k, v') ∈ d → v = v'.
Proof.
  unfold Dict.wf, Dict.keys. induction d as [|[k0 v0] d IH]; csimpl.
  - by intros _ ?%elem_of_nil.
  - intros [Hk Hd]%NoDup_cons H1 H2.
    apply elem_of_cons in H1 as [[= <- <-]|H1];
      apply elem_of_cons in H2 as [[= ?]|H2]; [done| | |by eapply IH].
    + destruct Hk. apply list_elem_of_fmap. by exists (k, v').
    + subst. destruct Hk. apply list_elem_of_fmap. by exists (k0, v).
Qed.

Lemma Dict_ticked_by_deletion d :
  Dict.wf d →
  foldl (λ d k, Dict.del k d) (Dict.decremented d) (Dict.expiring d)
  = Dict.ticked d.
Proof.
  intros Hwf. rewrite foldl_del. unfold Dict.ticked.
  apply filter_ext_elem_of. intros [k w] Hin. simpl.
  apply list_elem_of_fmap in Hin as [[k' v] [[= -> ->] Hin]]. simpl.
  unfold Dict.expiring. rewrite list_elem_of_fmap. split.
  - intros Hno. destruct (decide (0 < v - 1)); [done|].
    destruct Hno. exists (k', v). split; [done|].
    apply list_elem_of_filter. simpl. split; [lia|done].
  - intros Hpos [[k2 v2] [Hk [Hle Hin2]%list_elem_of_filter]].
    simpl in *. subst k2.
    assert (v = v2) by by eapply Dict_wf_functional. lia.
Qed.

Lemma Enemy_update_status_effects_ticked e :
  Dict.wf (Enemy.status_effects e) →
  Enemy._update_status_effects e
  = Enemy.set_status_effects (Dict.ticked (Enemy.status_effects e)) e.
Proof.
  intros Hwf. unfold Enemy._update_status_effects.
  pose proof (Enemy_fold_update_one [] (Enemy.status_effects e) [] Hwf) as H.
  simpl in H. rewrite H. by rewrite Dict_ticked_by_deletion.
Qed.

End TickFacts.

Section PlayerTickFacts.

Implicit Types (d : Dict.t) (p : Player.t).

Lemma Player_set_status_effects_id p :
  Player.set_status_effects (Player.status_effects p) p = p.
Proof. by destruct p. Qed.

Lemma Player_ongoing_set_status_effects d p item :
  Player.ongoing (Player.set_status_effects d p) item
  = Player.set_status_effects d (Player.ongoing p item).
Proof. unfold Player.ongoing. by repeat case_decide. Qed.

Lemma Player_foldl_ongoing_set_status_effects d p items :
  foldl Player.ongoing (Player.set_status_effects d p) items
  = Player.set_status_effects d (foldl Player.ongoing p items).
Proof.
  revert p. induction items as [|item items IH]; intros p; [done|].
  simpl. by rewrite Player_ongoing_set_status_effects, IH.
Qed.

Lemma Player_status_effects_ongoing p items :
  Player.status_effects (foldl Player.ongoing p items)
  = Player.status_effects p.
Proof.
  revert p. induction items as [|item items IH]; intros p; [done|].
  simpl. rewrite IH. unfold Player.ongoing. by repeat case_decide.
Qed.

Lemma Player_status_effects_set d p :
  Player.status_effects (Player.set_status_effects d p) = d.
Proof. done. Qed.

Lemma Player_set_status_effects_twice d d' p :
  Player.set_status_effects d (Player.set_status_effects d' p)
  = Player.set_status_effects d p.
Proof. done. Qed.

Lemma Player_take_damage_set_status_effects n d p :
  (Player.take_damage n (Player.set_status_effects d p)).2
  = Player.set_status_effects d (Player.take_damage n p).2.
Proof. done. Qed.

Lemma Player_heal_set_status_effects n d p :
  (Player.heal n (Player.set_status_effects d p)).2
  = Player.set_status_effects d (Player.heal n p).2.
Proof. done. Qed.

Lemma Player_fold_update_one items p ex :
  foldl Player.update_one (p, ex) items
  = (Player.set_status_effects
       (foldl Enemy.update_one (Player.status_effects p, ex) items).1
       (foldl Player.ongoing p items),
     (foldl Enemy.update_one (Player.status_effects p, ex) items).2).
Proof.
  revert p ex. induction items as [|[k v] items IH]; intros p ex.
  - simpl. by rewrite Player_set_status_effects_id.
  - cbn [foldl Player.update_one Enemy.update_one].
    unfold Player.ongoing at 2. cbn [fst snd].
    set (d' := Dict.set k (v - 1) (Player.status_effects p)).
    destruct (decide (v - 1 ≤ 0)); [|repeat case_decide]; rewrite IH;
      rewrite ?Player_take_damage_set_status_effects,
        ?Player_heal_set_status_effects,
        ?Player_foldl_ongoing_set_status_effects,
        ?Player_status_effects_set, ?Player_set_status_effects_twice;
      done.
Qed.

Lemma Player_foldl_del p ks :
  foldl (λ p effect,
           Player.set_status_effects
             (Dict.del effect (Player.status_effects p)) p) p ks
  = Player.set_status_effects
      (foldl (λ d k, Dict.del k d) (Player.status_effects p) ks) p.
Proof.
  revert p. induction ks as [|k ks IH]; intros p; simpl.
  - by rewrite Player_set_status_effects_id.
  - by rewrite IH.
Qed.

Lemma Player_update_status_effects_ticked p :
  Dict.wf (Player.status_effects p) →
  Player.update_status_effects p
  = Player.set_status_effects (Dict.ticked (Player.status_effects p))
      (foldl Player.ongoing p (Player.status_effects p)).
Proof.
  intros Hwf. unfold Player.update_status_effects.
  rewrite Player_fold_update_one, Player_foldl_del.
  pose proof (Enemy_fold_update_one [] (Player.status_effects p) [] Hwf) as H.
  simpl in H. rewrite H. cbn [fst snd].
  rewrite Player_status_effects_set, Player_set_status_effects_twice.
  by rewrite Dict_ticked_by_deletion.
Qed.

End PlayerTickFacts.

Section PoolFacts.

Implicit Types (d items : Dict.t) (p : Player.t).

Lemma Player_ongoing_defense p item :
  Player.defense (Player.ongoing p item) = Player.defense p.
Proof. unfold Player.ongoing. by repeat case_decide. Qed.

Lemma Player_ongoing_hp_bounds p item :
  0 ≤ Player.hp p ≤ Player.max_hp p →
  Player.max_hp (Player.ongoing p item) = Player.max_hp p
  ∧ 0 ≤ Player.hp (Player.ongoing p item) ≤ Player.max_hp p.
Proof.
  intros Hp. unfold Player.ongoing. repeat case_decide; simpl; lia.
Qed.

Lemma Player_foldl_ongoing_hp_bounds p items :
  0 ≤ Player.hp p ≤ Player.max_hp p →
  Player.max_hp (foldl Player.ongoing p items) = Player.max_hp p
  ∧ 0 ≤ Player.hp (foldl Player.ongoing p items) ≤ Player.max_hp p.
Proof.
  revert p. induction items as [|item items IH]; intros p Hp; [done|].
  simpl. destruct (Player_ongoing_hp_bounds p item Hp) as [Hm Hb].
  destruct (IH (Player.ongoing p item)) as [Hm' Hb']; [lia|].
  rewrite Hm' , Hm. split; [done|lia].
Qed.

(** Only a poison or a regeneration with more than one turn left acts. *)
Lemma Player_foldl_ongoing_inert p items :
  (∀ k v, (k, v) ∈ items → k = "poisoned" ∨ k = "regenerating" → v ≤ 1) →
  foldl Player.ongoing p items = p.
Proof.
  revert p. induction items as [|[k v] items IH]; intros p Hin; [done|].
  simpl. assert (Player.ongoing p (k, v) = p) as ->.
  { unfold Player.ongoing. simpl.
    repeat case_decide; try done; exfalso;
      (assert (v ≤ 1) by (apply (Hin k); [by left|tauto]); lia). }
  apply IH. intros k' v' ?. apply Hin. by right.
Qed.

Lemma Player_foldl_ongoing_poisoned p items n :
  Dict.wf items →
  Dict.get "poisoned" items = Some n → 1 < n →
  Dict.get "regenerating" items = None →
  foldl Player.ongoing p items = (Player.take_damage 3 p).2.
Proof.
  unfold Dict.wf, Dict.keys. revert p.
  induction items as [|[k v] items IH]; intros p Hwf Hp Hn Hr; [done|].
  csimpl in *. apply NoDup_cons in Hwf as [Hk Hwf].
  destruct (decide ("regenerating" = k)) as [|Hkr]; [done|].
  destruct (decide ("poisoned" = k)) as [<-|Hkp].
  - injection Hp as ->. unfold Player.ongoing at 2. simpl.
    rewrite decide_False by lia.
    apply Player_foldl_ongoing_inert. intros k' v' Hin [->| ->].
    + destruct Hk. apply list_elem_of_fmap. by exists ("poisoned", v').
    + apply Dict_get_None in Hr. destruct Hr.
      apply list_elem_of_fmap. by exists ("regenerating", v').
  - assert (Player.ongoing p (k, v) = p) as ->; [|by apply IH].
    unfold Player.ongoing. simpl. repeat case_decide; congruence.
Qed.

Lemma Player_ongoing_total_damage_taken p item :
  Player.total_damage_taken (Player.ongoing p item)
  = Player.total_damage_taken p
    + if decide (item.1 = "poisoned" ∧ 1 < item.2)
      then Z.max 1 (3 - Player.defense p) else 0.
Proof.
  unfold Player.ongoing.
  repeat case_decide; simpl; try lia; exfalso; intuition (congruence || lia).
Qed.

(** What a tick adds to the damage taken: the damage of the poison,
    when there is one that survives the tick. *)
Lemma Player_foldl_ongoing_total_damage_taken p items :
  Dict.wf items →
  Player.total_damage_taken (foldl Player.ongoing p items)
  = Player.total_damage_taken p
    + match Dict.get "poisoned" items with
      | Some n => if decide (1 < n) then Z.max 1 (3 - Player.defense p) else 0
      | None => 0
      end.
Proof.
  unfold Dict.wf, Dict.keys. revert p.
  induction items as [|[k v] items IH]; intros p Hwf; [simpl; lia|].
  csimpl in *. apply NoDup_cons in Hwf as [Hk Hwf].
  rewrite IH, Player_ongoing_total_damage_taken, Player_ongoing_defense
    by done. simpl.
  destruct (decide ("poisoned" = k)) as [<-|Hkp].
  - assert (Dict.get "poisoned" items = None) as ->
      by by apply Dict_get_None.
    repeat case_decide; try lia; exfalso; intuition (congruence || lia).
  - rewrite (decide_False (P:=k = "poisoned" ∧ 1 < v)) by naive_solver. lia.
Qed.

End PoolFacts.

(** ** The end of a turn *)

Section EndTurnFacts.

Implicit Types (s : Combat.t).

Lemma Enemy_update_status_effects_hp e :
  Enemy.hp (Enemy._update_status_effects e) = Enemy.hp e.
Proof.
  unfold Enemy._update_status_effects.
  by destruct (foldl Enemy.update_one _ _).
Qed.

(** The tick of the player, whatever the dictionary: the pools evolve
    by [Player.ongoing], item by item. *)
Lemma Player_update_status_effects_pools p :
  ∃ d, Player.update_status_effects p
       = Player.set_status_effects d
           (foldl Player.ongoing p (Player.status_effects p)).
Proof.
  unfold Player.update_status_effects.
  rewrite Player_fold_update_one, Player_foldl_del.
  rewrite Player_status_effects_set, Player_set_status_effects_twice.
  eauto.
Qed.

Lemma Player_update_status_effects_hp_bounds p :
  0 ≤ Player.hp p ≤ Player.max_hp p →
  0 ≤ Player.hp (Player.update_status_effects p)
      ≤ Player.max_hp (Player.update_status_effects p).
Proof.
  intros Hp. destruct (Player_update_status_effects_pools p) as [d ->].
  destruct (Player_foldl_ongoing_hp_bounds p (Player.status_effects p) Hp)
    as [Hm Hb].
  change (0 ≤ Player.hp (foldl Player.ongoing p (Player.status_effects p))
          ≤ Player.max_hp (foldl Player.ongoing p (Player.status_effects p))).
  lia.
Qed.

Lemma end_turn_enemy s :
  Combat.enemy (Combat._end_turn s)
  = Enemy._update_status_effects (Combat.enemy s).
Proof.
  unfold Combat._end_turn, Combat._handle_victory. cbn zeta.
  repeat (case_match || case_decide); done.
Qed.

Lemma end_turn_player_hp s :
  Player.hp (Combat.player (Combat._end_turn s))
  = Player.hp (Player.update_status_effects (Combat.player s)).
Proof.
  unfold Combat._end_turn, Combat._handle_victory. cbn zeta.
  repeat (case_match || case_decide); done.
Qed.

End EndTurnFacts.

(** The termination check of [_end_turn], on an active encounter with
    both hp within their bounds. *)
Lemma end_turn_outcome (s : Combat.t) :
  Combat.combat_active s = true → Combat.hp_in_bounds s →
  Combat.termination_evaluated (Combat.current_turn s) (Combat._end_turn s).
Proof.
  intros Hact [Hp He]. unfold Combat.termination_evaluated. cbn zeta.
  rewrite end_turn_player_hp, end_turn_enemy, Enemy_update_status_effects_hp.
  pose proof (Player_update_status_effects_hp_bounds _ Hp) as Hp'.
  split; [lia|]. split; [lia|].
  unfold Combat.get_winner, Combat.is_combat_over, Combat._end_turn,
    Combat._handle_victory. cbn zeta.
  cbn [Combat.player Combat.enemy Combat.set_player Combat.set_enemy].
  set (p' := Player.update_status_effects (Combat.player s)) in *.
  set (e' := Enemy._update_status_effects (Combat.enemy s)).
  assert (Enemy.is_alive e' = bool_decide (0 < Enemy.hp (Combat.enemy s)))
    as Hea by (unfold Enemy.is_alive, e';
               by rewrite Enemy_update_status_effects_hp).
  destruct (decide (0 < Player.hp p')) as [Hpa|Hpa];
    destruct (decide (0 < Enemy.hp (Combat.enemy s))) as [He'|He'].
  - assert (Player.is_alive p' = true) as Hpb by by apply bool_decide_eq_true_2.
    rewrite Hea, bool_decide_eq_true_2 in * by done. rewrite Hpb. simpl.
    rewrite Hpb, Hea, Hact. simpl.
    split_and!; intros [? ?]; try lia; done.
  - assert (Player.is_alive p' = true) as Hpb by by apply bool_decide_eq_true_2.
    rewrite Hea, bool_decide_eq_false_2 in * by done. rewrite Hpb. simpl.
    assert (Player.is_alive
              (Player.set_enemies_defeated (Player.enemies_defeated p' + 1) p')
            = true) as Hv by exact Hpb.
    case_decide; simpl; rewrite Hv;
      split_and!; intros [? ?]; try lia; done.
  - assert (Player.is_alive p' = false) as Hpb
      by by apply bool_decide_eq_false_2.
    rewrite Hea, bool_decide_eq_true_2 in * by done. rewrite Hpb. simpl.
    rewrite Hpb, Hea. simpl. split_and!; intros [? ?]; try lia; done.
  - assert (Player.is_alive p' = false) as Hpb
      by by apply bool_decide_eq_false_2.
    rewrite Hea, bool_decide_eq_false_2 in * by done. rewrite Hpb. simpl.
    rewrite Hpb, Hea. simpl. split_and!; intros [? ?]; try lia; done.
Qed.

(** ** Damage, focus and turn order *)

(** Claim C2, amended.  [take_damage] returns [max(1, damage - defense)]
    for the protagonist and for an adversary of the base class or a
    [SteamGolem]; a [ClockworkSentinel] returns
    [max(1, damage - (defense + 2))]; a [RogueAutomaton] returns 0 when
    its dodge draw is below 0.2 and the base value otherwise.  A return
    of 0 leaves the adversary untouched; any other return [actual]
    leaves hp at [max(0, hp_before - actual)]; hp that was not negative
    is not negative after. *)
Theorem take_damage_by_class (damage : Z) :
  (∀ p, let r := Player.take_damage damage p in
        r.1 = Z.max 1 (damage - Player.defense p)
        ∧ Player.hp r.2 = Z.max 0 (Player.hp p - r.1)
        ∧ 0 ≤ Player.hp r.2)
  ∧ (∀ rng e, let r := Enemy.take_damage rng damage e in
        r.1 = match Enemy.kind e with
              | Enemy.ClockworkSentinel =>
                  Z.max 1 (damage - (Enemy.defense e + 2))
              | Enemy.RogueAutomaton =>
                  if PyFloat.lt (random_random rng) PyFloat.c0_2 then 0
                  else Z.max 1 (damage - Enemy.defense e)
              | Enemy.Base | Enemy.SteamGolem =>
                  Z.max 1 (damage - Enemy.defense e)
              end
        ∧ (r.1 = 0 → r.2 = e)
        ∧ (r.1 ≠ 0 → Enemy.hp r.2 = Z.max 0 (Enemy.hp e - r.1))
        ∧ (0 ≤ Enemy.hp e → 0 ≤ Enemy.hp r.2)).
Proof.
  split.
  - intros p. simpl. lia.
  - intros rng e. unfold Enemy.take_damage, Enemy.evasion_chance.
    destruct (Enemy.kind e); simpl; try (split_and!; [done|lia|done|lia]).
    destruct (PyFloat.lt _ _); simpl; split_and!; done || lia.
Qed.

(** Claim C5.  An ability request for a known ability whose focus cost
    exceeds the protagonist's focus returns a failure and the engine
    state it was given, unchanged in every field (focus, status effects,
    adversary cooldowns, turn counter, log, active flag); on the
    protagonist's turn the failure names the cost needed and the focus
    at hand, off turn it is the turn-ownership rejection. *)
Theorem insufficient_focus_is_rejected (rng : Rng) (ability_name : string)
    (ability : PlayerAbility) (s : Combat.t) (turn : bool) :
  Combat.abilities !! ability_name = Some ability →
  Player.focus (Combat.player s) < focus_cost ability →
  Combat.is_player_turn s = Some turn →
  Combat.player_use_ability rng ability_name s
  = Some (if turn then
            "❌ Not enough focus! Need " +:+ pretty (focus_cost ability)
              +:+ ", have " +:+ pretty (Player.focus (Combat.player s))
          else "❌ Not your turn!", s).
Proof.
  intros Hab Hlt Hturn. unfold Combat.player_use_ability.
  rewrite Hturn. simpl. destruct turn; simpl; [|done].
  rewrite Hab. unfold Player.spend_focus.
  rewrite decide_False by lia. simpl. by destruct s.
Qed.

(** Claim C8.  The turn queue set up at encounter creation is one of the
    two orders of player and enemy; with unequal speeds the faster side
    is first whatever the random source draws; with equal speeds the
    draw [_randbelow(2)] of the shuffle decides, 1 keeping the player
    first and 0 putting the enemy first, so each order comes from
    exactly one of the two equally likely draws. *)
Theorem turn_order_by_speed (rng : Rng) (s : Combat.t) :
  let q := Combat.turn_queue (Combat._setup_turn_order rng s) in
  let player_speed := Player.speed (Combat.player s) in
  let enemy_speed := Enemy.speed (Combat.enemy s) in
  (q = ["player"; "enemy"] ∨ q = ["enemy"; "player"])
  ∧ (enemy_speed < player_speed → q = ["player"; "enemy"])
  ∧ (player_speed < enemy_speed → q = ["enemy"; "player"])
  ∧ (player_speed = enemy_speed →
       (py_randbelow rng 2 = 1%nat → q = ["player"; "enemy"])
       ∧ (py_randbelow rng 2 = 0%nat → q = ["enemy"; "player"])
       ∧ (py_randbelow rng 2 = 0%nat ∨ py_randbelow rng 2 = 1%nat)).
Proof.
  cbn zeta. unfold Combat._setup_turn_order. cbn zeta.
  assert (py_randbelow rng 2 = 0%nat ∨ py_randbelow rng 2 = 1%nat) as Hj.
  { unfold py_randbelow.
    pose proof (Nat.mod_upper_bound (randbelow rng 2) 2). lia. }
  destruct (decide (Enemy.speed (Combat.enemy s)
                    ≤ Player.speed (Combat.player s))) as [Hle|Hgt];
    destruct (decide (Player.speed (Combat.player s)
                      = Enemy.speed (Combat.enemy s))) as [Heq|Hne];
    cbn -[py_randbelow]; try lia.
  - unfold random_shuffle. cbn -[py_randbelow].
    destruct Hj as [-> | ->]; cbn;
      split_and!; try (intros; lia); auto;
      intros _; split_and!; try (intros; lia); auto.
  - split_and!; try (intros; lia); auto.
  - split_and!; try (intros; lia); auto.
Qed.

(** ** The victory check *)

(** Claim C9, amended.  For the victory conditions of the game,
    [has_won] holds exactly when the player has at least 3 crystals; the
    achievement list holds, in this order, "Crystal Master" for at least
    3 crystals, "Explorer" for all four required rooms visited,
    "Warrior" for at least 2 enemies defeated, "Untouchable" for no
    damage taken, "Tactical Genius" for damage taken below 20 and
    "Thorough Explorer" for at least 4 rooms visited; the victory type
    is "complete" for a win with at least 3 achievements, "standard" for
    any other win and "none" without a win; 3 crystals, all required
    rooms, 2 enemies and no damage give a complete victory with at least
    4 achievements. *)
Theorem check_victory_conditions_result (player : Player.t) :
  let r := Victory.check_victory_conditions Victory.init player in
  let has_won := r.1.1 in
  let victory_type := r.1.2 in
  let achievements := r.2 in
  let required : gset string :=
    {[ "entrance"; "hallway"; "laboratory"; "armory" ]} in
  (has_won = true ↔ 3 ≤ Player.aether_crystals player)
  ∧ achievements
    = (if decide (3 ≤ Player.aether_crystals player)
       then ["Crystal Master"] else [])
      ++ (if decide (required ⊆ Player.visited_rooms player)
          then ["Explorer"] else [])
      ++ (if decide (2 ≤ Player.enemies_defeated player)
          then ["Warrior"] else [])
      ++ (if decide (Player.total_damage_taken player = 0)
          then ["Untouchable"] else [])
      ++ (if decide (Player.total_damage_taken player < 20)
          then ["Tactical Genius"] else [])
      ++ (if decide (4 ≤ size (Player.visited_rooms player))%nat
          then ["Thorough Explorer"] else [])
  ∧ victory_type
    = (if has_won then
         if decide (3 ≤ length achievements)%nat then "complete"
         else "standard"
       else "none")
  ∧ (3 ≤ Player.aether_crystals player →
     required ⊆ Player.visited_rooms player →
     2 ≤ Player.enemies_defeated player →
     Player.total_damage_taken player = 0 →
     has_won = true ∧ victory_type = "complete"
     ∧ (4 ≤ length achievements)%nat).
Proof.
  cbn zeta. unfold Victory.check_victory_conditions. cbn zeta.
  change (Victory.aether_crystals Victory.init) with 3.
  change (Victory.min_enemies_defeated Victory.init) with 2.
  assert (list_to_set (Victory.required_rooms Victory.init)
          = ({[ "entrance"; "hallway"; "laboratory"; "armory" ]} : gset string))
    as -> by (simpl; set_solver).
  assert (size ({[ "entrance"; "hallway"; "laboratory"; "armory" ]}
                  : gset string) = 4%nat) as -> by by vm_compute.
  set (required := ({[ "entrance"; "hallway"; "laboratory"; "armory" ]}
                      : gset string)).
  destruct (decide (3 ≤ Player.aether_crystals player)) as [Hc|Hc].
  - rewrite bool_decide_eq_true_2 by done. cbn [fst snd].
    split_and!; [done|..].
    + repeat case_decide; done.
    + done.
    + intros _ Hr He Hd.
      rewrite (decide_True (P:=required ⊆ _)) by done.
      rewrite (decide_True (P:=2 ≤ _)) by done.
      rewrite (decide_True (P:=_ = 0)) by done.
      rewrite (decide_True (P:=_ < 20)) by lia.
      destruct (decide (4 ≤ size (Player.visited_rooms player))%nat);
        simpl; split_and!; done || lia.
  - rewrite bool_decide_eq_false_2 by done. cbn [fst snd].
    split_and!; [done|..].
    + repeat case_decide; done.
    + done.
    + intros ?. lia.
Qed.

(** ** The tick of the status effects, per action *)

(** Claim C4, amended.  The end of a turn, run once by every completed
    action on combatants whose dictionaries have distinct keys, ticks
    the status effects of both: every counter above 1 is one lower and
    every counter at 1 or below is removed in that same tick; a poison
    (with no regeneration beside it) acts after its counter went down
    and only if the counter is still positive, so a poison with more
    than one turn left costs [max(0, hp - max(1, 3 - defense))] and a
    poison on its last turn costs nothing; the tick itself appends
    nothing to the message log: when both combatants are alive after
    it, the log is the one before. *)
Theorem end_turn_ticks_status_effects (s : Combat.t) :
  Combat.wf s →
  let s' := Combat._end_turn s in
  let p := Combat.player s in
  let p' := Combat.player s' in
  (∀ effect,
     Dict.get effect (Player.status_effects p')
     = n ← Dict.get effect (Player.status_effects p);
       if decide (1 < n) then Some (n - 1) else None)
  ∧ (∀ effect,
     Dict.get effect (Enemy.status_effects (Combat.enemy s'))
     = n ← Dict.get effect (Enemy.status_effects (Combat.enemy s));
       if decide (1 < n) then Some (n - 1) else None)
  ∧ (∀ n, Dict.get "poisoned" (Player.status_effects p) = Some n →
          Dict.get "regenerating" (Player.status_effects p) = None →
          Player.hp p'
          = if decide (1 < n)
            then Z.max 0 (Player.hp p - Z.max 1 (3 - Player.defense p))
            else Player.hp p)
  ∧ (Player.is_alive p' = true → Enemy.is_alive (Combat.enemy s') = true →
     Combat.combat_log s' = Combat.combat_log s).
Proof.
  intros [[Hp Hpd] [He Hed]]. cbn zeta. split_and!.
  - intros effect.
    assert (Player.status_effects (Combat.player (Combat._end_turn s))
            = Dict.ticked (Player.status_effects (Combat.player s))) as ->.
    { unfold Combat._end_turn, Combat._handle_victory. cbn zeta.
      rewrite Player_update_status_effects_ticked by done.
      repeat (case_match || case_decide); done. }
    by apply Dict_get_ticked.
  - intros effect. rewrite end_turn_enemy.
    rewrite Enemy_update_status_effects_ticked by done.
    by apply Dict_get_ticked.
  - intros n Hn Hr. rewrite end_turn_player_hp.
    rewrite Player_update_status_effects_ticked by done.
    change (Player.hp (Player.set_status_effects ?d ?q)) with (Player.hp q).
    case_decide.
    + by rewrite (Player_foldl_ongoing_poisoned _ _ n).
    + rewrite Player_foldl_ongoing_inert; [done|].
      intros k v Hin [-> | ->].
      * apply Dict_get_elem_of in Hin; [|done]. naive_solver lia.
      * apply Dict_get_None in Hr. destruct Hr.
        apply list_elem_of_fmap. by exists ("regenerating", v).
  - intros Hpa Hea. unfold Player.is_alive in Hpa.
    rewrite end_turn_player_hp in Hpa. rewrite end_turn_enemy in Hea.
    unfold Combat._end_turn. cbn zeta.
    cbn [Combat.player Combat.enemy Combat.set_player Combat.set_enemy].
    unfold Player.is_alive at 1. by rewrite Hpa, Hea.
Qed.

(** ** Damage taken and the zero-damage achievement *)

Section DamageTakenFacts.

Lemma Player_foldl_ongoing_total_mono p items :
  Player.total_damage_taken p
  ≤ Player.total_damage_taken (foldl Player.ongoing p items).
Proof.
  revert p. induction items as [|item items IH]; intros p; [done|].
  simpl. etrans; [|apply IH].
  rewrite Player_ongoing_total_damage_taken. case_decide; lia.
Qed.

Lemma Player_update_status_effects_total_mono p :
  Player.total_damage_taken p
  ≤ Player.total_damage_taken (Player.update_status_effects p).
Proof.
  destruct (Player_update_status_effects_pools p) as [d ->].
  apply Player_foldl_ongoing_total_mono.
Qed.

Lemma end_turn_total_damage_taken s :
  Player.total_damage_taken (Combat.player (Combat._end_turn s))
  = Player.total_damage_taken
      (Player.update_status_effects (Combat.player s)).
Proof.
  unfold Combat._end_turn, Combat._handle_victory. cbn zeta.
  repeat (case_match || case_decide); done.
Qed.

Lemma end_turn_total_mono s t :
  t ≤ Player.total_damage_taken (Combat.player s) →
  t ≤ Player.total_damage_taken (Combat.player (Combat._end_turn s)).
Proof.
  intros Ht. rewrite end_turn_total_damage_taken.
  etrans; [exact Ht|]. apply Player_update_status_effects_total_mono.
Qed.

Lemma player_attack_total_mono rng s message s' :
  Combat.player_attack rng s = Some (message, s') →
  Player.total_damage_taken (Combat.player s)
  ≤ Player.total_damage_taken (Combat.player s').
Proof.
  unfold Combat.player_attack. intros H.
  destruct (Combat.is_player_turn s) as [[]|]; simplify_eq/=; [|done].
  destruct (Enemy.take_damage _ _ _) as [actual e]. simplify_eq/=.
  by apply end_turn_total_mono.
Qed.

Lemma player_use_ability_total_mono rng ability_name s message s' :
  Combat.player_use_ability rng ability_name s = Some (message, s') →
  Player.total_damage_taken (Combat.player s)
  ≤ Player.total_damage_taken (Combat.player s').
Proof.
  unfold Combat.player_use_ability. intros H.
  destruct (Combat.is_player_turn s) as [[]|]; simplify_eq/=; [|done].
  destruct (Combat.abilities !! ability_name) as [ability|];
    simplify_eq/=; [|done].
  unfold Player.spend_focus in H.
  destruct (decide (focus_cost ability ≤ Player.focus (Combat.player s)));
    simplify_eq/=; [|done].
  repeat case_decide.
  - destruct (heal_amount ability); simplify_eq/=.
    by apply end_turn_total_mono.
  - simplify_eq/=. by apply end_turn_total_mono.
  - destruct (damage_multiplier ability); simplify_eq/=.
    destruct (PyFloat.scale _ _); simplify_eq/=.
    destruct (Enemy.take_damage _ _ _) as [actual e]. simplify_eq/=.
    by apply end_turn_total_mono.
Qed.

Lemma use_consumable_item_total_damage_taken item s :
  Player.total_damage_taken
    (Combat.player (Combat._use_consumable_item item s).2)
  = Player.total_damage_taken (Combat.player s).
Proof.
  unfold Combat._use_consumable_item.
  destruct (item_heal_amount item), (item_focus_restore item); done.
Qed.

Lemma player_use_item_total_mono item_name' s message s' :
  Combat.player_use_item item_name' s = Some (message, s') →
  Player.total_damage_taken (Combat.player s)
  ≤ Player.total_damage_taken (Combat.player s').
Proof.
  unfold Combat.player_use_item. intros H.
  destruct (Combat.is_player_turn s) as [[]|]; simplify_eq/=; [|done].
  destruct (Combat.find_consumable _ _) as [item|]; simplify_eq/=; [|done].
  pose proof (use_consumable_item_total_damage_taken item s) as Ht.
  destruct (Combat._use_consumable_item item s) as [result s1].
  simplify_eq/=. apply end_turn_total_mono.
  destruct (item_stackable item); simpl; lia.
Qed.

Lemma enemy_turn_total_mono rng s message s' :
  Combat.enemy_turn rng s = Some (message, s') →
  Player.total_damage_taken (Combat.player s)
  ≤ Player.total_damage_taken (Combat.player s').
Proof.
  unfold Combat.enemy_turn. intros H.
  destruct (Combat.get_current_turn s) as [turn|]; simplify_eq/=.
  case_decide; simplify_eq/=; [done|].
  destruct (Enemy.choose_action _ _ _ _ _) as [[action e]|]; simplify_eq/=.
  destruct (action !! "type") as [type|]; simplify_eq/=.
  repeat case_decide.
  - destruct (Enemy.get_effective_attack e); simplify_eq/=.
    apply end_turn_total_mono. simpl.
    pose proof (Z.le_max_l 1 (z - Player.defense (Combat.player s))). lia.
  - destruct (action !! "name") as [ability_name|]; simplify_eq/=.
    destruct (Enemy.use_ability _ _) as [[[result damage] e1]|];
      simplify_eq/=.
    case_decide; simplify_eq/=; apply end_turn_total_mono; simpl; [|done].
    pose proof (Z.le_max_l 1 (damage - Player.defense (Combat.player s))).
    lia.
  - simplify_eq/=. by apply end_turn_total_mono.
Qed.

Lemma run_total_mono script s s' :
  Combat.run script s = Some s' →
  Player.total_damage_taken (Combat.player s)
  ≤ Player.total_damage_taken (Combat.player s').
Proof.
  revert s. induction script as [|[rng r] script IH]; intros s H.
  - by simplify_eq/=.
  - simpl in H. destruct (Combat.perform rng r s) as [[message s1]|] eqn:Hp;
      simplify_eq/=.
    etrans; [|by apply IH].
    destruct r; simpl in Hp;
      eauto using player_attack_total_mono, player_use_ability_total_mono,
        player_use_item_total_mono, enemy_turn_total_mono.
Qed.

End DamageTakenFacts.

Lemma check_victory_conditions_achievements (player : Player.t) :
  (Victory.check_victory_conditions Victory.init player).2
  = (if decide (3 ≤ Player.aether_crystals player)
     then ["Crystal Master"] else [])
    ++ (if decide (Victory.required_set ⊆ Player.visited_rooms player)
        then ["Explorer"] else [])
    ++ (if decide (2 ≤ Player.enemies_defeated player)
        then ["Warrior"] else [])
    ++ (if decide (Player.total_damage_taken player = 0)
        then ["Untouchable"] else [])
    ++ (if decide (Player.total_damage_taken player < 20)
        then ["Tactical Genius"] else [])
    ++ (if decide (4 ≤ size (Player.visited_rooms player))%nat
        then ["Thorough Explorer"] else []).
Proof.
  unfold Victory.check_victory_conditions. cbn zeta.
  change (Victory.aether_crystals Victory.init) with 3.
  change (Victory.min_enemies_defeated Victory.init) with 2.
  assert (list_to_set (Victory.required_rooms Victory.init)
          = Victory.required_set) as ->
    by (unfold Victory.required_set; simpl; set_solver).
  assert (size Victory.required_set = 4%nat) as -> by by vm_compute.
  case_bool_decide; cbn [snd]; repeat case_decide; done.
Qed.

Lemma untouchable_needs_no_damage (player : Player.t) :
  "Untouchable" ∈ (Victory.check_victory_conditions Victory.init player).2
  ↔ Player.total_damage_taken player = 0.
Proof.
  rewrite check_victory_conditions_achievements, !elem_of_app.
  repeat case_decide;
    rewrite ?elem_of_nil, ?list_elem_of_singleton; intuition congruence.
Qed.

(** Claim C10.  Every call of the protagonist's [take_damage] returns
    at least 1 and adds exactly what it returns to
    [total_damage_taken]; a tick of the status effects adds exactly
    what the [take_damage(3)] of a poison with more than one turn left
    returns, and nothing otherwise; no sequence of engine calls lowers
    the total; hence, from a total that is not negative, after any call
    of [take_damage], and after any tick in which a poison acts, the
    total is positive at the end of every continuation of the encounter
    and the victory check does not award "Untouchable". *)
Theorem total_damage_taken_accounting :
  (∀ damage p,
     let r := Player.take_damage damage p in
     1 ≤ r.1
     ∧ Player.total_damage_taken r.2 = Player.total_damage_taken p + r.1)
  ∧ (∀ p, Dict.wf (Player.status_effects p) →
       Player.total_damage_taken (Player.update_status_effects p)
       = Player.total_damage_taken p
         + match Dict.get "poisoned" (Player.status_effects p) with
           | Some n => if decide (1 < n) then (Player.take_damage 3 p).1 else 0
           | None => 0
           end)
  ∧ (∀ script s s',
       Combat.run script s = Some s' →
       Player.total_damage_taken (Combat.player s)
       ≤ Player.total_damage_taken (Combat.player s'))
  ∧ (∀ damage p script s s',
       0 ≤ Player.total_damage_taken p →
       Combat.player s = (Player.take_damage damage p).2 →
       Combat.run script s = Some s' →
       0 < Player.total_damage_taken (Combat.player s')
       ∧ "Untouchable"
         ∉ (Victory.check_victory_conditions Victory.init
              (Combat.player s')).2)
  ∧ (∀ n script s s',
       Dict.wf (Player.status_effects (Combat.player s)) →
       Dict.get "poisoned" (Player.status_effects (Combat.player s)) = Some n →
       1 < n →
       0 ≤ Player.total_damage_taken (Combat.player s) →
       Combat.run script (Combat._end_turn s) = Some s' →
       0 < Player.total_damage_taken (Combat.player s')
       ∧ "Untouchable"
         ∉ (Victory.check_victory_conditions Victory.init
              (Combat.player s')).2).
Proof.
  assert (∀ p, Dict.wf (Player.status_effects p) →
       Player.total_damage_taken (Player.update_status_effects p)
       = Player.total_damage_taken p
         + match Dict.get "poisoned" (Player.status_effects p) with
           | Some n => if decide (1 < n) then (Player.take_damage 3 p).1 else 0
           | None => 0
           end) as Htick.
  { intros p Hwf. rewrite Player_update_status_effects_ticked by done.
    change (Player.total_damage_taken (Player.set_status_effects ?d ?q))
      with (Player.total_damage_taken q).
    by rewrite Player_foldl_ongoing_total_damage_taken. }
  split_and!.
  - intros damage p. simpl. lia.
  - exact Htick.
  - apply run_total_mono.
  - intros damage p script s s' H0 Hs Hrun.
    apply run_total_mono in Hrun. rewrite Hs in Hrun. simpl in Hrun.
    assert (0 < Player.total_damage_taken (Combat.player s')) by lia.
    split; [done|]. rewrite untouchable_needs_no_damage. lia.
  - intros n script s s' Hwf Hn H1 H0 Hrun.
    apply run_total_mono in Hrun.
    rewrite end_turn_total_damage_taken, Htick, Hn in Hrun by done.
    rewrite decide_True in Hrun by done. simpl in Hrun.
    assert (0 < Player.total_damage_taken (Combat.player s')) by lia.
    split; [done|]. rewrite untouchable_needs_no_damage. lia.
Qed.

(** ** The adversary's decisions and cooldowns *)

Section DecisionFacts.

Implicit Types (e : Enemy.t) (ability : string).


Lemma Enemy_update_status_effects_frame e :
  let e' := Enemy._update_status_effects e in
  Enemy.ability_cooldowns e' = Enemy.ability_cooldowns e
  ∧ Enemy.abilities e' = Enemy.abilities e
  ∧ Enemy.focus e' = Enemy.focus e
  ∧ Enemy.ai_pattern e' = Enemy.ai_pattern e.
Proof.
  cbn zeta. unfold Enemy._update_status_effects.
  by destruct (foldl Enemy.update_one _ _).
Qed.

Lemma can_use_ability_update_status_effects ability e :
  Enemy.can_use_ability ability (Enemy._update_status_effects e)
  = Enemy.can_use_ability ability e.
Proof.
  destruct (Enemy_update_status_effects_frame e) as (Hc & Ha & Hf & _).
  unfold Enemy.can_use_ability. by rewrite Hc, Ha, Hf.
Qed.

(** The state in which [Enemy.choose_action] selects. *)
Lemma Enemy_choose_action_state rng php pdef pfoc e action e' :
  Enemy.Enemy_choose_action rng php pdef pfoc e = Some (action, e') →
  e' = Enemy._update_status_effects
         (Enemy.set_ability_cooldowns
            (Enemy.update_cooldowns (Enemy.ability_cooldowns e)) e).
Proof.
  unfold Enemy.Enemy_choose_action. cbn zeta. intros H.
  apply bind_Some in H as (a & _ & [= _ <-]). done.
Qed.

Lemma aggressive_ai_usable e : Enemy.selects_usable (Enemy._aggressive_ai e) e.
Proof.
  unfold Enemy._aggressive_ai, Enemy.selects_usable.
  repeat case_match; eauto.
Qed.

Lemma hit_and_run_ai_usable e : Enemy.selects_usable (Enemy._hit_and_run_ai e) e.
Proof.
  unfold Enemy._hit_and_run_ai, Enemy.selects_usable.
  repeat case_match; eauto.
Qed.

Lemma defensive_ai_usable e action :
  Enemy._defensive_ai e = Some action → Enemy.selects_usable action e.
Proof.
  unfold Enemy._defensive_ai, Enemy.selects_usable. intros H.
  apply bind_Some in H as (bound & _ & H).
  repeat case_match; simplify_eq; eauto;
    match goal with H : _ && _ = true |- _ =>
      apply andb_true_iff in H as [_ ?] end; eauto.
Qed.

Lemma tactical_ai_usable php pfoc e action :
  Enemy._tactical_ai php pfoc e = Some action → Enemy.selects_usable action e.
Proof.
  unfold Enemy._tactical_ai, Enemy.selects_usable.
  destruct (_ && _) eqn:H1.
  { apply andb_true_iff in H1 as [_ ?]. intros ?; simplify_eq; eauto. }
  clear H1. destruct (bool_decide (3 ≤ pfoc) && _) eqn:H2.
  { apply andb_true_iff in H2 as [_ ?]. intros ?; simplify_eq; eauto. }
  intros H. apply bind_Some in H as (bound & _ & H).
  repeat case_match; simplify_eq; eauto.
Qed.

Lemma basic_ai_usable rng e action :
  Enemy._basic_ai rng e = Some action → Enemy.selects_usable action e.
Proof.
  unfold Enemy._basic_ai, Enemy.selects_usable.
  destruct (_ && _); [|intros ?; simplify_eq; eauto].
  case_decide; [|intros ?; simplify_eq; eauto].
  intros Hb. apply bind_Some in Hb as (ability & Hc & ?). simplify_eq. right.
  exists ability. split; [done|].
  unfold random_choice in Hc. apply list_elem_of_lookup_2 in Hc.
  by apply list_elem_of_filter in Hc as [? _].
Qed.

(** Every policy of the base class selects a basic attack or an ability
    that passes [can_use_ability] in the state of the selection. *)
Lemma Enemy_choose_action_usable rng php pdef pfoc e action e' :
  Enemy.Enemy_choose_action rng php pdef pfoc e = Some (action, e') →
  Enemy.selects_usable action e'.
Proof.
  intros H. pose proof (Enemy_choose_action_state _ _ _ _ _ _ _ H) as He'.
  unfold Enemy.Enemy_choose_action in H. cbn zeta in H.
  rewrite <-He' in H. apply bind_Some in H as (a & Ha & [= <-]).
  repeat case_decide; simplify_eq;
    eauto using aggressive_ai_usable, hit_and_run_ai_usable,
      defensive_ai_usable, tactical_ai_usable, basic_ai_usable.
Qed.

(** The policies of the base class return: the only exception they can
    raise is the overflow of [max_hp] in the float product. *)
Lemma Enemy_choose_action_total rng php pdef pfoc e :
  Z.abs (Enemy.max_hp e) < PyFloat.max_int →
  is_Some (Enemy.Enemy_choose_action rng php pdef pfoc e).
Proof.
  intros Hm. unfold Enemy.Enemy_choose_action. cbn zeta.
  set (e1 := Enemy._update_status_effects _).
  assert (Enemy.max_hp e1 = Enemy.max_hp e) as Hm1.
  { unfold e1, Enemy._update_status_effects.
    by destruct (foldl Enemy.update_one _ _). }
  assert (∀ c, is_Some (PyFloat.int_mul (Enemy.max_hp e1) c)) as Hmul.
  { intros c. unfold PyFloat.int_mul, PyFloat.of_int.
    rewrite Hm1, decide_True by done. by eexists. }
  repeat case_decide; try by eexists.
  - unfold Enemy._defensive_ai.
    destruct (Hmul PyFloat.c0_3) as [b ->]. simpl.
    repeat case_match; by eexists.
  - unfold Enemy._tactical_ai.
    destruct (Hmul PyFloat.c0_4) as [b ->]. simpl.
    repeat case_match; by eexists.
  - unfold Enemy._basic_ai. destruct (_ && _); [|by eexists].
    case_decide as Hne; [|by eexists].
    unfold random_choice, py_randbelow.
    destruct (filter _ _) as [|a l] eqn:Hl; [done|].
    destruct (lookup_lt_is_Some_2 (a :: l)
                (randbelow rng (length (a :: l)) `mod` length (a :: l))%nat)
      as [x ->]; [|by eexists].
    apply Nat.mod_upper_bound. simpl. lia.
Qed.

End DecisionFacts.

Section CooldownFacts.

Implicit Types (e : Enemy.t) (ability : string).












End CooldownFacts.

(** ** The cooldowns over an adversary turn *)

Section TurnCooldownFacts.

Implicit Types (e : Enemy.t) (ability : string) (s : Combat.t).







End TurnCooldownFacts.


(** ** Every completed action ends the turn once *)

Section ActionFacts.

Implicit Types (s : Combat.t).

Lemma get_current_turn_active s turn :
  Combat.get_current_turn s = Some turn → turn ≠ "none" →
  Combat.combat_active s = true.
Proof.
  unfold Combat.get_current_turn. destruct (Combat.combat_active s); [done|].
  by intros [= <-].
Qed.

Lemma is_player_turn_active s :
  Combat.is_player_turn s = Some true → Combat.combat_active s = true.
Proof.
  unfold Combat.is_player_turn. intros H.
  apply bind_Some in H as (turn & Ht & [= Hb]).
  apply bool_decide_eq_true in Hb as ->.
  by apply (get_current_turn_active s "player").
Qed.

Lemma Enemy_take_damage_hp_bounds rng damage e :
  0 ≤ Enemy.hp e ≤ Enemy.max_hp e →
  let e' := (Enemy.take_damage rng damage e).2 in
  0 ≤ Enemy.hp e' ≤ Enemy.max_hp e'.
Proof.
  intros He. cbn zeta. unfold Enemy.take_damage, Enemy.Enemy_take_damage.
  repeat case_match; simpl; lia.
Qed.

Lemma Enemy_choose_action_hp rng php pdef pfoc e action e' :
  Enemy.choose_action rng php pdef pfoc e = Some (action, e') →
  Enemy.hp e' = Enemy.hp e ∧ Enemy.max_hp e' = Enemy.max_hp e.
Proof.
  assert (∀ e0, Enemy.Enemy_choose_action rng php pdef pfoc e0
                = Some (action, e') →
                Enemy.hp e' = Enemy.hp e0 ∧ Enemy.max_hp e' = Enemy.max_hp e0)
    as Hbase.
  { intros e0 H. rewrite (Enemy_choose_action_state _ _ _ _ _ _ _ H).
    unfold Enemy._update_status_effects.
    by destruct (foldl Enemy.update_one _ _). }
  unfold Enemy.choose_action. intros H.
  destruct (Enemy.kind e); try by apply Hbase.
  case_decide; [by simplify_eq|]. by apply Hbase in H.
Qed.

Lemma Enemy_use_ability_hp_bounds ability e r :
  0 ≤ Enemy.hp e ≤ Enemy.max_hp e →
  Enemy.use_ability ability e = Some r →
  0 ≤ Enemy.hp r.2 ≤ Enemy.max_hp r.2.
Proof.
  intros He. unfold Enemy.use_ability, Enemy._execute_ability, Enemy.heal.
  cbn zeta. intros H.
  destruct (Enemy.can_use_ability ability e); [|by simplify_eq].
  repeat case_decide; simplify_option_eq; simpl; lia.
Qed.

Lemma find_consumable_elem_of name inv item :
  Combat.find_consumable name inv = Some item → item ∈ inv.
Proof.
  unfold Combat.find_consumable. intros H.
  apply head_Some_elem_of in H. by apply list_elem_of_filter in H as [_ ?].
Qed.

Lemma use_consumable_item_frame item s :
  (∀ amount, item_heal_amount item = Some amount → 0 ≤ amount) →
  Combat.hp_in_bounds s →
  let s1 := (Combat._use_consumable_item item s).2 in
  Combat.hp_in_bounds s1
  ∧ Combat.combat_active s1 = Combat.combat_active s
  ∧ Combat.current_turn s1 = Combat.current_turn s
  ∧ Combat.combat_log s1 = Combat.combat_log s.
Proof.
  intros Hheal [Hp He]. cbn zeta.
  unfold Combat._use_consumable_item, Combat.hp_in_bounds.
  destruct (item_heal_amount item) as [amount|] eqn:Ha;
    [pose proof (Hheal amount eq_refl)|];
    destruct (item_focus_restore item); simpl; split_and!; done || lia.
Qed.

Lemma end_turn_log s :
  ∃ lines, Combat.combat_log (Combat._end_turn s)
           = Combat.combat_log s ++ lines.
Proof.
  unfold Combat._end_turn, Combat._handle_victory. cbn zeta.
  repeat (case_match || case_decide); simpl;
    rewrite <-?app_assoc; try by eexists.
  exists []. by rewrite app_nil_r.
Qed.

(** A call on the engine either is rejected and returns the state it
    was given, or logs one line for the resolved action and ends the
    turn, once, on an active state with both hp within their bounds. *)
Lemma perform_completes rng r s message s' :
  Combat.hp_in_bounds s → Combat.items_heal s →
  Combat.perform rng r s = Some (message, s') →
  s' = s
  ∨ ∃ mid line,
      s' = Combat._end_turn mid
      ∧ Combat.hp_in_bounds mid
      ∧ Combat.combat_active mid = true
      ∧ Combat.current_turn mid = Combat.current_turn s
      ∧ Combat.combat_log mid = Combat.combat_log s ++ [line].
Proof.
  intros [Hp He] Hitems H.
  destruct r as [|ability_name|item_name'|]; simpl in H.
  - unfold Combat.player_attack in H.
    destruct (Combat.is_player_turn s) as [[]|] eqn:Hturn; simplify_eq/=;
      [|by left].
    apply is_player_turn_active in Hturn.
    pose proof (Enemy_take_damage_hp_bounds rng
                  (Player.attack (Combat.player s)) _ He) as He'.
    destruct (Enemy.take_damage _ _ _) as [actual e]. simplify_eq/=.
    right. eexists _, _. split; [done|]. by split_and!.
  - unfold Combat.player_use_ability in H.
    destruct (Combat.is_player_turn s) as [[]|] eqn:Hturn; simplify_eq/=;
      [|by left].
    apply is_player_turn_active in Hturn.
    destruct (Combat.abilities !! ability_name) as [ability|] eqn:Hab;
      simplify_eq/=; [|by left].
    unfold Player.spend_focus in H.
    destruct (decide (focus_cost ability ≤ Player.focus (Combat.player s)));
      simplify_eq/=; [|left; by destruct s].
    repeat case_decide.
    + destruct (heal_amount ability) as [amount|] eqn:Ha; simplify_eq/=.
      assert (amount = 25) as ->.
      { vm_compute in Hab. by simplify_eq/=. }
      right. eexists _, _. split; [done|].
      split_and!; try done. split; simpl; [lia|done].
    + simplify_eq/=. right. eexists _, _. split; [done|]. by split_and!.
    + destruct (damage_multiplier ability); simplify_eq/=.
      destruct (PyFloat.scale _ _) as [damage|]; simplify_eq/=.
      pose proof (Enemy_take_damage_hp_bounds rng damage _ He) as He'.
      destruct (Enemy.take_damage _ _ _) as [actual e]. simplify_eq/=.
      right. eexists _, _. split; [done|]. by split_and!.
  - unfold Combat.player_use_item in H.
    destruct (Combat.is_player_turn s) as [[]|] eqn:Hturn; simplify_eq/=;
      [|by left].
    apply is_player_turn_active in Hturn.
    destruct (Combat.find_consumable _ _) as [item|] eqn:Hfind;
      simplify_eq/=; [|by left].
    apply find_consumable_elem_of in Hfind.
    destruct (use_consumable_item_frame item s) as ([Hp1 He1] & Ha & Ht & Hl);
      [by intros; eapply Hitems|done|].
    destruct (Combat._use_consumable_item item s) as [result s1].
    simplify_eq/=. right. eexists _, _. split; [done|].
    rewrite <-Hl, <-Ht, <-Ha in *.
    destruct (item_stackable item); simpl; split_and!; try done;
      by split.
  - unfold Combat.enemy_turn in H.
    destruct (Combat.get_current_turn s) as [turn|] eqn:Hturn; simplify_eq/=.
    destruct (decide (turn ≠ "enemy")) as [Hne|Hne]; simplify_eq/=;
      [by left|].
    apply dec_stable in Hne. subst turn.
    apply get_current_turn_active in Hturn; [|done].
    destruct (Enemy.choose_action _ _ _ _ _) as [[action e]|] eqn:Hch;
      simplify_eq/=.
    apply Enemy_choose_action_hp in Hch as [Hh Hm].
    assert (0 ≤ Enemy.hp e ≤ Enemy.max_hp e) as He1 by lia.
    destruct (action !! "type") as [type|]; simplify_eq/=.
    repeat case_decide.
    + destruct (Enemy.get_effective_attack e); simplify_eq/=.
      right. eexists _, _. split; [done|].
      split_and!; try done. split; simpl; [lia|done].
    + destruct (action !! "name") as [ability_name|]; simplify_eq/=.
      destruct (Enemy.use_ability _ _) as [[[result damage] e1]|] eqn:Hu;
        simplify_eq/=.
      apply Enemy_use_ability_hp_bounds in Hu; [|done]. simpl in Hu.
      case_decide; simplify_eq/=; right; eexists _, _; (split; [done|]);
        split_and!; try done; split; simpl; done || lia.
    + simplify_eq/=. right. eexists _, _. split; [done|].
      by split_and!.
Qed.

End ActionFacts.

(** Claim C1.  Every call on the engine (attack, ability, item, enemy
    turn) made with both hp within [0, max_hp] and with no item that
    heals a negative amount either is rejected, returning the state it
    was given, or is completed: the log has grown, and the termination
    check has run once on the resolved action: both hp are still
    non-negative; if the protagonist's hp is 0 the encounter is
    concluded, with the adversary as winner unless the adversary's hp is
    0 as well, which is a draw; if only the adversary's hp is 0 the
    encounter is concluded with the protagonist as winner, whatever the
    turn queue and the turn counter; in these three cases the turn
    counter stays; otherwise the encounter stays active, has no winner,
    and the turn counter is one higher than before the call. *)
Theorem completed_action_termination (rng : Rng) (r : Combat.Request)
    (s : Combat.t) (message : string) (s' : Combat.t) :
  Combat.hp_in_bounds s → Combat.items_heal s →
  Combat.perform rng r s = Some (message, s') →
  s' = s
  ∨ ((∃ line lines,
        Combat.combat_log s' = Combat.combat_log s ++ line :: lines)
     ∧ Combat.termination_evaluated (Combat.current_turn s) s').
Proof.
  intros Hb Hi H.
  destruct (perform_completes _ _ _ _ _ Hb Hi H)
    as [->|(mid & line & -> & Hmid & Hact & <- & Hlog)]; [by left|].
  right. split.
  - destruct (end_turn_log mid) as [lines ->]. rewrite Hlog.
    exists line, lines. by rewrite <-app_assoc.
  - by apply end_turn_outcome.
Qed.

(** ** The steam golem, the flee handler, and the inputs on which
    claims fail as stated *)

(** Claim C3, where the code fails it.  On its first turn the steam
    golem of tests/test_models.py selects the ability "steam_blast",
    which is not in its catalog and does not pass [can_use_ability] in
    the state of the selection; the engine then spends the adversary's
    turn on the refusal "G cannot use steam_blast!". *)
Theorem steam_golem_selects_unusable_ability :
  ∃ e',
    Enemy.choose_action Samples.rng_low 100 5 5 Samples.golem
    = Some (ability_action "steam_blast", e')
    ∧ Enemy.can_use_ability "steam_blast" e' = false
    ∧ ¬ Enemy.selects_usable (ability_action "steam_blast") e'
    ∧ fst <$> Combat.enemy_turn Samples.rng_low Samples.golem_duel
      = Some "G cannot use steam_blast!".
Proof.
  eexists. split; [by vm_compute|].
  split; [by vm_compute|]. split; [|by vm_compute].
  intros [H|(ability & H & Hc)].
  - by vm_compute in H.
  - assert (ability = "steam_blast") as ->.
    { assert (ability_action "steam_blast" !! "name"
              = ability_action ability !! "name") as Hn by by rewrite H.
      unfold ability_action in Hn. rewrite !lookup_insert_eq in Hn.
      by simplify_eq. }
    by vm_compute in Hc.
Qed.

(** Claim C7, amended.  Fleeing is an exit of the application, not a
    transition of the combat core: whenever a combat window is open, the
    flee handler returns, discards the window and the engine without
    calling the engine or determining a winner, and keeps the player as
    the engine left it; the engine itself reports no outcome "fled":
    its winner is none, "player", "enemy" or "draw". *)
Theorem flee_is_an_application_exit (app : App.t) (gui : list string) :
  App.combat_gui app = Some gui →
  App._combat_flee app
  = Some (App.mk (from_option Combat.player (App.player app)
                    (App.combat_engine app)) None None)
  ∧ ∀ s, Combat.get_winner s = None ∨ Combat.get_winner s = Some "player"
         ∨ Combat.get_winner s = Some "enemy"
         ∨ Combat.get_winner s = Some "draw".
Proof.
  intros Hgui. split.
  - unfold App._combat_flee. rewrite Hgui. done.
  - intros s. unfold Combat.get_winner. repeat case_match; auto.
Qed.

(** Claim C7 as stated fails: the sample duel is active, and no
    transition of the engine's state can give it the outcome "fled". *)
Lemma no_flee_in_the_combat_core :
  Combat.combat_active Samples.duel = true
  ∧ ¬ Claimed.core_has_flee.
Proof.
  split; [done|]. intros [flee Hflee].
  specialize (Hflee Samples.duel eq_refl).
  unfold Combat.get_winner in Hflee. repeat case_match; done.
Qed.

(** Claim C2 as stated fails for the armored adversary: 10 damage on
    the sentinel (defense 1) is not [max(1, 10 - 1)]. *)
Lemma sentinel_armor_lowers_damage :
  (Enemy.take_damage Samples.rng_low 10 Samples.sentinel).1
  ≠ Z.max 1 (10 - Enemy.defense Samples.sentinel).
Proof. by vm_compute. Qed.

(** Claim C4 as stated fails for a poison on its last turn: the tick
    removes it without any loss of hp and without a line in the log. *)
Lemma last_turn_poison_is_silent :
  ¬ Claimed.poison_acts_on_every_tick Samples.poisoned_duel
  ∧ ¬ Claimed.expiry_is_logged Samples.poisoned_duel.
Proof.
  split; intros H.
  - specialize (H 1 eq_refl eq_refl). by vm_compute in H.
  - by apply (H "poisoned" 1 eq_refl eq_refl).
Qed.


(** Claim C9 as stated fails for the veteran: the list returned holds
    "Crystal Master" besides the two satisfied bonus predicates, and
    the victory is complete where the bonus predicates alone give a
    standard one. *)
Lemma crystal_master_counts_as_an_achievement :
  let r := Victory.check_victory_conditions Victory.init Samples.veteran in
  r = (true, "complete", ["Crystal Master"; "Warrior"; "Tactical Genius"])
  ∧ r.2 ≠ Claimed.achievements Samples.veteran
  ∧ r.1.2 ≠ Claimed.victory_type Samples.veteran.
Proof. cbn zeta. split_and!; by vm_compute. Qed.

(** ** The theorems at sample inputs *)

Lemma duel_wf : Combat.wf Samples.duel.
Proof.
  split; (split; [by vm_compute|]); apply NoDup_nil_2.
Qed.

Lemma venom_duel_wf : Combat.wf Samples.venom_duel.
Proof.
  split; (split; [by vm_compute|]);
    [apply NoDup_singleton | apply NoDup_nil_2].
Qed.

Lemma completed_action_termination_witness :
  Combat.hp_in_bounds Samples.duel
  ∧ Combat.items_heal Samples.duel
  ∧ ∃ s',
      Combat.perform Samples.rng_low Combat.ReqAttack Samples.duel
      = Some ("⚔️ Hero attacks Brute for 9 damage!", s')
      ∧ Combat.get_winner s' = None
      ∧ Combat.current_turn s' = 1.
Proof.
  assert (Combat.hp_in_bounds Samples.duel) as Hb by (split; by vm_compute).
  assert (Combat.items_heal Samples.duel) as Hi.
  { intros item amount Hin. by apply elem_of_nil in Hin. }
  split; [exact Hb|]. split; [exact Hi|].
  eexists. split; [by vm_compute|].
  edestruct (completed_action_termination Samples.rng_low Combat.ReqAttack
               Samples.duel) as [Hs|[_ (_ & _ & _ & _ & _ & H)]];
    [exact Hb | exact Hi | by vm_compute | by vm_compute in Hs |].
  destruct H as (_ & Hw & Ht); [split; by vm_compute|]. by split.
Defined.

Lemma end_turn_ticks_status_effects_witness :
  Combat.wf Samples.venom_duel
  ∧ Dict.get "poisoned"
      (Player.status_effects
         (Combat.player (Combat._end_turn Samples.venom_duel))) = Some 2
  ∧ Player.hp (Combat.player (Combat._end_turn Samples.venom_duel)) = 99.
Proof.
  split; [exact venom_duel_wf|].
  destruct (end_turn_ticks_status_effects Samples.venom_duel venom_duel_wf)
    as (Hp & _ & Hhp & _).
  split; [by rewrite Hp|]. by rewrite (Hhp 3 eq_refl eq_refl).
Defined.

Lemma insufficient_focus_is_rejected_witness :
  Combat.abilities !! "power_strike"
  = Some (mkPlayerAbility 2 (Some PyFloat.c1_5) None "🔥 Devastating strike")
  ∧ Player.focus (Combat.player Samples.weary_duel) < 2
  ∧ Combat.is_player_turn Samples.weary_duel = Some true
  ∧ Combat.player_use_ability Samples.rng_low "power_strike"
      Samples.weary_duel
    = Some ("❌ Not enough focus! Need 2, have 1", Samples.weary_duel).
Proof.
  split; [reflexivity|]. split; [by vm_compute|]. split; [reflexivity|].
  apply (insufficient_focus_is_rejected Samples.rng_low "power_strike"
           (mkPlayerAbility 2 (Some PyFloat.c1_5) None "🔥 Devastating strike")
           Samples.weary_duel true);
    [reflexivity | by vm_compute | reflexivity].
Defined.

Lemma flee_is_an_application_exit_witness :
  App.combat_gui Samples.app_in_combat = Some []
  ∧ App._combat_flee Samples.app_in_combat
    = Some (App.mk Samples.hero None None).
Proof.
  split; [reflexivity|].
  by destruct (flee_is_an_application_exit Samples.app_in_combat [] eq_refl)
    as [-> _].
Defined.

(** On an adversary turn the adversary's effects are ticked twice, once
    by [choose_action] and once by [_end_turn]: a counter of 3 is at 1
    after the turn. *)
Example enemy_turn_ticks_adversary_effects_twice :
  (Enemy.status_effects ∘ Combat.enemy ∘ snd)
    <$> Combat.enemy_turn Samples.rng_high Samples.guarded_duel
  = Some [("defensive", 1)].
Proof. by vm_compute. Qed.

(** The turn on which the steam golem releases its pressure returns
    before the cooldowns are ticked. *)
Example steam_release_skips_the_cooldown_tick :
  (Enemy.ability_cooldowns ∘ snd)
    <$> Enemy.choose_action Samples.rng_high 100 5 5 Samples.charged_golem
  = Some {[ "power_strike" := 2 ]}.
Proof. by vm_compute. Qed.

Lemma take_damage_by_class_witness :
  (Enemy.take_damage Samples.rng_low 10 Samples.sentinel).1 = 7
  ∧ Enemy.hp (Enemy.take_damage Samples.rng_low 10 Samples.sentinel).2 = 43.
Proof.
  destruct (take_damage_by_class 10) as [_ H].
  destruct (H Samples.rng_low Samples.sentinel) as (Ha & _ & Hhp & _).
  split; [by rewrite Ha|]. rewrite Hhp; [by rewrite Ha|by rewrite Ha].
Defined.


Lemma turn_order_by_speed_witness :
  Combat.turn_queue (Combat._setup_turn_order Samples.rng_low Samples.duel)
  = ["player"; "enemy"]
  ∧ Combat.turn_queue (Combat._setup_turn_order Samples.rng_high Samples.tied_duel)
    = ["player"; "enemy"]
  ∧ Combat.turn_queue (Combat._setup_turn_order Samples.rng_low Samples.tied_duel)
    = ["enemy"; "player"].
Proof.
  split_and!.
  - destruct (turn_order_by_speed Samples.rng_low Samples.duel)
      as (_ & H & _). by apply H.
  - destruct (turn_order_by_speed Samples.rng_high Samples.tied_duel)
      as (_ & _ & _ & H). by destruct (H eq_refl) as (H1 & _); apply H1.
  - destruct (turn_order_by_speed Samples.rng_low Samples.tied_duel)
      as (_ & _ & _ & H). by destruct (H eq_refl) as (_ & H0 & _); apply H0.
Defined.

Lemma check_victory_conditions_result_witness :
  Victory.check_victory_conditions Victory.init Samples.champion
  = (true, "complete",
     ["Crystal Master"; "Explorer"; "Warrior"; "Untouchable";
      "Tactical Genius"; "Thorough Explorer"]).
Proof.
  destruct (check_victory_conditions_result Samples.champion)
    as (_ & Ha & _ & H).
  destruct H as (Hw & Ht & _); [done|done|done|done|].
  destruct (Victory.check_victory_conditions Victory.init Samples.champion)
    as [[has_won victory_type] achievements].
  simpl in *. subst. by vm_compute.
Defined.

Lemma total_damage_taken_accounting_witness :
  Dict.get "poisoned"
    (Player.status_effects (Combat.player Samples.venom_duel)) = Some 3
  ∧ Player.total_damage_taken
      (Combat.player (Combat._end_turn Samples.venom_duel)) = 1
  ∧ "Untouchable"
    ∉ (Victory.check_victory_conditions Victory.init
         (Combat.player (Combat._end_turn Samples.venom_duel))).2.
Proof.
  destruct total_damage_taken_accounting as (_ & Htick & _ & _ & Hpoison).
  split; [reflexivity|]. split.
  - rewrite end_turn_total_damage_taken, Htick by apply venom_duel_wf. done.
  - apply (Hpoison 3 [] Samples.venom_duel); try done.
    apply venom_duel_wf.
Defined.

(** ** What a call on the engine leaves alone *)

Section FrameFacts.

Implicit Types (s : Combat.t) (p : Player.t) (e : Enemy.t).

Lemma Player_foldl_ongoing_keeps {A} (f : Player.t → A) p items :
  (∀ q item, f (Player.ongoing q item) = f q) →
  f (foldl Player.ongoing p items) = f p.
Proof.
  intros Hf. revert p. induction items as [|item items IH]; intros p; [done|].
  simpl. by rewrite IH, Hf.
Qed.

Lemma Player_update_status_effects_kept p :
  Frame.Player_kept p (Player.update_status_effects p).
Proof.
  destruct (Player_update_status_effects_pools p) as [d ->].
  unfold Frame.Player_kept, Frame.Player_fixed. simpl.
  split_and!; apply Player_foldl_ongoing_keeps; intros q item;
    unfold Player.ongoing; by repeat case_decide.
Qed.

Lemma Enemy_update_status_effects_fixed e :
  let e' := Enemy._update_status_effects e in
  Frame.Enemy_fixed e e' ∧ Enemy.hp e' = Enemy.hp e
  ∧ Enemy.focus e' = Enemy.focus e.
Proof.
  cbn zeta. unfold Enemy._update_status_effects, Frame.Enemy_fixed.
  by destruct (foldl Enemy.update_one _ _).
Qed.

(** The player and the enemy that [_end_turn] leaves. *)
Lemma end_turn_player s :
  let p := Player.update_status_effects (Combat.player s) in
  Combat.player (Combat._end_turn s)
  = if Player.is_alive p && negb (Enemy.is_alive (Combat.enemy s)) then
      Player.set_enemies_defeated (Player.enemies_defeated p + 1) p
    else p.
Proof.
  cbn zeta. unfold Combat._end_turn, Combat._handle_victory. cbn zeta.
  cbn [Combat.player Combat.enemy Combat.set_player Combat.set_enemy].
  assert (Enemy.is_alive (Enemy._update_status_effects (Combat.enemy s))
          = Enemy.is_alive (Combat.enemy s)) as ->.
  { unfold Enemy.is_alive. by rewrite Enemy_update_status_effects_hp. }
  destruct (Player.is_alive _), (Enemy.is_alive _); simpl; try done.
  by case_decide.
Qed.

Lemma end_turn_turn_queue s :
  Combat.turn_queue (Combat._end_turn s) = Combat.turn_queue s.
Proof.
  unfold Combat._end_turn, Combat._handle_victory. cbn zeta.
  repeat (case_match || case_decide); done.
Qed.

Lemma end_turn_kept s :
  Frame.Player_kept (Combat.player s)
    (Player.set_enemies_defeated
       (Player.enemies_defeated (Combat.player s))
       (Combat.player (Combat._end_turn s)))
  ∧ Frame.Enemy_fixed (Combat.enemy s) (Combat.enemy (Combat._end_turn s))
  ∧ Enemy.hp (Combat.enemy (Combat._end_turn s)) = Enemy.hp (Combat.enemy s)
  ∧ Enemy.focus (Combat.enemy (Combat._end_turn s))
    = Enemy.focus (Combat.enemy s).
Proof.
  rewrite end_turn_player, end_turn_enemy. cbn zeta.
  split; [|apply Enemy_update_status_effects_fixed].
  pose proof (Player_update_status_effects_kept (Combat.player s)) as Hk.
  unfold Frame.Player_kept, Frame.Player_fixed in *.
  destruct (_ && _); simpl; naive_solver.
Qed.

Lemma get_ability_focus_cost_pos ability :
  1 ≤ Enemy._get_ability_focus_cost ability.
Proof.
  unfold Enemy._get_ability_focus_cost, Enemy.costs. simpl.
  rewrite !lookup_insert. repeat case_decide; simpl; try lia.
  rewrite lookup_empty. simpl. lia.
Qed.

Lemma Enemy_take_damage_frame rng damage e :
  let r := Enemy.take_damage rng damage e in
  Frame.Enemy_fixed e r.2
  ∧ Enemy.focus r.2 = Enemy.focus e
  ∧ 0 ≤ r.1
  ∧ Enemy.hp e - Enemy.hp r.2 ≤ r.1.
Proof.
  cbn zeta. unfold Enemy.take_damage, Enemy.Enemy_take_damage,
    Frame.Enemy_fixed.
  repeat case_match; simpl; split_and!; done || lia.
Qed.

Lemma Enemy_choose_action_frame rng php pdef pfoc e action e' :
  Enemy.choose_action rng php pdef pfoc e = Some (action, e') →
  Frame.Enemy_fixed e e' ∧ Enemy.hp e' = Enemy.hp e
  ∧ Enemy.focus e' = Enemy.focus e.
Proof.
  assert (∀ e0, Enemy.Enemy_choose_action rng php pdef pfoc e0
                = Some (action, e') →
                Frame.Enemy_fixed e0 e' ∧ Enemy.hp e' = Enemy.hp e0
                ∧ Enemy.focus e' = Enemy.focus e0) as Hbase.
  { intros e0 H. rewrite (Enemy_choose_action_state _ _ _ _ _ _ _ H).
    apply (Enemy_update_status_effects_fixed
             (Enemy.set_ability_cooldowns _ e0)). }
  unfold Enemy.choose_action. intros H.
  destruct (Enemy.kind e) eqn:Hk; try by apply Hbase.
  case_decide; [by simplify_eq|]. by apply Hbase in H.
Qed.

Lemma Enemy_use_ability_frame ability e r :
  Enemy.use_ability ability e = Some r →
  Frame.Enemy_fixed e r.2
  ∧ Enemy.focus r.2 ≤ Enemy.focus e
  ∧ (0 ≤ Enemy.focus e → 0 ≤ Enemy.focus r.2)
  ∧ (Enemy.hp e ≤ Enemy.max_hp e → Enemy.hp e ≤ Enemy.hp r.2).
Proof.
  unfold Enemy.use_ability. cbn zeta. intros H.
  destruct (Enemy.can_use_ability ability e) eqn:Hc;
    [|simplify_eq/=; unfold Frame.Enemy_fixed; split_and!; done || lia].
  assert (Enemy._get_ability_focus_cost ability ≤ Enemy.focus e) as Hcost.
  { unfold Enemy.can_use_ability in Hc.
    repeat (case_match || case_decide); try done;
      by apply bool_decide_eq_true in Hc. }
  pose proof (get_ability_focus_cost_pos ability) as Hpos.
  unfold Enemy._execute_ability, Enemy.heal, Frame.Enemy_fixed in *.
  cbn zeta in H.
  repeat case_decide; simplify_option_eq; simpl; split_and!; done || lia.
Qed.

Lemma remove_first_sublist name inv :
  Player.remove_first name inv `sublist_of` inv.
Proof.
  induction inv as [|item inv IH]; simpl; [done|].
  case_decide; [by apply sublist_cons|by apply sublist_skip].
Qed.

Lemma items_restore_sublist inv inv' :
  inv' `sublist_of` inv → Frame.items_restore inv → Frame.items_restore inv'.
Proof.
  intros Hsub Hi item amount Hin. apply Hi.
  by eapply elem_of_sublist.
Qed.

End FrameFacts.

Section ResolutionFacts.

Implicit Types (s : Combat.t) (p : Player.t) (e : Enemy.t).

Lemma is_player_turn_true s :
  Combat.is_player_turn s = Some true →
  Combat.get_current_turn s = Some "player".
Proof.
  unfold Combat.is_player_turn. intros H.
  apply bind_Some in H as (turn & Ht & [= Hb]).
  by apply bool_decide_eq_true in Hb as ->.
Qed.

Lemma set_player_id s : Combat.set_player (Combat.player s) s = s.
Proof. by destruct s. Qed.

Lemma use_consumable_item_resolved item s :
  let s1 := (Combat._use_consumable_item item s).2 in
  Combat.combat_active s1 = Combat.combat_active s
  ∧ Combat.current_turn s1 = Combat.current_turn s
  ∧ Combat.turn_queue s1 = Combat.turn_queue s
  ∧ Combat.combat_log s1 = Combat.combat_log s
  ∧ Combat.enemy s1 = Combat.enemy s
  ∧ Frame.Player_fixed (Combat.player s) (Combat.player s1)
  ∧ Player.enemies_defeated (Combat.player s1)
    = Player.enemies_defeated (Combat.player s)
  ∧ Player.inventory (Combat.player s1) = Player.inventory (Combat.player s)
  ∧ Player.total_damage_dealt (Combat.player s1)
    = Player.total_damage_dealt (Combat.player s)
  ∧ ((∀ amount, item_heal_amount item = Some amount → 0 ≤ amount) →
     (∀ amount, item_focus_restore item = Some amount → 0 ≤ amount) →
     Frame.pools_in_bounds s → Frame.pools_in_bounds s1).
Proof.
  cbn zeta.
  unfold Combat._use_consumable_item, Frame.pools_in_bounds,
    Frame.Player_fixed.
  destruct (item_heal_amount item) as [amount|] eqn:Ha;
    destruct (item_focus_restore item) as [amount'|] eqn:Hf; simpl;
    split_and!; try done; intros Hh Hr;
    try (pose proof (Hh _ eq_refl)); try (pose proof (Hr _ eq_refl)); lia.
Qed.

Ltac feed_lia :=
  repeat match goal with
         | H : (?P → _) |- _ =>
             let HP := fresh in
             assert P as HP by lia; specialize (H HP); clear HP
         end;
  destruct_and?.

Ltac resolved_tac :=
  right; eexists; (split; [done|]);
  unfold Frame.resolved, Frame.pools_in_bounds, Frame.Player_fixed,
    Frame.Enemy_fixed in *; simpl in *;
  destruct_and?;
  split_and!;
  first [ done | lia | by eexists | congruence | by left
        | (intros; destruct_and?; feed_lia; split_and!; lia) ].

(** A call on the engine either returns the state it was given, or
    resolves the request into a state [mid] and ends the turn. *)
Lemma perform_resolves rng r s message s' :
  Combat.perform rng r s = Some (message, s') →
  s' = s ∨ ∃ mid, s' = Combat._end_turn mid ∧ Frame.resolved r s mid.
Proof.
  intros H.
  destruct r as [|ability_name|item_name'|]; simpl in H.
  - unfold Combat.player_attack in H.
    destruct (Combat.is_player_turn s) as [[]|] eqn:Hturn; simplify_eq/=;
      [|by left].
    pose proof (is_player_turn_active _ Hturn) as Hact.
    apply is_player_turn_true in Hturn.
    pose proof (Enemy_take_damage_frame rng
                  (Player.attack (Combat.player s)) (Combat.enemy s)) as Hf.
    pose proof (Enemy_take_damage_hp_bounds rng
                  (Player.attack (Combat.player s)) (Combat.enemy s)) as Hb.
    cbn zeta in Hf, Hb.
    destruct (Enemy.take_damage _ _ _) as [actual e]. simplify_eq/=.
    resolved_tac.
  - unfold Combat.player_use_ability in H.
    destruct (Combat.is_player_turn s) as [[]|] eqn:Hturn; simplify_eq/=;
      [|by left].
    pose proof (is_player_turn_active _ Hturn) as Hact.
    apply is_player_turn_true in Hturn.
    destruct (Combat.abilities !! ability_name) as [ability|] eqn:Hab;
      simplify_eq/=; [|by left].
    assert (1 ≤ focus_cost ability) as Hcost.
    { apply elem_of_list_to_map_2 in Hab.
      repeat (apply elem_of_cons in Hab as [Hab|Hab]; [simplify_eq/=; lia|]).
      by apply elem_of_nil in Hab. }
    unfold Player.spend_focus in H.
    destruct (decide (focus_cost ability ≤ Player.focus (Combat.player s)));
      simplify_eq/=; [|left; by destruct s].
    repeat case_decide.
    + destruct (heal_amount ability) as [amount|] eqn:Ha; simplify_eq/=.
      assert (amount = 25) as ->.
      { vm_compute in Hab. by simplify_eq/=. }
      resolved_tac.
    + simplify_eq/=. resolved_tac.
    + destruct (damage_multiplier ability); simplify_eq/=.
      destruct (PyFloat.scale _ _) as [damage|]; simplify_eq/=.
      pose proof (Enemy_take_damage_frame rng damage (Combat.enemy s)) as Hf.
      pose proof (Enemy_take_damage_hp_bounds rng damage (Combat.enemy s))
        as Hb.
      cbn zeta in Hf, Hb.
      destruct (Enemy.take_damage _ _ _) as [actual e]. simplify_eq/=.
      resolved_tac.
  - unfold Combat.player_use_item in H.
    destruct (Combat.is_player_turn s) as [[]|] eqn:Hturn; simplify_eq/=;
      [|by left].
    pose proof (is_player_turn_active _ Hturn) as Hact.
    apply is_player_turn_true in Hturn.
    destruct (Combat.find_consumable _ _) as [item|] eqn:Hfind;
      simplify_eq/=; [|by left].
    pose proof Hfind as Hfound.
    apply find_consumable_elem_of in Hfind.
    pose proof (use_consumable_item_resolved item s) as Hu. cbn zeta in Hu.
    destruct (Combat._use_consumable_item item s) as [result s1].
    simpl in Hu.
    destruct Hu as (Ha & Ht & Hq & Hl & He & Hfix & Hd & Hi & Htd & Hpools).
    pose proof (remove_first_sublist item_name'
                  (Player.inventory (Combat.player s1))) as Hsub.
    simplify_eq/=. right. eexists. split; [done|].
    unfold Frame.resolved.
    assert (Frame.pools_in_bounds s →
            Frame.items_restore (Player.inventory (Combat.player s)) →
            Frame.pools_in_bounds s1) as Hpools'.
    { intros Hb Hitems. apply Hpools; [| |done]; intros amount ?;
        destruct (Hitems item amount) as [? ?]; auto; congruence. }
    clear Hpools.
    unfold Frame.Player_fixed, Frame.Enemy_fixed in *.
    destruct (item_stackable item) eqn:Hstack; simpl;
      rewrite ?He, ?Hq, ?Ht, ?Hl, ?Hd, ?Htd, <-?Hi;
      destruct_and?;
      split_and!;
      first [ done | lia | by eexists | congruence | by left
            | (rewrite ?Hi; intros Hb Hitems; specialize (Hpools' Hb Hitems);
               unfold Frame.pools_in_bounds in *; simpl in *; done)
            | (right; exists item_name', item; by rewrite Hi) ].
  - unfold Combat.enemy_turn in H.
    destruct (Combat.get_current_turn s) as [turn|] eqn:Hturn; simplify_eq/=.
    destruct (decide (turn ≠ "enemy")) as [Hne|Hne]; simplify_eq/=;
      [by left|].
    apply dec_stable in Hne. subst turn.
    pose proof (get_current_turn_active _ _ Hturn) as Hact.
    specialize (Hact ltac:(done)).
    destruct (Enemy.choose_action _ _ _ _ _) as [[action e]|] eqn:Hch;
      simplify_eq/=.
    apply Enemy_choose_action_frame in Hch as (Hfix & Hh & Hfo).
    destruct (action !! "type") as [type|]; simplify_eq/=.
    repeat case_decide.
    + destruct (Enemy.get_effective_attack e); simplify_eq/=.
      resolved_tac.
    + destruct (action !! "name") as [ability_name|]; simplify_eq/=.
      destruct (Enemy.use_ability _ _) as [[[result damage] e1]|] eqn:Hu;
        simplify_eq/=.
      pose proof (λ Hb, Enemy_use_ability_hp_bounds _ _ _ Hb Hu) as Hb1.
      apply Enemy_use_ability_frame in Hu as (Hfix1 & Hfo1 & Hfo2 & Hh1).
      simpl in *.
      case_decide; simplify_eq/=; resolved_tac.
    + simplify_eq/=. resolved_tac.
Qed.
End ResolutionFacts.

Section ScriptFacts.

Implicit Types (s : Combat.t) (script : list (Rng * Combat.Request)).

Lemma perform_refused rng r s turn :
  Combat.get_current_turn s = Some turn → turn ≠ Frame.requester r →
  Combat.perform rng r s = Some (Frame.refusal r, s).
Proof.
  intros Ht Hne.
  destruct r; simpl in *;
    unfold Combat.player_attack, Combat.player_use_ability,
      Combat.player_use_item, Combat.enemy_turn, Combat.is_player_turn;
    rewrite Ht; simpl;
    rewrite ?bool_decide_eq_false_2 by done; try done.
  by rewrite decide_True.
Qed.

Lemma run_concluded script s :
  Combat.combat_active s = false → Combat.run script s = Some s.
Proof.
  intros Hact. induction script as [|[rng r] script IH]; [done|].
  simpl. rewrite (perform_refused rng r s "none"); [done| |by destruct r].
  unfold Combat.get_current_turn. by rewrite Hact.
Qed.

Lemma end_turn_active s :
  Combat.combat_active (Combat._end_turn s) = true →
  Combat.combat_active s = true
  ∧ Combat.current_turn (Combat._end_turn s) = Combat.current_turn s + 1
  ∧ Combat.combat_log (Combat._end_turn s) = Combat.combat_log s.
Proof.
  unfold Combat._end_turn, Combat._handle_victory. cbn zeta.
  repeat (case_match || case_decide); simpl; done.
Qed.

Lemma end_turn_pools s :
  Frame.pools_in_bounds s → Frame.pools_in_bounds (Combat._end_turn s).
Proof.
  intros (Hp & Hf & He & Hef).
  destruct (end_turn_kept s) as (Hk & Hfix & Hh & Hfo).
  pose proof (end_turn_player_hp s) as Hhp.
  pose proof (Player_update_status_effects_hp_bounds _ Hp) as Hb.
  pose proof (Player_update_status_effects_kept (Combat.player s)) as Hk'.
  unfold Frame.pools_in_bounds, Frame.Player_kept, Frame.Player_fixed,
    Frame.Enemy_fixed in *.
  simpl in *. destruct_and?. split_and!; lia.
Qed.

End ScriptFacts.

Section ScriptInduction.

Implicit Types (s : Combat.t) (script : list (Rng * Combat.Request)).

(** A reflexive and transitive relation that every call respects holds
    between the ends of every script. *)
Lemma run_respects (R : Combat.t → Combat.t → Prop) :
  (∀ s, R s s) →
  (∀ s1 s2 s3, R s1 s2 → R s2 s3 → R s1 s3) →
  (∀ rng r s message s',
     Combat.perform rng r s = Some (message, s') → R s s') →
  ∀ script s s', Combat.run script s = Some s' → R s s'.
Proof.
  intros Hrefl Htrans Hstep script.
  induction script as [|[rng r] script IH]; intros s s' Hrun.
  - simpl in Hrun. by simplify_eq.
  - simpl in Hrun. apply bind_Some in Hrun as ([m s1] & Hp & Hrun).
    eapply Htrans; [by eapply Hstep|by apply IH].
Qed.

Lemma perform_log rng r s message s' :
  Combat.perform rng r s = Some (message, s') →
  Combat.combat_log s `prefix_of` Combat.combat_log s'.
Proof.
  intros H. apply perform_resolves in H as [->|(mid & -> & Hres)]; [done|].
  destruct Hres as (_ & _ & _ & _ & [line Hl] & _).
  destruct (end_turn_log mid) as [lines ->]. rewrite Hl, <-app_assoc.
  by apply prefix_app_r.
Qed.

Lemma perform_fixed rng r s message s' :
  Combat.perform rng r s = Some (message, s') →
  Frame.Player_fixed (Combat.player s) (Combat.player s')
  ∧ Frame.Enemy_fixed (Combat.enemy s) (Combat.enemy s')
  ∧ Combat.turn_queue s' = Combat.turn_queue s.
Proof.
  intros H. apply perform_resolves in H as [->|(mid & -> & Hres)];
    [by unfold Frame.Player_fixed, Frame.Enemy_fixed|].
  destruct Hres as (_ & _ & _ & Hq & _ & Hp & He & _).
  destruct (end_turn_kept mid) as ([Hp' _] & He' & _).
  rewrite end_turn_turn_queue.
  unfold Frame.Player_fixed, Frame.Enemy_fixed in *. simpl in *.
  destruct_and?. split_and!; congruence.
Qed.

Lemma perform_pools rng r s message s' :
  Combat.perform rng r s = Some (message, s') →
  Frame.pools_in_bounds s
  ∧ Frame.items_restore (Player.inventory (Combat.player s)) →
  Frame.pools_in_bounds s'
  ∧ Frame.items_restore (Player.inventory (Combat.player s')).
Proof.
  intros H [Hb Hi].
  apply perform_resolves in H as [->|(mid & -> & Hres)]; [done|].
  destruct Hres
    as (_ & _ & _ & _ & _ & _ & _ & _ & Hsub & _ & _ & _ & Hpools & _).
  destruct (end_turn_kept mid) as ((_ & _ & Hinv & _) & _).
  simpl in Hinv. rewrite Hinv.
  split; [by apply end_turn_pools, Hpools|].
  by eapply items_restore_sublist.
Qed.

Lemma perform_enemy_focus rng r s message s' :
  Combat.perform rng r s = Some (message, s') →
  Enemy.focus (Combat.enemy s') ≤ Enemy.focus (Combat.enemy s).
Proof.
  intros H. apply perform_resolves in H as [->|(mid & -> & Hres)]; [done|].
  destruct Hres as (_ & _ & _ & _ & _ & _ & _ & _ & _ & Hf & _).
  destruct (end_turn_kept mid) as (_ & _ & _ & ->). done.
Qed.

Lemma perform_damage_dealt rng r s message s' :
  Combat.perform rng r s = Some (message, s') →
  0 ≤ Enemy.hp (Combat.enemy s) ≤ Enemy.max_hp (Combat.enemy s) →
  0 ≤ Enemy.hp (Combat.enemy s') ≤ Enemy.max_hp (Combat.enemy s')
  ∧ Player.total_damage_dealt (Combat.player s)
    ≤ Player.total_damage_dealt (Combat.player s')
  ∧ Enemy.hp (Combat.enemy s) - Enemy.hp (Combat.enemy s')
    ≤ Player.total_damage_dealt (Combat.player s')
      - Player.total_damage_dealt (Combat.player s).
Proof.
  intros H Hb. apply perform_resolves in H as [->|(mid & -> & Hres)]; [lia|].
  destruct Hres as (_ & _ & _ & _ & _ & _ & _ & _ & _ & _ & Hd & Hh & _).
  destruct (end_turn_kept mid)
    as ((_ & _ & _ & _ & Htd) & (_ & _ & _ & Hm & _) & -> & _).
  simpl in Htd. rewrite Htd, Hm. specialize (Hh Hb). lia.
Qed.

Lemma end_turn_credit mid :
  Combat.combat_active mid = true →
  Player.enemies_defeated (Combat.player (Combat._end_turn mid))
  = Player.enemies_defeated (Combat.player mid)
    + (if decide (Combat.get_winner (Combat._end_turn mid) = Some "player")
       then 1 else 0).
Proof.
  intros Hact.
  unfold Combat.get_winner, Combat.is_combat_over.
  rewrite end_turn_enemy, end_turn_player.
  assert (Enemy.is_alive (Enemy._update_status_effects (Combat.enemy mid))
          = Enemy.is_alive (Combat.enemy mid)) as ->.
  { unfold Enemy.is_alive. by rewrite Enemy_update_status_effects_hp. }
  cbn zeta.
  pose proof (Player_update_status_effects_kept (Combat.player mid))
    as (_ & _ & _ & Hk & _).
  set (p' := Player.update_status_effects (Combat.player mid)) in *.
  destruct (Player.is_alive p') eqn:Hpa,
    (Enemy.is_alive (Combat.enemy mid)) eqn:Hea; simpl.
  - rewrite Hpa. simpl.
    assert (Combat.combat_active (Combat._end_turn mid) = true) as ->.
    { unfold Combat._end_turn. cbn zeta.
      cbn [Combat.player Combat.enemy Combat.set_player Combat.set_enemy].
      fold p'. rewrite Hpa. simpl.
      assert (Enemy.is_alive
                (Enemy._update_status_effects (Combat.enemy mid)) = true)
        as -> by (unfold Enemy.is_alive in *;
                  by rewrite Enemy_update_status_effects_hp).
      done. }
    simpl. lia.
  - assert (Player.is_alive
              (Player.set_enemies_defeated (Player.enemies_defeated p' + 1) p')
            = true) as -> by exact Hpa.
    rewrite orb_true_r. simpl. lia.
  - rewrite Hpa, orb_true_r. simpl. lia.
  - rewrite Hpa, orb_true_r. simpl. lia.
Qed.

Lemma end_turn_active_alive s :
  Combat.combat_active (Combat._end_turn s) = true →
  Player.is_alive (Combat.player (Combat._end_turn s)) = true
  ∧ Enemy.is_alive (Combat.enemy (Combat._end_turn s)) = true.
Proof.
  unfold Combat._end_turn, Combat._handle_victory. cbn zeta.
  cbn [Combat.player Combat.enemy Combat.set_player Combat.set_enemy].
  destruct (Player.is_alive (Player.update_status_effects (Combat.player s)))
    eqn:Hp; simpl; [|done].
  destruct (Enemy.is_alive (Enemy._update_status_effects (Combat.enemy s)))
    eqn:He; simpl; [done|].
  by case_decide.
Qed.

(** A served call credits a victory, and only a victory; a call that
    leaves a winner leaves the encounter concluded. *)
Lemma perform_credit rng r s message s' :
  Combat.perform rng r s = Some (message, s') →
  s' = s
  ∨ Player.enemies_defeated (Combat.player s')
    = Player.enemies_defeated (Combat.player s)
      + (if decide (Combat.get_winner s' = Some "player") then 1 else 0)
    ∧ (Combat.get_winner s' ≠ None → Combat.combat_active s' = false).
Proof.
  intros H.
  apply perform_resolves in H as [->|(mid & -> & Hres)]; [by left|right].
  destruct Hres as (_ & Hact & _ & _ & _ & _ & _ & Hd & _).
  split; [by rewrite end_turn_credit, Hd|].
  intros Hw.
  destruct (Combat.combat_active (Combat._end_turn mid)) eqn:Hact'; [|done].
  destruct Hw. unfold Combat.get_winner, Combat.is_combat_over.
  destruct (end_turn_active_alive mid Hact') as [-> ->]. by rewrite Hact'.
Qed.

End ScriptInduction.

(** * Further properties of the encounter *)

(** X1.  Calls are served on their side's turn only.  A call made
    while the turn is not its side's (during the other side's turn, or
    after the conclusion, when the turn is "none") returns its refusal,
    "❌ Not your turn!" for the three player calls and the empty string
    for [enemy_turn], together with the state it was given; conversely
    a call that changes the state was made on its side's turn of an
    active encounter. *)
Theorem calls_are_served_on_their_turn (rng : Rng) (r : Combat.Request)
    (s : Combat.t) :
  (∀ turn,
     Combat.get_current_turn s = Some turn → turn ≠ Frame.requester r →
     Combat.perform rng r s = Some (Frame.refusal r, s))
  ∧ (∀ message s',
       Combat.perform rng r s = Some (message, s') → s' ≠ s →
       Combat.get_current_turn s = Some (Frame.requester r)
       ∧ Combat.combat_active s = true).
Proof.
  split.
  - intros turn. apply perform_refused.
  - intros message s' H Hne.
    apply perform_resolves in H as [->|(mid & -> & Hres)]; [done|].
    destruct Hres as (Hturn & _). split; [done|].
    apply (get_current_turn_active _ _ Hturn). by destruct r.
Qed.

(** X2.  A concluded encounter is final: once [combat_active] is
    false every sequence of calls returns, and leaves the state, hence
    both hp, the log and the winner, as they were. *)
Theorem concluded_encounter_is_final (script : list (Rng * Combat.Request))
    (s : Combat.t) :
  Combat.combat_active s = false → Combat.run script s = Some s.
Proof. apply run_concluded. Qed.

(** X3.  On the player's turn, an ability name outside the table of
    [player_use_ability] and an item name for which the inventory holds
    no consumable are refused with their message; the state, the turn
    included, is unchanged. *)
Theorem unknown_ability_or_item_is_refused (rng : Rng) (s : Combat.t) :
  Combat.is_player_turn s = Some true →
  (∀ ability_name,
     ability_name
       ∉ ["power_strike"; "defensive_stance"; "aether_blast"; "heal"] →
     Combat.player_use_ability rng ability_name s
     = Some ("❌ Unknown ability: " +:+ ability_name, s))
  ∧ (∀ name,
       (∀ item, item ∈ Player.inventory (Combat.player s) →
                item_name item = Some name →
                item_type item ≠ Some "consumable") →
       Combat.player_use_item name s
       = Some ("❌ " +:+ name +:+ " not found or not usable!", s)).
Proof.
  intros Hturn. split.
  - intros ability_name Hout. unfold Combat.player_use_ability.
    rewrite Hturn. simpl.
    assert (Combat.abilities !! ability_name = None) as ->; [|done].
    by apply not_elem_of_list_to_map_1.
  - intros name Hnone. unfold Combat.player_use_item. rewrite Hturn. simpl.
    assert (Combat.find_consumable name (Player.inventory (Combat.player s))
            = None) as ->; [|done].
    unfold Combat.find_consumable.
    destruct (filter _ _) as [|item items] eqn:Hf; [done|].
    assert (item ∈ filter
              (λ item, item_name item = Some name
                       ∧ item_type item = Some "consumable")
              (Player.inventory (Combat.player s))) as Hin
      by (rewrite Hf; left).
    apply list_elem_of_filter in Hin as [[Hn Ht] Hin].
    by destruct (Hnone item Hin Hn).
Qed.

(** X4.  The combat log is append-only: whatever the calls, the log
    before them is a prefix of the log after them. *)
Theorem combat_log_only_grows (script : list (Rng * Combat.Request))
    (s s' : Combat.t) :
  Combat.run script s = Some s' →
  Combat.combat_log s `prefix_of` Combat.combat_log s'.
Proof.
  apply (run_respects
           (λ s s', Combat.combat_log s `prefix_of` Combat.combat_log s')).
  - done.
  - intros s1 s2 s3 H1 H2. by etrans.
  - apply perform_log.
Qed.

Lemma two_sided_next (q : list string) (n : Z) (side : string) :
  q = ["player"; "enemy"] ∨ q = ["enemy"; "player"] →
  q !! Z.to_nat (n `mod` Z.of_nat (length q)) = Some side →
  q !! Z.to_nat ((n + 1) `mod` Z.of_nat (length q))
  = Some (Frame.opponent side).
Proof.
  intros Hq.
  assert (Z.of_nat (length q) = 2) as -> by by destruct Hq as [-> | ->].
  assert ((n + 1) `mod` 2 = 1 - n `mod` 2) as ->.
  { pose proof (Z.mod_pos_bound n 2 ltac:(lia)) as Hm.
    rewrite Z.add_mod by lia.
    destruct (decide (n `mod` 2 = 0)) as [->| ?]; [done|].
    by assert (n `mod` 2 = 1) as -> by lia. }
  pose proof (Z.mod_pos_bound n 2 ltac:(lia)) as Hm.
  remember (n `mod` 2) as m eqn:Em. clear Em.
  assert (m = 0 ∨ m = 1) as [-> | ->] by lia;
    destruct Hq as [-> | ->]; simpl; by intros [= <-].
Qed.

(** X5.  Turns alternate.  With the two-sided queue that
    [_setup_turn_order] builds, a call that is served and leaves the
    encounter active was made on its side's turn and hands the turn to
    the other side. *)
Theorem turn_passes_to_the_other_side (rng : Rng) (r : Combat.Request)
    (s : Combat.t) (message : string) (s' : Combat.t) :
  Frame.two_sided s →
  Combat.perform rng r s = Some (message, s') → s' ≠ s →
  Combat.combat_active s' = true →
  Combat.get_current_turn s = Some (Frame.requester r)
  ∧ Combat.get_current_turn s' = Some (Frame.opponent (Frame.requester r))
  ∧ Frame.two_sided s'.
Proof.
  intros Hq H Hne Hact.
  apply perform_resolves in H as [->|(mid & -> & Hres)]; [done|].
  destruct Hres as (Hturn & Hmid & Hct & Hqm & _).
  pose proof (end_turn_active _ Hact) as (_ & Hct' & _).
  pose proof (end_turn_turn_queue mid) as Hq'.
  split; [done|].
  assert (Frame.two_sided (Combat._end_turn mid)) as Hq2.
  { unfold Frame.two_sided in *. by rewrite Hq', Hqm. }
  split; [|done].
  assert (Combat.combat_active s = true) as Hs.
  { apply (get_current_turn_active _ _ Hturn). by destruct r. }
  unfold Combat.get_current_turn in *. rewrite Hs in Hturn.
  rewrite Hact, Hq', Hqm, Hct', Hct.
  assert (Combat.turn_queue s ≠ []) as Hne'
    by (destruct Hq as [-> | ->]; done).
  rewrite decide_False in * by done.
  by apply two_sided_next.
Qed.

(** X6.  An encounter assigns no stat: whatever the calls, the
    player's name, maximum hp, maximum focus, attack, defense, speed,
    visited rooms and crystals, the adversary's class, id, name,
    maximum hp, attack, defense, speed, maximum focus, abilities,
    policy and loot, and the turn queue are afterwards what they were. *)
Theorem combat_keeps_the_stats (script : list (Rng * Combat.Request))
    (s s' : Combat.t) :
  Combat.run script s = Some s' →
  Frame.Player_fixed (Combat.player s) (Combat.player s')
  ∧ Frame.Enemy_fixed (Combat.enemy s) (Combat.enemy s')
  ∧ Combat.turn_queue s' = Combat.turn_queue s.
Proof.
  apply (run_respects
           (λ s s',
              Frame.Player_fixed (Combat.player s) (Combat.player s')
              ∧ Frame.Enemy_fixed (Combat.enemy s) (Combat.enemy s')
              ∧ Combat.turn_queue s' = Combat.turn_queue s)).
  - intros s0. by unfold Frame.Player_fixed, Frame.Enemy_fixed.
  - unfold Frame.Player_fixed, Frame.Enemy_fixed.
    intros s1 s2 s3 H1 H2. destruct_and?. split_and!; congruence.
  - apply perform_fixed.
Qed.

(** X7.  The pools stay within their bounds.  If both hp and both
    focus pools are within [0, max] and no item of the inventory
    declares a negative heal or focus restoration, the same holds after
    any sequence of calls. *)
Theorem pools_stay_in_bounds (script : list (Rng * Combat.Request))
    (s s' : Combat.t) :
  Frame.pools_in_bounds s →
  Frame.items_restore (Player.inventory (Combat.player s)) →
  Combat.run script s = Some s' →
  Frame.pools_in_bounds s'
  ∧ Frame.items_restore (Player.inventory (Combat.player s')).
Proof.
  intros Hb Hi Hrun.
  assert (Frame.pools_in_bounds s
          ∧ Frame.items_restore (Player.inventory (Combat.player s)))
    as Hs by done.
  clear Hb Hi. revert Hs. revert s s' Hrun.
  apply (run_respects
           (λ s s',
              Frame.pools_in_bounds s
              ∧ Frame.items_restore (Player.inventory (Combat.player s)) →
              Frame.pools_in_bounds s'
              ∧ Frame.items_restore (Player.inventory (Combat.player s')))).
  - by intros s.
  - intros s1 s2 s3 H1 H2 H. by apply H2, H1.
  - apply perform_pools.
Qed.

(** X8.  The adversary's focus never regenerates: after any sequence
    of calls it is at most what it was. *)
Theorem enemy_focus_never_regenerates (script : list (Rng * Combat.Request))
    (s s' : Combat.t) :
  Combat.run script s = Some s' →
  Enemy.focus (Combat.enemy s') ≤ Enemy.focus (Combat.enemy s).
Proof.
  apply (run_respects
           (λ s s', Enemy.focus (Combat.enemy s')
                    ≤ Enemy.focus (Combat.enemy s))).
  - done.
  - intros s1 s2 s3 H1 H2. lia.
  - apply perform_enemy_focus.
Qed.

(** X9.  A victory is credited once.  A served call adds 1 to
    [enemies_defeated] exactly when it concludes the encounter with the
    player as winner (not on a defeat, not on a draw, not while the
    encounter goes on), and a whole sequence of calls on one encounter
    adds at most 1. *)
Theorem victory_is_credited_once :
  (∀ rng r s message s',
     Combat.perform rng r s = Some (message, s') → s' ≠ s →
     Player.enemies_defeated (Combat.player s')
     = Player.enemies_defeated (Combat.player s)
       + (if decide (Combat.get_winner s' = Some "player") then 1 else 0))
  ∧ (∀ script s s',
       Combat.run script s = Some s' →
       Player.enemies_defeated (Combat.player s)
       ≤ Player.enemies_defeated (Combat.player s')
       ≤ Player.enemies_defeated (Combat.player s) + 1).
Proof.
  split.
  { intros rng r s message s' H Hne.
    by apply perform_credit in H as [->|[? _]]. }
  intros script. induction script as [|[rng r] script IH]; intros s s' Hrun.
  - simpl in Hrun. simplify_eq. lia.
  - simpl in Hrun. apply bind_Some in Hrun as ([m s1] & Hp & Hrun).
    simpl in Hrun.
    apply perform_credit in Hp as [->|[Hd Hc]]; [by apply IH|].
    case_decide as Hw.
    + rewrite run_concluded in Hrun by (apply Hc; by rewrite Hw).
      simplify_eq. lia.
    + apply IH in Hrun. lia.
Qed.

(** X10.  The damage credited to the player covers the hp the
    adversary lost.  From an adversary hp within [0, max_hp], after any
    sequence of calls the adversary's hp is still within its bounds,
    [total_damage_dealt] has not decreased, and the adversary's hp has
    dropped by at most the increase of [total_damage_dealt] (less when
    a hit exceeds the hp left or the adversary repairs itself). *)
Theorem damage_dealt_covers_hp_lost (script : list (Rng * Combat.Request))
    (s s' : Combat.t) :
  0 ≤ Enemy.hp (Combat.enemy s) ≤ Enemy.max_hp (Combat.enemy s) →
  Combat.run script s = Some s' →
  0 ≤ Enemy.hp (Combat.enemy s') ≤ Enemy.max_hp (Combat.enemy s')
  ∧ Player.total_damage_dealt (Combat.player s)
    ≤ Player.total_damage_dealt (Combat.player s')
  ∧ Enemy.hp (Combat.enemy s) - Enemy.hp (Combat.enemy s')
    ≤ Player.total_damage_dealt (Combat.player s')
      - Player.total_damage_dealt (Combat.player s).
Proof.
  intros Hb Hrun. revert Hb. revert s s' Hrun.
  apply (run_respects
           (λ s s',
              0 ≤ Enemy.hp (Combat.enemy s) ≤ Enemy.max_hp (Combat.enemy s) →
              0 ≤ Enemy.hp (Combat.enemy s') ≤ Enemy.max_hp (Combat.enemy s')
              ∧ Player.total_damage_dealt (Combat.player s)
                ≤ Player.total_damage_dealt (Combat.player s')
              ∧ Enemy.hp (Combat.enemy s) - Enemy.hp (Combat.enemy s')
                ≤ Player.total_damage_dealt (Combat.player s')
                  - Player.total_damage_dealt (Combat.player s))).
  - intros s. lia.
  - intros s1 s2 s3 H1 H2 Hb. specialize (H1 Hb).
    destruct H1 as (Hb2 & ? & ?). specialize (H2 Hb2). lia.
  - apply perform_damage_dealt.
Qed.

Lemma setup_turn_order_two_sided rng (s : Combat.t) :
  Frame.two_sided (Combat._setup_turn_order rng s)
  ∧ Combat.player (Combat._setup_turn_order rng s) = Combat.player s
  ∧ Combat.enemy (Combat._setup_turn_order rng s) = Combat.enemy s
  ∧ Combat.current_turn (Combat._setup_turn_order rng s)
    = Combat.current_turn s
  ∧ Combat.combat_active (Combat._setup_turn_order rng s)
    = Combat.combat_active s
  ∧ length (Combat.combat_log (Combat._setup_turn_order rng s))
    = S (length (Combat.combat_log s)).
Proof.
  unfold Frame.two_sided, Combat._setup_turn_order. cbn zeta.
  assert (py_randbelow rng 2 = 0%nat ∨ py_randbelow rng 2 = 1%nat) as Hj.
  { unfold py_randbelow.
    pose proof (Nat.mod_upper_bound (randbelow rng 2) 2). lia. }
  repeat case_decide; cbn -[py_randbelow]; rewrite ?length_app;
    unfold random_shuffle; cbn -[py_randbelow];
    try (destruct Hj as [-> | ->]; cbn);
    split_and!; auto; simpl; lia.
Qed.

(** X11.  Creating an encounter.  [CombatEngine(player, enemy_id)]
    fails exactly when the enemy data has no entry for the id; otherwise
    the encounter starts active, at turn 0, with the two-sided queue, the
    side at the head of the queue to move, two lines in the log, and an
    adversary fresh from the factory, at full hp, without cooldowns or
    effects; the player is taken as it comes: its hp, focus and status
    effects are what the previous encounter left. *)
Theorem encounter_creation (enemy_data : gmap string Enemy.Template)
    (rng : Rng) (player : Player.t) (enemy_id : string) :
  match enemy_data !! enemy_id with
  | None => Combat.init enemy_data rng player enemy_id = None
  | Some data =>
      ∃ s, Combat.init enemy_data rng player enemy_id = Some s
           ∧ Combat.player s = player
           ∧ Combat.enemy s = Enemy.create_enemy enemy_id data
           ∧ Combat.combat_active s = true
           ∧ Combat.current_turn s = 0
           ∧ Frame.two_sided s
           ∧ Combat.get_current_turn s = head (Combat.turn_queue s)
           ∧ length (Combat.combat_log s) = 2%nat
           ∧ Enemy.hp (Combat.enemy s) = Enemy.max_hp (Combat.enemy s)
           ∧ Enemy.focus (Combat.enemy s) = Enemy.max_focus (Combat.enemy s)
           ∧ Enemy.ability_cooldowns (Combat.enemy s) = ∅
           ∧ Enemy.status_effects (Combat.enemy s) = []
  end.
Proof.
  unfold Combat.init.
  destruct (enemy_data !! enemy_id) as [data|]; simpl; [|done].
  eexists. split; [done|].
  destruct (setup_turn_order_two_sided rng
              (Combat.mk player (Enemy.create_enemy enemy_id data)
                         [] 0 [] true))
    as (Hq & Hp & He & Ht & Ha & Hl).
  remember (Combat._setup_turn_order rng
              (Combat.mk player (Enemy.create_enemy enemy_id data)
                         [] 0 [] true)) as s0 eqn:Es0.
  clear Es0. unfold Frame.two_sided, Combat.get_current_turn in *.
  simpl in *. rewrite Hp, He, Ht, Ha, length_app, Hl. simpl.
  split_and!; try done.
  - destruct Hq as [-> | ->]; done.
  - unfold Enemy.create_enemy. by repeat case_decide.
  - unfold Enemy.create_enemy. by repeat case_decide.
  - unfold Enemy.create_enemy. by repeat case_decide.
  - unfold Enemy.create_enemy. by repeat case_decide.
Qed.

(** X12.  Focus is spent and restored exactly, for a player whose
    focus is within [0, max_focus] and an amount that is not negative.
    [spend_focus] fails
    and changes nothing when the amount exceeds the focus; otherwise it
    takes the amount, and restoring that amount gives back the player
    as it was, [restore_focus] reporting the whole amount; the other
    way round, spending what [restore_focus] reports as restored undoes
    the restoration. *)
Theorem focus_is_spent_and_restored_exactly (amount : Z) (p : Player.t) :
  0 ≤ amount → 0 ≤ Player.focus p ≤ Player.max_focus p →
  (Player.focus p < amount → Player.spend_focus amount p = (false, p))
  ∧ (amount ≤ Player.focus p →
     (Player.spend_focus amount p).1 = true
     ∧ Player.focus (Player.spend_focus amount p).2 = Player.focus p - amount
     ∧ Player.restore_focus amount (Player.spend_focus amount p).2
       = (amount, p))
  ∧ (let r := Player.restore_focus amount p in
     0 ≤ r.1 ≤ amount
     ∧ Player.focus r.2 ≤ Player.max_focus p
     ∧ Player.spend_focus r.1 r.2 = (true, p)).
Proof.
  intros Ha Hf. unfold Player.spend_focus, Player.restore_focus.
  cbn zeta. split_and!.
  - intros Hlt. by rewrite decide_False by lia.
  - intros Hle. rewrite decide_True by lia.
    unfold Player.set_focus. destruct p; cbn in *.
    split; [done|]. split; [done|].
    rewrite Z.min_r by lia. f_equal; [lia|f_equal; lia].
  - cbn. lia.
  - cbn. lia.
  - cbn. lia.
  - destruct p. unfold Player.set_focus.
    cbn [fst snd Player.focus Player.max_focus] in *.
    case_decide; [|lia]. cbn. f_equal. f_equal. lia.
Qed.

Lemma remove_first_absent name (inv : list Item) :
  (∀ item, item ∈ inv → item_name item ≠ Some name) →
  Player.remove_first name inv = inv.
Proof.
  induction inv as [|item inv IH]; intros Hno; simpl; [done|].
  rewrite decide_False by (apply Hno; left).
  rewrite IH; [done|]. intros x Hx. apply Hno. by right.
Qed.

Lemma remove_first_present name (before : list Item) item after :
  item_name item = Some name →
  (∀ x, x ∈ before → item_name x ≠ Some name) →
  Player.remove_first name (before ++ item :: after) = before ++ after.
Proof.
  intros Hn. induction before as [|x before IH]; intros Hno; simpl.
  - by rewrite decide_True.
  - rewrite decide_False by (apply Hno; left).
    rewrite IH; [done|]. intros y Hy. apply Hno. by right.
Qed.

(** X13.  [remove_item] pops the first item of that name and nothing
    else: the player is unchanged when no item has the name; otherwise
    the inventory loses its first item of that name, the items before
    and after it keeping their order, and no other attribute changes. *)
Theorem remove_item_pops_the_first_match (name : string) (p : Player.t) :
  ((∀ item, item ∈ Player.inventory p → item_name item ≠ Some name) →
   Player.remove_item name p = p)
  ∧ (∀ before item after,
       Player.inventory p = before ++ item :: after →
       item_name item = Some name →
       (∀ x, x ∈ before → item_name x ≠ Some name) →
       Player.remove_item name p = Player.set_inventory (before ++ after) p).
Proof.
  unfold Player.remove_item. split.
  - intros Hno. rewrite remove_first_absent by done. by destruct p.
  - intros before item after -> Hn Hno. by rewrite remove_first_present.
Qed.





(** ** The further properties at work *)

Lemma calls_are_served_on_their_turn_witness :
  Combat.get_current_turn Samples.duel = Some "player"
  ∧ Combat.perform Samples.rng_low Combat.ReqEnemyTurn Samples.duel
    = Some ("", Samples.duel).
Proof.
  split; [reflexivity|].
  destruct (calls_are_served_on_their_turn Samples.rng_low
              Combat.ReqEnemyTurn Samples.duel) as [H _].
  apply (H "player"); [reflexivity|by vm_compute].
Defined.

Lemma concluded_encounter_is_final_witness :
  Combat.combat_active Scenarios.finished_duel = false
  ∧ Combat.run Scenarios.opening Scenarios.finished_duel
    = Some Scenarios.finished_duel.
Proof.
  split; [reflexivity|].
  apply (concluded_encounter_is_final Scenarios.opening
           Scenarios.finished_duel).
  reflexivity.
Defined.

Lemma unknown_ability_or_item_is_refused_witness :
  Combat.is_player_turn Samples.duel = Some true
  ∧ Combat.player_use_ability Samples.rng_low "fireball" Samples.duel
    = Some ("❌ Unknown ability: fireball", Samples.duel)
  ∧ Combat.player_use_item "Tonic" Samples.duel
    = Some ("❌ Tonic not found or not usable!", Samples.duel).
Proof.
  split; [reflexivity|].
  destruct (unknown_ability_or_item_is_refused Samples.rng_low Samples.duel)
    as [Ha Hi]; [reflexivity|].
  split.
  - apply (Ha "fireball"). apply (bool_decide_unpack _). by vm_compute.
  - apply (Hi "Tonic"). intros item Hin. by apply elem_of_nil in Hin.
Defined.

Lemma combat_log_only_grows_witness :
  ∃ s', Combat.run Scenarios.opening Scenarios.begun_duel = Some s'
        ∧ Combat.combat_log Scenarios.begun_duel
          `prefix_of` Combat.combat_log s'.
Proof.
  destruct (Combat.run Scenarios.opening Scenarios.begun_duel) as [s'|]
    eqn:Hrun; [|by vm_compute in Hrun].
  exists s'. split; [reflexivity|].
  by apply (combat_log_only_grows Scenarios.opening).
Defined.

Lemma turn_passes_to_the_other_side_witness :
  Frame.two_sided Samples.duel
  ∧ ∃ message s',
      Combat.perform Samples.rng_low Combat.ReqAttack Samples.duel
      = Some (message, s')
      ∧ Combat.get_current_turn Samples.duel = Some "player"
      ∧ Combat.get_current_turn s' = Some "enemy".
Proof.
  assert (Frame.two_sided Samples.duel) as Hq by (by left).
  split; [exact Hq|].
  destruct (Combat.perform Samples.rng_low Combat.ReqAttack Samples.duel)
    as [[message s']|] eqn:Hp; [|by vm_compute in Hp].
  exists message, s'. split; [reflexivity|].
  destruct (turn_passes_to_the_other_side Samples.rng_low Combat.ReqAttack
              Samples.duel message s' Hq Hp) as (H1 & H2 & _).
  - vm_compute in Hp. injection Hp as _ <-. intros [=].
  - vm_compute in Hp. by injection Hp as _ <-.
  - by split.
Defined.

Lemma combat_keeps_the_stats_witness :
  ∃ s', Combat.run Scenarios.opening Samples.duel = Some s'
        ∧ Player.attack (Combat.player s') = 10
        ∧ Enemy.defense (Combat.enemy s') = 1
        ∧ Combat.turn_queue s' = ["player"; "enemy"].
Proof.
  destruct (Combat.run Scenarios.opening Samples.duel) as [s'|] eqn:Hrun;
    [|by vm_compute in Hrun].
  exists s'. split; [reflexivity|].
  destruct (combat_keeps_the_stats Scenarios.opening Samples.duel s' Hrun)
    as ((_ & _ & _ & Ha & _) & (_ & _ & _ & _ & _ & Hd & _) & Hq).
  by rewrite Ha, Hd, Hq.
Defined.

Lemma pools_stay_in_bounds_witness :
  Frame.pools_in_bounds Scenarios.supplied_duel
  ∧ Frame.items_restore
      (Player.inventory (Combat.player Scenarios.supplied_duel))
  ∧ ∃ s', Combat.run [(Samples.rng_low, Combat.ReqItem "Tonic")]
            Scenarios.supplied_duel = Some s'
          ∧ Frame.pools_in_bounds s'.
Proof.
  assert (Frame.pools_in_bounds Scenarios.supplied_duel) as Hb
    by (by vm_compute).
  assert (Frame.items_restore
            (Player.inventory (Combat.player Scenarios.supplied_duel)))
    as Hi.
  { intros item amount Hin.
    apply elem_of_cons in Hin as [->|Hin];
      [|apply list_elem_of_singleton in Hin as ->];
      split; intros [= <-]; done. }
  split; [exact Hb|]. split; [exact Hi|].
  destruct (Combat.run [(Samples.rng_low, Combat.ReqItem "Tonic")]
              Scenarios.supplied_duel) as [s'|] eqn:Hrun;
    [|by vm_compute in Hrun].
  exists s'. split; [reflexivity|].
  by destruct (pools_stay_in_bounds _ _ _ Hb Hi Hrun).
Defined.

Lemma enemy_focus_never_regenerates_witness :
  ∃ s', Combat.run Scenarios.opening Samples.duel = Some s'
        ∧ Enemy.focus (Combat.enemy s') ≤ 3.
Proof.
  destruct (Combat.run Scenarios.opening Samples.duel) as [s'|] eqn:Hrun;
    [|by vm_compute in Hrun].
  exists s'. split; [reflexivity|].
  exact (enemy_focus_never_regenerates Scenarios.opening Samples.duel s'
           Hrun).
Defined.

Lemma victory_is_credited_once_witness :
  ∃ message s',
    Combat.perform Samples.rng_low Combat.ReqAttack Scenarios.last_stand
    = Some (message, s')
    ∧ Combat.get_winner s' = Some "player"
    ∧ Player.enemies_defeated (Combat.player s') = 1.
Proof.
  destruct (Combat.perform Samples.rng_low Combat.ReqAttack
              Scenarios.last_stand) as [[message s']|] eqn:Hp;
    [|by vm_compute in Hp].
  exists message, s'. split; [reflexivity|].
  assert (Combat.get_winner s' = Some "player") as Hw.
  { vm_compute in Hp. by injection Hp as _ <-. }
  split; [exact Hw|].
  destruct victory_is_credited_once as [H _].
  rewrite (H _ _ _ _ _ Hp), Hw; [done|].
  vm_compute in Hp. injection Hp as _ <-. intros [=].
Defined.

Lemma damage_dealt_covers_hp_lost_witness :
  0 ≤ Enemy.hp (Combat.enemy Samples.duel)
    ≤ Enemy.max_hp (Combat.enemy Samples.duel)
  ∧ ∃ s', Combat.run Scenarios.opening Samples.duel = Some s'
          ∧ 40 - Enemy.hp (Combat.enemy s')
            ≤ Player.total_damage_dealt (Combat.player s').
Proof.
  assert (0 ≤ Enemy.hp (Combat.enemy Samples.duel)
            ≤ Enemy.max_hp (Combat.enemy Samples.duel)) as Hb
    by (by vm_compute).
  split; [exact Hb|].
  destruct (Combat.run Scenarios.opening Samples.duel) as [s'|] eqn:Hrun;
    [|by vm_compute in Hrun].
  exists s'. split; [reflexivity|].
  destruct (damage_dealt_covers_hp_lost Scenarios.opening Samples.duel s'
              Hb Hrun) as (_ & _ & H).
  change (Enemy.hp (Combat.enemy Samples.duel)) with 40 in H.
  change (Player.total_damage_dealt (Combat.player Samples.duel)) with 0
    in H.
  lia.
Defined.

Lemma focus_is_spent_and_restored_exactly_witness :
  Player.spend_focus 2 Samples.hero
  = (true, Player.set_focus 3 Samples.hero)
  ∧ Player.restore_focus 2 (Player.set_focus 3 Samples.hero)
    = (2, Samples.hero)
  ∧ Player.spend_focus 6 Samples.hero = (false, Samples.hero).
Proof.
  destruct (focus_is_spent_and_restored_exactly 2 Samples.hero)
    as (_ & H & _); [lia|by vm_compute|].
  destruct H as (_ & _ & H); [by vm_compute|].
  split; [reflexivity|]. split; [exact H|].
  destruct (focus_is_spent_and_restored_exactly 6 Samples.hero)
    as (H6 & _); [lia|by vm_compute|].
  apply H6. by vm_compute.
Defined.

Lemma remove_item_pops_the_first_match_witness :
  Player.remove_item "Tonic"
    (Combat.player Scenarios.supplied_duel)
  = Player.set_inventory [Scenarios.tonic]
      (Combat.player Scenarios.supplied_duel).
Proof.
  destruct (remove_item_pops_the_first_match "Tonic"
              (Combat.player Scenarios.supplied_duel)) as [_ H].
  apply (H [] Scenarios.tonic_key [Scenarios.tonic]); [reflexivity..|].
  intros x Hx. by apply elem_of_nil in Hx.
Defined.


(** * The equipment and the save data of the player *)

Section EquipmentFacts.

Implicit Types (p : PlayerObject.t) (w a d : PyDict).

Lemma typed_dict_nonempty d (ty : string) :
  d !! "type" = Some (vstr ty) → bool_decide (d ≠ ∅) = true.
Proof.
  intros H. apply bool_decide_eq_true_2. intros ->.
  by rewrite lookup_empty in H.
Qed.

Lemma add_item_weapon d p :
  d !! "type" ≠ Some (vstr "key_item") →
  PlayerObject.add_item d p
  = Some (PlayerObject.set_inventory (PlayerObject.inventory p ++ [d]) p).
Proof.
  intros H. unfold PlayerObject.add_item. by rewrite decide_False.
Qed.

End EquipmentFacts.

(** X15.  Equipping a weapon.  A dictionary whose type is not
    "weapon" is refused and nothing changes.  A weapon with a numeric
    attack bonus [b] (0 without the stat) is equipped with
    [attack = base_attack + b], whatever was equipped before: bonuses
    do not add up; a weapon equipped before goes to the end of the
    inventory.  With nothing equipped before and the attack at its
    base, unequipping returns the weapon and the player as it was. *)
Theorem equip_weapon_sets_the_attack (w : PyDict) (p : PlayerObject.t) :
  (w !! "type" ≠ Some (vstr "weapon") →
   PlayerObject.equip_weapon w p = Some (false, p))
  ∧ (∀ x b,
       w !! "type" = Some (vstr "weapon") →
       stats_get w "attack_bonus" (SInt 0) = Some x →
       scalar_int x = Some b →
       (PlayerObject.equipped_weapon p = None →
        ∃ p',
          PlayerObject.equip_weapon w p = Some (true, p')
          ∧ p' = PlayerObject.set_attack (PlayerObject.base_attack p + b)
                   (PlayerObject.set_equipped_weapon (Some w) p)
          ∧ (PlayerObject.attack p = PlayerObject.base_attack p →
             PlayerObject.unequip_weapon p' = (Some w, p)))
       ∧ (∀ old,
            PlayerObject.equipped_weapon p = Some old →
            old !! "type" = Some (vstr "weapon") →
            PlayerObject.equip_weapon w p
            = Some (true,
                    PlayerObject.set_attack
                      (PlayerObject.base_attack p + b)
                      (PlayerObject.set_equipped_weapon (Some w)
                         (PlayerObject.set_inventory
                            (PlayerObject.inventory p ++ [old]) p))))).
Proof.
  split.
  - intros H. unfold PlayerObject.equip_weapon. by rewrite decide_True.
  - intros x b Hty Hx Hb. split.
    + intros Hnone. eexists. split; [|split; [reflexivity|]].
      * unfold PlayerObject.equip_weapon.
        rewrite decide_False by (intros Hne; by destruct Hne).
        rewrite Hnone. simpl. rewrite Hx. simpl. rewrite Hb. done.
      * intros Hatt. unfold PlayerObject.unequip_weapon. simpl.
        rewrite (typed_dict_nonempty w "weapon") by done. simpl.
        destruct p; simpl in *. by subst.
    + intros old Hold Holdty. unfold PlayerObject.equip_weapon.
      rewrite decide_False by (intros Hne; by destruct Hne).
      unfold PlayerObject.unequip_weapon. rewrite Hold. simpl.
      rewrite (typed_dict_nonempty old "weapon") by done. simpl.
      rewrite add_item_weapon by (simpl; by rewrite Holdty).
      simpl. rewrite Hx. simpl. rewrite Hb. simpl.
      rewrite (typed_dict_nonempty old "weapon") by done. simpl.
      by destruct p.
Qed.

(** X16.  Equipping and unequipping an accessory is not a round
    trip.  For an accessory with a numeric focus bonus [b] (and numeric
    defense and speed bonuses, where it has them) put on a player
    without accessory: equipping raises [max_focus] by [b] and the
    focus by [b], up to the new maximum; unequipping returns the
    accessory, resets defense and speed to their base and [max_focus]
    to 5, whatever it was before, and leaves the focus where it is.  So
    a player whose focus was within its maximum and a bonus that is not
    negative end the cycle with [b] more focus than before, above the
    maximum when [focus + b > 5]. *)
Theorem accessory_cycle_grants_focus (a : PyDict) (st : gmap string Scalar)
    (b : Z) (p : PlayerObject.t) :
  a !! "type" = Some (vstr "accessory") →
  a !! "stats" = Some (VDict st) →
  st !! "focus_bonus" = Some (SInt b) →
  (∀ x, st !! "defense_bonus" = Some x → is_Some (scalar_int x)) →
  (∀ x, st !! "speed_bonus" = Some x → is_Some (scalar_int x)) →
  PlayerObject.equipped_accessory p = None →
  ∃ p1 p2,
    PlayerObject.equip_accessory a p = Some (true, p1)
    ∧ PlayerObject.max_focus p1 = PlayerObject.max_focus p + b
    ∧ PlayerObject.focus p1
      = Z.min (PlayerObject.focus p + b) (PlayerObject.max_focus p + b)
    ∧ PlayerObject.unequip_accessory p1 = (Some a, p2)
    ∧ PlayerObject.max_focus p2 = 5
    ∧ PlayerObject.focus p2 = PlayerObject.focus p1
    ∧ PlayerObject.defense p2 = PlayerObject.base_defense p
    ∧ PlayerObject.speed p2 = PlayerObject.base_speed p
    ∧ PlayerObject.inventory p2 = PlayerObject.inventory p
    ∧ PlayerObject.equipped_accessory p2 = None
    ∧ (PlayerObject.focus p ≤ PlayerObject.max_focus p → 0 ≤ b →
       PlayerObject.focus p2 = PlayerObject.focus p + b).
Proof.
  intros Hty Hst Hb Hd Hs Hnone.
  unfold PlayerObject.equip_accessory.
  rewrite decide_False by (intros Hne; by destruct Hne).
  rewrite Hnone, Hst. simpl. rewrite Hb. simpl.
  destruct (st !! "defense_bonus") as [xd|] eqn:Ed;
    [destruct (Hd xd eq_refl) as [d Hxd]|];
    (destruct (st !! "speed_bonus") as [xs|] eqn:Es;
     [destruct (Hs xs eq_refl) as [v Hxs]|]);
    simpl; rewrite ?Hxd, ?Hxs; simpl;
    (eexists _, _; split; [reflexivity|]);
    unfold PlayerObject.unequip_accessory; simpl;
    rewrite (typed_dict_nonempty a "accessory") by done; simpl;
    split_and!; try done; intros; simpl; lia.
Qed.

(** X17.  Saving and loading a player without equipment.  When no
    weapon and no accessory is equipped and attack, defense and speed
    are at their base values, [from_dict] gives back from the saved
    data of [to_dict] exactly the player that was saved, the inventory,
    the visited rooms, the counters and the status effects included. *)
Theorem loading_restores_an_unequipped_player (p : PlayerObject.t) :
  truthy_dict (PlayerObject.equipped_weapon p) = false →
  truthy_dict (PlayerObject.equipped_accessory p) = false →
  PlayerObject.attack p = PlayerObject.base_attack p →
  PlayerObject.defense p = PlayerObject.base_defense p →
  PlayerObject.speed p = PlayerObject.base_speed p →
  PlayerObject.from_dict (PlayerObject.to_dict p) = Some p.
Proof.
  intros Hw Ha Hatt Hdef Hsp.
  unfold PlayerObject.from_dict, PlayerObject.to_dict. simpl.
  rewrite Hw. simpl. rewrite Ha. simpl. rewrite list_to_set_elements_L.
  destruct p; simpl in *. by subst.
Qed.

(** X18.  Loading duplicates the equipment.  [from_dict] equips
    again what the saved data names as equipped, and equipping first
    unequips it into the inventory.  So a player saved with a weapon
    (numeric attack bonus [b]) and no accessory is loaded with the same
    weapon equipped, [attack = base_attack + b], and a copy of the
    weapon at the end of the inventory; and a player saved with an
    accessory with a numeric focus bonus [b] and no weapon is loaded
    with a copy of the accessory at the end of the inventory,
    [max_focus = 5 + b] and the saved focus raised by [b], up to that
    maximum. *)
Theorem loading_duplicates_the_equipment (p : PlayerObject.t) :
  (∀ w x b,
     PlayerObject.equipped_weapon p = Some w →
     w !! "type" = Some (vstr "weapon") →
     stats_get w "attack_bonus" (SInt 0) = Some x →
     scalar_int x = Some b →
     truthy_dict (PlayerObject.equipped_accessory p) = false →
     PlayerObject.defense p = PlayerObject.base_defense p →
     PlayerObject.speed p = PlayerObject.base_speed p →
     PlayerObject.from_dict (PlayerObject.to_dict p)
     = Some (PlayerObject.set_attack (PlayerObject.base_attack p + b)
               (PlayerObject.set_inventory
                  (PlayerObject.inventory p ++ [w]) p)))
  ∧ (∀ a st b,
       PlayerObject.equipped_accessory p = Some a →
       a !! "type" = Some (vstr "accessory") →
       a !! "stats" = Some (VDict st) →
       st !! "focus_bonus" = Some (SInt b) →
       (∀ x, st !! "defense_bonus" = Some x → is_Some (scalar_int x)) →
       (∀ x, st !! "speed_bonus" = Some x → is_Some (scalar_int x)) →
       truthy_dict (PlayerObject.equipped_weapon p) = false →
       ∃ p',
         PlayerObject.from_dict (PlayerObject.to_dict p) = Some p'
         ∧ PlayerObject.equipped_accessory p' = Some a
         ∧ PlayerObject.inventory p' = PlayerObject.inventory p ++ [a]
         ∧ PlayerObject.max_focus p' = 5 + b
         ∧ PlayerObject.focus p' = Z.min (PlayerObject.focus p + b) (5 + b)).
Proof.
  split.
  - intros w x b Hw Hty Hx Hb Ha Hdef Hsp.
    unfold PlayerObject.from_dict, PlayerObject.to_dict. simpl.
    rewrite Hw. simpl.
    rewrite (typed_dict_nonempty w "weapon") by done. simpl.
    unfold PlayerObject.equip_weapon.
    rewrite decide_False by (intros Hne; by destruct Hne).
    unfold PlayerObject.unequip_weapon. simpl.
    rewrite (typed_dict_nonempty w "weapon") by done. simpl.
    rewrite (typed_dict_nonempty w "weapon") by done. simpl.
    rewrite add_item_weapon by (simpl; by rewrite Hty).
    simpl. rewrite Hx. simpl. rewrite Hb. simpl.
    rewrite Ha. simpl. rewrite list_to_set_elements_L.
    destruct p; simpl in *. by subst.
  - intros a st b Ha Hty Hst Hb Hd Hs Hw.
    unfold PlayerObject.from_dict, PlayerObject.to_dict. simpl.
    rewrite Hw. simpl. rewrite Ha. simpl.
    rewrite (typed_dict_nonempty a "accessory") by done. simpl.
    unfold PlayerObject.equip_accessory.
    rewrite decide_False by (intros Hne; by destruct Hne).
    unfold PlayerObject.unequip_accessory. simpl.
    rewrite (typed_dict_nonempty a "accessory") by done. simpl.
    rewrite (typed_dict_nonempty a "accessory") by done. simpl.
    rewrite add_item_weapon by (simpl; by rewrite Hty).
    simpl. rewrite Hst. simpl. rewrite Hb. simpl.
    destruct (st !! "defense_bonus") as [xd|] eqn:Ed;
      [destruct (Hd xd eq_refl) as [d Hxd]|];
      (destruct (st !! "speed_bonus") as [xs|] eqn:Es;
       [destruct (Hs xs eq_refl) as [v Hxs]|]);
      simpl; rewrite ?Hxd, ?Hxs; simpl;
      (eexists; split; [reflexivity|]); simpl; split_and!; done.
Qed.

(** * The items of the rooms *)

Section RoomItemFacts.

Implicit Types (m : ItemManager.t) (ids : list string).

Lemma py_remove_first x (before after : list string) :
  x ∉ before → py_remove x (before ++ x :: after) = Some (before ++ after).
Proof.
  induction before as [|y before IH]; intros Hno; simpl.
  - by rewrite decide_True.
  - apply not_elem_of_cons in Hno as [Hne Hno].
    rewrite decide_False by done. by rewrite IH.
Qed.

Lemma py_remove_last x ids :
  x ∉ ids → py_remove x (ids ++ [x]) = Some ids.
Proof.
  intros Hno. rewrite py_remove_first by done. by rewrite app_nil_r.
Qed.

End RoomItemFacts.

(** X19.  Taking an item from a room.  For a room the manager does
    not know, and for an item that is not in the room, the call returns
    [None] and changes nothing.  For an item in the room the first
    occurrence of its id leaves the room's list, the other rooms and the
    order of the rest being kept, and the call returns the item built
    by [create_item], or [None] when the item data has no entry for the
    id: such an item is removed from the room and handed to nobody. *)
Theorem taking_an_item_from_a_room (room_id item_id : string)
    (m : ItemManager.t) :
  (ItemManager.room_items m !! room_id = None →
   ItemManager.take_item_from_room room_id item_id m = Some (None, m))
  ∧ (∀ ids,
       ItemManager.room_items m !! room_id = Some ids → item_id ∉ ids →
       ItemManager.take_item_from_room room_id item_id m = Some (None, m))
  ∧ (∀ before after,
       ItemManager.room_items m !! room_id
       = Some (before ++ item_id :: after) →
       item_id ∉ before →
       let m' := ItemManager.mk (ItemManager.item_data m)
                   (<[ room_id := before ++ after ]>
                      (ItemManager.room_items m)) in
       (ItemManager.item_data m !! item_id = None →
        ItemManager.take_item_from_room room_id item_id m = Some (None, m'))
       ∧ (∀ data it,
            ItemManager.item_data m !! item_id = Some data →
            Items.create_item item_id data = Some it →
            ItemManager.take_item_from_room room_id item_id m
            = Some (Some it, m'))).
Proof.
  unfold ItemManager.take_item_from_room. split_and!.
  - by intros ->.
  - intros ids -> Hno. by rewrite decide_False.
  - intros before after -> Hno. cbn zeta.
    rewrite decide_True by set_solver.
    rewrite py_remove_first by done. simpl.
    unfold ItemManager.get_item. simpl. split.
    + by intros ->.
    + intros data it -> Hc. simpl. by rewrite Hc.
Qed.

(** X20.  Putting an item into a room and taking it again.  An id
    is added at the end of the room's list, once: adding it again
    changes nothing.  For a room the manager knows and an id that was
    not in it, taking the id after adding it returns what [get_item]
    gives for it and leaves the manager as it was before the two
    calls; for a room the manager did not know, the room stays behind
    with an empty list. *)
Theorem add_then_take_restores_the_room (room_id item_id : string)
    (m : ItemManager.t) :
  item_id ∈ ItemManager.get_room_items room_id
              (ItemManager.add_item_to_room room_id item_id m)
  ∧ ItemManager.add_item_to_room room_id item_id
      (ItemManager.add_item_to_room room_id item_id m)
    = ItemManager.add_item_to_room room_id item_id m
  ∧ (∀ ids item,
       ItemManager.room_items m !! room_id = Some ids → item_id ∉ ids →
       ItemManager.get_item item_id m = Some item →
       ItemManager.get_room_items room_id
         (ItemManager.add_item_to_room room_id item_id m)
       = ids ++ [item_id]
       ∧ ItemManager.take_item_from_room room_id item_id
           (ItemManager.add_item_to_room room_id item_id m)
         = Some (item, m))
  ∧ (∀ item,
       ItemManager.room_items m !! room_id = None →
       ItemManager.get_item item_id m = Some item →
       ItemManager.take_item_from_room room_id item_id
         (ItemManager.add_item_to_room room_id item_id m)
       = Some (item,
               ItemManager.mk (ItemManager.item_data m)
                 (<[ room_id := [] ]> (ItemManager.room_items m)))).
Proof.
  assert (∀ m', item_id ∈ ItemManager.get_room_items room_id m' →
                ItemManager.add_item_to_room room_id item_id m' = m')
    as Hidem.
  { intros m' Hin. unfold ItemManager.add_item_to_room,
      ItemManager.get_room_items in *.
    destruct (ItemManager.room_items m' !! room_id) as [ids|] eqn:E;
      simpl in Hin; [|by apply elem_of_nil in Hin].
    rewrite (decide_False (P:=Some ids = None)) by done. rewrite E. simpl.
    by rewrite decide_False by (intros Hno; by destruct Hno). }
  assert (item_id ∈ ItemManager.get_room_items room_id
                      (ItemManager.add_item_to_room room_id item_id m))
    as Hin.
  { unfold ItemManager.add_item_to_room, ItemManager.get_room_items.
    destruct (ItemManager.room_items m !! room_id) as [ids|] eqn:E.
    - rewrite (decide_False (P:=Some ids = None)) by done.
      rewrite E. simpl.
      case_decide as Hd; simpl; [rewrite lookup_insert_eq|rewrite E]; simpl.
      + set_solver.
      + done.
    - rewrite (decide_True (P:=None = None)) by done.
      simpl. rewrite lookup_insert_eq. simpl.
      rewrite lookup_insert_eq. simpl. set_solver. }
  split; [exact Hin|]. split; [by apply Hidem|]. split.
  - intros ids item E Hno Hget.
    unfold ItemManager.add_item_to_room, ItemManager.get_room_items.
    rewrite (decide_False (P:=_ = None)) by (by rewrite E).
    rewrite E. simpl.
    rewrite decide_True by done. simpl. rewrite lookup_insert_eq. simpl.
    split; [done|].
    unfold ItemManager.take_item_from_room. simpl.
    rewrite lookup_insert_eq. rewrite decide_True by set_solver.
    rewrite py_remove_last by done. simpl.
    rewrite insert_insert_eq, insert_id by done.
    unfold ItemManager.get_item in *. simpl.
    destruct (ItemManager.item_data m !! item_id) as [data|]; simpl in *.
    + destruct (Items.create_item item_id data); simplify_eq/=.
      by destruct m.
    + simplify_eq. by destruct m.
  - intros item E Hget.
    unfold ItemManager.add_item_to_room.
    rewrite (decide_True (P:=_ = None)) by done.
    simpl. rewrite lookup_insert_eq. simpl.
    unfold ItemManager.take_item_from_room. simpl.
    rewrite lookup_insert_eq. rewrite decide_True by set_solver.
    simpl. rewrite decide_True by done. simpl.
    rewrite !insert_insert_eq.
    unfold ItemManager.get_item in *. simpl.
    destruct (ItemManager.item_data m !! item_id) as [data|]; simpl in *.
    + by destruct (Items.create_item item_id data); simplify_eq/=.
    + by simplify_eq.
Qed.

(** * Consumables, crystals and the steam golem *)

Section FactoryFacts.

Lemma to_dict_type it : Items.to_dict it !! "type" = Some (Items.type it).
Proof. done. Qed.

Lemma to_dict_stackable it :
  Items.to_dict it !! "stackable" = Some (Items.stackable it).
Proof. done. Qed.

Lemma to_dict_stats it :
  Items.to_dict it !! "stats" = Some (Items.stats it).
Proof. done. Qed.

Lemma create_item_consumable_stackable item_id data it x :
  Items.create_item item_id data = Some it →
  Items.as_item (Items.to_dict it) = Some x →
  item_type x = Some "consumable" → item_stackable x = true.
Proof.
  intros Hc Hx Hty. unfold Items.as_item in Hx.
  rewrite to_dict_type, to_dict_stackable, to_dict_stats in Hx.
  apply bind_Some in Hx as (st & _ & Hx).
  apply bind_Some in Hx as (heal & _ & Hx).
  apply bind_Some in Hx as (focus & _ & Hx).
  simplify_eq/=.
  destruct (Items.type it) as [[| | |ty]|] eqn:Et; simplify_eq/=.
  unfold Items.create_item, Items.reads_stats in Hc.
  assert (Items.type it = default (vstr "misc") (data !! "type")) as Hty.
  { repeat case_decide; simplify_option_eq; repeat case_match;
      by simplify_eq/=. }
  rewrite <-Hty, Et in Hc.
  rewrite decide_False, decide_True in Hc by done.
  apply bind_Some in Hc as (it0 & _ & [= <-]). done.
Qed.

Lemma find_consumable_type name inv item :
  Combat.find_consumable name inv = Some item →
  item_type item = Some "consumable".
Proof.
  unfold Combat.find_consumable. intros H.
  apply head_Some_elem_of in H.
  by apply list_elem_of_filter in H as [[_ ?] _].
Qed.

End FactoryFacts.

(** X21.  Consumables from the item factory are never used up.
    [create_item] makes every consumable stackable, whatever the item
    data say, and the engine removes a used item only when it is not
    stackable.  So when every item of the inventory came from the
    factory, no sequence of calls on the engine, uses of items
    included, changes the inventory. *)
Theorem factory_consumables_are_never_used_up
    (script : list (Rng * Combat.Request)) (s s' : Combat.t) :
  (∀ x, x ∈ Player.inventory (Combat.player s) → Factory.made x) →
  Combat.run script s = Some s' →
  Player.inventory (Combat.player s') = Player.inventory (Combat.player s).
Proof.
  intros Hmade Hrun. revert Hmade. revert s s' Hrun.
  apply (run_respects
           (λ s s',
              (∀ x, x ∈ Player.inventory (Combat.player s) →
                    Factory.made x) →
              Player.inventory (Combat.player s')
              = Player.inventory (Combat.player s))).
  - done.
  - intros s1 s2 s3 H1 H2 Hmade. rewrite H2; [by apply H1|].
    by rewrite H1.
  - intros rng r s message s' H Hmade.
    apply perform_resolves in H as [->|(mid & -> & Hres)]; [done|].
    destruct (end_turn_kept mid) as ((_ & _ & Hinv & _) & _).
    simpl in Hinv. rewrite Hinv.
    destruct Hres as (_ & _ & _ & _ & _ & _ & _ & _ & _ & _ & _ & _ & _ & Hi).
    destruct Hi as [Hi|(name & item & _ & Hfind & Hst)]; [done|].
    pose proof (find_consumable_type _ _ _ Hfind) as Hty.
    apply find_consumable_elem_of in Hfind.
    destruct (Hmade item Hfind) as (item_id & data & it & Hc & Hx).
    by rewrite (create_item_consumable_stackable _ _ _ _ Hc Hx Hty) in Hst.
Qed.

Section CrystalFacts.

Lemma pop_first_last (n : string) (item : PyDict) (inv : list PyDict) :
  item !! "name" = Some (vstr n) →
  (∀ d, d ∈ inv → d !! "name" ≠ Some (vstr n)) →
  PlayerObject.pop_first n (inv ++ [item]) = (Some item, inv).
Proof.
  intros Hn. induction inv as [|d inv IH]; intros Hno; simpl.
  - by rewrite decide_True.
  - rewrite decide_False by (apply Hno; left).
    rewrite IH; [done|]. intros d' Hd'. apply Hno. by right.
Qed.

End CrystalFacts.

(** X22.  Picking an item up and dropping it again.  For an item
    with a name that no item of the inventory has, [remove_item] after
    [add_item] returns the item and restores the player, except for the
    crystal count: adding a key item whose name contains "aether
    crystal", in any mix of upper and lower case, counts one crystal
    more, and removing it does not take the count back. *)
Theorem dropping_a_crystal_keeps_the_count (item : PyDict) (n : string)
    (p : PlayerObject.t) :
  item !! "name" = Some (vstr n) →
  (∀ d, d ∈ PlayerObject.inventory p → d !! "name" ≠ Some (vstr n)) →
  let crystal :=
    bool_decide (item !! "type" = Some (vstr "key_item"))
    && py_in "aether crystal" (py_lower n) in
  let count :=
    PlayerObject.aether_crystals p + (if crystal then 1 else 0) in
  ∃ p1,
    PlayerObject.add_item item p = Some p1
    ∧ PlayerObject.inventory p1 = PlayerObject.inventory p ++ [item]
    ∧ PlayerObject.aether_crystals p1 = count
    ∧ PlayerObject.remove_item n p1
      = (Some item, PlayerObject.set_aether_crystals count p).
Proof.
  intros Hn Hno. cbn zeta. unfold PlayerObject.add_item. rewrite Hn. simpl.
  destruct (decide (item !! "type" = Some (vstr "key_item"))) as [Hk|Hk];
    [rewrite bool_decide_eq_true_2 by done
    |rewrite bool_decide_eq_false_2 by done]; simpl.
  - destruct (py_in "aether crystal" (py_lower n)); simpl;
      (eexists; split; [reflexivity|]); simpl;
      (split; [done|]); (split; [lia|]);
      unfold PlayerObject.remove_item; simpl;
      rewrite pop_first_last by done; destruct p; simpl;
      unfold PlayerObject.set_aether_crystals, PlayerObject.set_inventory;
      simpl; repeat f_equal; lia.
  - eexists; split; [reflexivity|]; simpl.
    split; [done|]. split; [lia|].
    unfold PlayerObject.remove_item; simpl.
    rewrite pop_first_last by done. destruct p; simpl.
    unfold PlayerObject.set_aether_crystals, PlayerObject.set_inventory.
    simpl. repeat f_equal; lia.
Qed.

(** X23.  The release cycle of the steam golem.  A golem whose
    pressure is at 2 or more releases it on its next decision, whatever
    the policy, the cooldowns and the focus: the decision is the
    "steam_blast" ability and the pressure is back at 0.  From pressure
    0 the next two decisions are those of the base class, which leave
    the pressure at 1 and at 2, and the third is a release again.  A
    golem fresh from the factory starts at pressure 3 and releases on
    its first decision. *)
Theorem steam_golem_release_cycle (e : Enemy.t) :
  Enemy.kind e = Enemy.SteamGolem →
  (∀ rng php pdef pfoc,
     2 ≤ Enemy.steam_pressure e →
     Enemy.choose_action rng php pdef pfoc e
     = Some (ability_action "steam_blast", Enemy.set_steam_pressure 0 e))
  ∧ (∀ rng1 rng2 rng3 php1 pdef1 pfoc1 php2 pdef2 pfoc2 php3 pdef3 pfoc3
       a1 e1 a2 e2,
       Enemy.steam_pressure e = 0 →
       Enemy.choose_action rng1 php1 pdef1 pfoc1 e = Some (a1, e1) →
       Enemy.choose_action rng2 php2 pdef2 pfoc2 e1 = Some (a2, e2) →
       Enemy.Enemy_choose_action rng1 php1 pdef1 pfoc1
         (Enemy.set_steam_pressure 1 e) = Some (a1, e1)
       ∧ Enemy.steam_pressure e1 = 1
       ∧ Enemy.Enemy_choose_action rng2 php2 pdef2 pfoc2
           (Enemy.set_steam_pressure 2 e1) = Some (a2, e2)
       ∧ Enemy.steam_pressure e2 = 2
       ∧ Enemy.choose_action rng3 php3 pdef3 pfoc3 e2
         = Some (ability_action "steam_blast",
                 Enemy.set_steam_pressure 0 e2))
  ∧ (∀ data rng php pdef pfoc,
       let golem := Enemy.create_enemy "steam_golem" data in
       Enemy.choose_action rng php pdef pfoc golem
       = Some (ability_action "steam_blast",
               Enemy.set_steam_pressure 0 golem)).
Proof.
  intros Hk.
  assert (∀ e0 rng php pdef pfoc,
            Enemy.kind e0 = Enemy.SteamGolem →
            2 ≤ Enemy.steam_pressure e0 →
            Enemy.choose_action rng php pdef pfoc e0
            = Some (ability_action "steam_blast",
                    Enemy.set_steam_pressure 0 e0)) as Hrel.
  { intros e0 rng php pdef pfoc Hk0 Hp. unfold Enemy.choose_action.
    rewrite Hk0. simpl. rewrite decide_True by lia. by destruct e0. }
  assert (∀ e0 rng php pdef pfoc a e',
            Enemy.kind e0 = Enemy.SteamGolem →
            Enemy.steam_pressure e0 < 2 →
            Enemy.choose_action rng php pdef pfoc e0 = Some (a, e') →
            Enemy.Enemy_choose_action rng php pdef pfoc
              (Enemy.set_steam_pressure (Enemy.steam_pressure e0 + 1) e0)
            = Some (a, e')
            ∧ Enemy.steam_pressure e' = Enemy.steam_pressure e0 + 1
            ∧ Enemy.kind e' = Enemy.SteamGolem) as Hbase.
  { intros e0 rng php pdef pfoc a e' Hk0 Hp. unfold Enemy.choose_action.
    rewrite Hk0. simpl. rewrite decide_False by lia. intros H.
    split; [done|].
    rewrite (Enemy_choose_action_state _ _ _ _ _ _ _ H).
    unfold Enemy._update_status_effects.
    by destruct (foldl Enemy.update_one _ _). }
  split_and!.
  - intros rng php pdef pfoc Hp. by apply Hrel.
  - intros rng1 rng2 rng3 php1 pdef1 pfoc1 php2 pdef2 pfoc2 php3 pdef3 pfoc3
      a1 e1 a2 e2 Hp H1 H2.
    apply Hbase in H1 as (H1 & Hp1 & Hk1); [|done|lia].
    apply Hbase in H2 as (H2 & Hp2 & Hk2); [|done|lia].
    rewrite Hp in *. rewrite Hp1 in *. simpl in *.
    split_and!; try done; try lia. apply Hrel; [done|lia].
  - intros data rng php pdef pfoc. cbn zeta. by apply Hrel.
Qed.

Lemma item_names_aligned (m : ItemManager.t) (ids : list string) :
  (∀ item_id, item_id ∈ ids →
              ∃ it, ItemManager.get_item item_id m = Some (Some it)) →
  ∃ items,
    mapM (λ item_id, ItemManager.get_item item_id m) ids = Some items
    ∧ length (omap (fmap Items.name) items) = length ids
    ∧ ∀ k item_id,
        ids !! k = Some item_id →
        ∃ it, ItemManager.get_item item_id m = Some (Some it)
              ∧ omap (fmap Items.name) items !! k = Some (Items.name it).
Proof.
  induction ids as [|item_id ids IH]; intros Hall.
  - exists []. split; [done|]. split; [done|]. by intros k item_id' ?.
  - destruct (Hall item_id) as [it Hit]; [by left|].
    destruct IH as (items & Hm & Hl & Hk).
    { intros x Hx. apply Hall. by right. }
    exists (Some it :: items). simpl. rewrite Hit. simpl. rewrite Hm. simpl.
    split; [done|]. split; [csimpl; f_equal; exact Hl|].
    intros [|k] item_id' Hk'; simpl in *.
    + simplify_eq. by exists it.
    + by apply Hk.
Qed.

(** X24.  The names shown for a room.  When every id in the room has
    item data from which [create_item] builds an item,
    [get_item_names_in_room] returns one name per id, in the order of
    the room's list: the name at each index is the name of the item
    that [get_item] builds for the id at that index. *)
Theorem item_names_follow_the_room_order (room_id : string)
    (m : ItemManager.t) :
  (∀ item_id,
     item_id ∈ ItemManager.get_room_items room_id m →
     ∃ it, ItemManager.get_item item_id m = Some (Some it)) →
  ∃ names,
    ItemManager.get_item_names_in_room room_id m = Some names
    ∧ length names = length (ItemManager.get_room_items room_id m)
    ∧ ∀ k item_id,
        ItemManager.get_room_items room_id m !! k = Some item_id →
        ∃ it, ItemManager.get_item item_id m = Some (Some it)
              ∧ names !! k = Some (Items.name it).
Proof.
  intros Hall. unfold ItemManager.get_item_names_in_room.
  destruct (item_names_aligned m _ Hall) as (items & Hm & Hl & Hk).
  rewrite Hm. simpl. eexists. split; [reflexivity|]. by split.
Qed.

Lemma item_names_follow_the_room_order_witness :
  ItemManager.get_room_items "laboratory" Stock.stocked
  = ["mana_potion"; "focus_crystal"; "aether_crystal"]
  ∧ ItemManager.get_item_names_in_room "laboratory" Stock.stocked
    = Some [vstr "Mana Potion"; vstr "Focus Crystal";
            vstr "Aether Crystal"].
Proof.
  split; [reflexivity|].
  destruct (item_names_follow_the_room_order "laboratory" Stock.stocked)
    as (names & Hn & Hl & Hk).
  { intros item_id Hin.
    repeat (apply elem_of_cons in Hin as [->|Hin];
            [eexists; by vm_compute|]).
    by apply elem_of_nil in Hin. }
  rewrite Hn. f_equal.
  destruct (Hk 0%nat "mana_potion" eq_refl) as (it0 & Hit0 & Hname0).
  destruct (Hk 1%nat "focus_crystal" eq_refl) as (it1 & Hit1 & Hname1).
  destruct (Hk 2%nat "aether_crystal" eq_refl) as (it2 & Hit2 & Hname2).
  vm_compute in Hit0, Hit1, Hit2.
  injection Hit0 as <-. injection Hit1 as <-. injection Hit2 as <-.
  destruct names as [|n0 [|n1 [|n2 [|? ?]]]]; simplify_eq/=. done.
Defined.

(** ** The properties of the equipment and of the items at work *)

Lemma equip_weapon_sets_the_attack_witness :
  PlayerObject.equip_weapon Stock.steam_blade Stock.equipper
  = Some (true,
          PlayerObject.set_attack 15
            (PlayerObject.set_equipped_weapon (Some Stock.steam_blade)
               Stock.equipper))
  ∧ PlayerObject.equip_weapon Stock.steam_blade Stock.armed
    = Some (true,
            PlayerObject.set_attack 15
              (PlayerObject.set_equipped_weapon (Some Stock.steam_blade)
                 (PlayerObject.set_inventory [Stock.rusty_blade]
                    Stock.armed))).
Proof.
  destruct (equip_weapon_sets_the_attack Stock.steam_blade Stock.equipper)
    as [_ H1].
  destruct (H1 (SInt 5) 5) as [H1' _]; [reflexivity..|].
  destruct H1' as (p' & Hp' & -> & _); [reflexivity|].
  split; [exact Hp'|].
  destruct (equip_weapon_sets_the_attack Stock.steam_blade Stock.armed)
    as [_ H2].
  destruct (H2 (SInt 5) 5) as [_ H2']; [reflexivity..|].
  exact (H2' Stock.rusty_blade eq_refl eq_refl).
Defined.

Lemma accessory_cycle_grants_focus_witness :
  ∃ p1 p2,
    PlayerObject.equip_accessory Stock.bronze_talisman Stock.equipper
    = Some (true, p1)
    ∧ PlayerObject.unequip_accessory p1 = (Some Stock.bronze_talisman, p2)
    ∧ PlayerObject.max_focus p2 = 5
    ∧ PlayerObject.focus p2 = 6.
Proof.
  destruct (accessory_cycle_grants_focus Stock.bronze_talisman
              {[ "defense_bonus" := SInt 3; "focus_bonus" := SInt 1;
                 "speed_bonus" := SInt 2 ]} 1 Stock.equipper)
    as (p1 & p2 & H1 & _ & _ & H2 & Hm & _ & _ & _ & _ & _ & Hf);
    [reflexivity | reflexivity | reflexivity
    | intros x [= <-]; by eexists | intros x [= <-]; by eexists
    | reflexivity |].
  exists p1, p2. split; [exact H1|]. split; [exact H2|].
  split; [exact Hm|]. rewrite Hf; [reflexivity| by vm_compute | lia].
Defined.

Lemma loading_restores_an_unequipped_player_witness :
  PlayerObject.hp Stock.traveller = 42
  ∧ PlayerObject.focus Stock.traveller = 3
  ∧ PlayerObject.base_attack Stock.traveller = 12
  ∧ PlayerObject.inventory Stock.traveller
    = [Stock.tonic_data; Stock.aether_crystal]
  ∧ PlayerObject.visited_rooms Stock.traveller = {[ "entrance"; "hallway" ]}
  ∧ PlayerObject.status_effects Stock.traveller = [("poisoned", 2)]
  ∧ PlayerObject.from_dict (PlayerObject.to_dict Stock.traveller)
    = Some Stock.traveller.
Proof.
  do 6 (split; [reflexivity|]).
  apply (loading_restores_an_unequipped_player Stock.traveller);
    reflexivity.
Defined.

Lemma loading_duplicates_the_equipment_witness :
  PlayerObject.inventory Stock.armed = []
  ∧ PlayerObject.from_dict (PlayerObject.to_dict Stock.armed)
    = Some (PlayerObject.set_inventory [Stock.rusty_blade] Stock.armed)
  ∧ ∃ p', PlayerObject.from_dict (PlayerObject.to_dict Stock.adorned)
          = Some p'
          ∧ PlayerObject.inventory p' = [Stock.bronze_talisman].
Proof.
  split; [reflexivity|].
  destruct (loading_duplicates_the_equipment Stock.armed) as [Hw _].
  split.
  - exact (Hw Stock.rusty_blade (SInt 2) 2 eq_refl eq_refl eq_refl eq_refl
             eq_refl eq_refl eq_refl).
  - destruct (loading_duplicates_the_equipment Stock.adorned) as [_ Ha].
    destruct (Ha Stock.bronze_talisman
                {[ "defense_bonus" := SInt 3; "focus_bonus" := SInt 1;
                   "speed_bonus" := SInt 2 ]} 1)
      as (p' & Hp' & _ & Hi & _);
      [reflexivity | reflexivity | reflexivity | reflexivity
      | intros x [= <-]; by eexists | intros x [= <-]; by eexists
      | reflexivity |].
    exists p'. split; [exact Hp'|exact Hi].
Defined.

Lemma taking_an_item_from_a_room_witness :
  ItemManager.get_room_items "laboratory" Stock.manager
  = ["mana_potion"; "focus_crystal"; "aether_crystal"]
  ∧ ItemManager.take_item_from_room "laboratory" "focus_crystal"
      Stock.manager
    = Some (None,
            ItemManager.mk (ItemManager.item_data Stock.manager)
              (<[ "laboratory" := ["mana_potion"; "aether_crystal"] ]>
                 (ItemManager.room_items Stock.manager)))
  ∧ ItemManager.take_item_from_room "cellar" "focus_crystal" Stock.manager
    = Some (None, Stock.manager).
Proof.
  split; [reflexivity|].
  destruct (taking_an_item_from_a_room "laboratory" "focus_crystal"
              Stock.manager) as (_ & _ & H).
  destruct (H ["mana_potion"] ["aether_crystal"]) as [Hlost _];
    [reflexivity | apply (bool_decide_unpack _); by vm_compute |].
  split; [apply Hlost; reflexivity|].
  destruct (taking_an_item_from_a_room "cellar" "focus_crystal"
              Stock.manager) as (Hnone & _).
  apply Hnone. reflexivity.
Defined.

Lemma add_then_take_restores_the_room_witness :
  ∃ it,
    ItemManager.get_item "healing_tonic" Stock.manager = Some (Some it)
    ∧ ItemManager.take_item_from_room "hallway" "healing_tonic"
        (ItemManager.add_item_to_room "hallway" "healing_tonic"
           Stock.manager)
      = Some (Some it, Stock.manager).
Proof.
  destruct (ItemManager.get_item "healing_tonic" Stock.manager)
    as [[it|]|] eqn:Hget;
    [|by vm_compute in Hget|by vm_compute in Hget].
  exists it. split; [reflexivity|].
  destruct (add_then_take_restores_the_room "hallway" "healing_tonic"
              Stock.manager) as (_ & _ & H & _).
  destruct (H [] (Some it)) as [_ Ht];
    [reflexivity | apply not_elem_of_nil | exact Hget |].
  exact Ht.
Defined.

Lemma factory_consumables_are_never_used_up_witness :
  Factory.made Stock.healing_tonic
  ∧ ∃ s', Combat.run Stock.two_tonics Stock.tonic_duel = Some s'
          ∧ Player.inventory (Combat.player s') = [Stock.healing_tonic].
Proof.
  assert (Factory.made Stock.healing_tonic) as Hmade.
  { exists "healing_tonic", Stock.tonic_data.
    destruct (Items.create_item "healing_tonic" Stock.tonic_data) as [it|]
      eqn:Hc; [|by vm_compute in Hc].
    exists it. split; [reflexivity|].
    vm_compute in Hc. injection Hc as <-. by vm_compute. }
  split; [exact Hmade|].
  destruct (Combat.run Stock.two_tonics Stock.tonic_duel) as [s'|] eqn:Hrun;
    [|by vm_compute in Hrun].
  exists s'. split; [reflexivity|].
  apply (factory_consumables_are_never_used_up Stock.two_tonics
           Stock.tonic_duel s'); [|exact Hrun].
  intros x Hx. apply list_elem_of_singleton in Hx. by subst x.
Defined.

Lemma dropping_a_crystal_keeps_the_count_witness :
  ∃ p1,
    PlayerObject.add_item Stock.aether_crystal Stock.equipper = Some p1
    ∧ PlayerObject.aether_crystals p1 = 1
    ∧ PlayerObject.remove_item "Aether Crystal" p1
      = (Some Stock.aether_crystal,
         PlayerObject.set_aether_crystals 1 Stock.equipper).
Proof.
  destruct (dropping_a_crystal_keeps_the_count Stock.aether_crystal
              "Aether Crystal" Stock.equipper)
    as (p1 & H1 & _ & Hc & Hr);
    [reflexivity | intros d Hd; by apply elem_of_nil in Hd |].
  exists p1. split; [exact H1|]. split; [exact Hc|exact Hr].
Defined.

Lemma steam_golem_release_cycle_witness :
  Enemy.kind Samples.charged_golem = Enemy.SteamGolem
  ∧ Enemy.steam_pressure Samples.charged_golem = 2
  ∧ Enemy.choose_action Samples.rng_high 100 5 5 Samples.charged_golem
    = Some (ability_action "steam_blast",
            Enemy.set_steam_pressure 0 Samples.charged_golem).
Proof.
  split; [reflexivity|]. split; [reflexivity|].
  destruct (steam_golem_release_cycle Samples.charged_golem eq_refl)
    as (H & _).
  apply H. by vm_compute.
Defined.
